(** * DriveTime: the artifact store, its HTTP routes and the tool-call facade

    A shallow embedding of [src/lib/store.ts], the [/api/artifacts] route
    handlers and the MCP route's [handleToolCall], with the properties the
    specification states about them.

    Conventions.  A JavaScript string is a [string]; its characters stand
    for UTF-16 code units.  An optional or nullable field is an [option]
    ([undefined] and [null] are both [None]).  An [async] function is a
    computation in the [Promise] monad below: it reads and updates the
    world (the hosted table and the scripted behaviour of the remote
    services) and settles as fulfilled or rejected. *)

From Stdlib Require Import String Ascii List Bool Arith NArith ZArith Lia.
From Stdlib Require Import Sorted Permutation DecimalString.
Import ListNotations.
Set Warnings "-register-all".
Open Scope string_scope.

(* ================================================================= *)
(** ** JavaScript values and built-ins used by the code *)

Module Js.

(** Truthiness of an optional string: [undefined], [null] and the empty
    string are falsy. *)
Definition truthy (o : option string) : bool :=
  match o with
  | Some (String _ _) => true
  | _ => false
  end.

(** [o || d] on strings. *)
Definition or_else (o : option string) (d : string) : string :=
  if truthy o then match o with Some s => s | None => d end else d.

(** [s.slice(0, n)]. *)
Definition slice0 (n : nat) (s : string) : string := substring 0 n s.

(** [s.startsWith(p)]. *)
Definition startsWith (p s : string) : bool := prefix p s.

(** [s.split(sep)] for a one-character separator. *)
Fixpoint split (sep : ascii) (s : string) : list string :=
  match s with
  | EmptyString => [EmptyString]
  | String c s' =>
      if Ascii.eqb c sep then EmptyString :: split sep s'
      else match split sep s' with
           | [] => [String c EmptyString]
           | h :: t => String c h :: t
           end
  end.

(** [String(n)] for a non-negative integer. *)
Definition string_of_nat (n : nat) : string :=
  NilEmpty.string_of_uint (Nat.to_uint n).

(** [c.toUpperCase()] on the Latin letters. *)
Definition upper_char (c : ascii) : ascii :=
  let n := nat_of_ascii c in
  if ((97 <=? n)%nat && (n <=? 122)%nat)%bool then ascii_of_nat (n - 32) else c.

Fixpoint toUpperCase (s : string) : string :=
  match s with
  | EmptyString => EmptyString
  | String c s' => String (upper_char c) (toUpperCase s')
  end.

(** A [Date], by the UTC calendar fields [toISOString] prints
    ([month] is 1..12, as printed). *)
Record Date := {
  year : N;
  month : N;
  day : N;
  hours : N;
  minutes : N;
  seconds : N;
  milliseconds : N
}.

Definition digit (k : N) : ascii :=
  match k with
  | 0 => "0" | 1 => "1" | 2 => "2" | 3 => "3" | 4 => "4"
  | 5 => "5" | 6 => "6" | 7 => "7" | 8 => "8" | _ => "9"
  end%N%char.

(** The [w] low decimal digits of [n], most significant first. *)
Fixpoint pad (w : nat) (n : N) : string :=
  match w with
  | 0 => EmptyString
  | S w' => pad w' (n / 10)%N ++ String (digit (n mod 10)%N) EmptyString
  end.

(** The date part of the ISO form: four-digit years, and the expanded
    six-digit form with a sign beyond 9999. *)
Definition isoDate (d : Date) : string :=
  (if (year d <=? 9999)%N then pad 4 (year d) else "+" ++ pad 6 (year d))
    ++ "-" ++ pad 2 (month d) ++ "-" ++ pad 2 (day d).

Definition isoTime (d : Date) : string :=
  pad 2 (hours d) ++ ":" ++ pad 2 (minutes d) ++ ":" ++ pad 2 (seconds d)
    ++ "." ++ pad 3 (milliseconds d) ++ "Z".

(** [d.toISOString()]: [YYYY-MM-DDTHH:mm:ss.sssZ]. *)
Definition toISOString (d : Date) : string :=
  isoDate d ++ "T" ++ isoTime d.

(** [Array.prototype.sort(cmp)]: the stable sort; an element goes before
    the first later element it does not compare greater than. *)
Section Sort.
Context {A : Type} (cmp : A -> A -> Z).

Fixpoint insert (x : A) (l : list A) : list A :=
  match l with
  | [] => [x]
  | y :: t => if (cmp x y <=? 0)%Z then x :: y :: t else y :: insert x t
  end.

Definition sort (l : list A) : list A := fold_right insert [] l.
End Sort.

(** JSON-like values carried by responses. *)
Inductive json :=
| JUndefined
| JNull
| JBool (b : bool)
| JNumber (n : Z)
| JString (s : string)
| JArray (items : list json)
| JObject (fields : list (string * json)).

Definition opt_string (o : option string) : json :=
  match o with
  | Some s => JString s
  | None => JUndefined
  end.

Fixpoint assoc (k : string) (fields : list (string * json)) : option json :=
  match fields with
  | [] => None
  | (k', v) :: rest => if String.eqb k k' then Some v else assoc k rest
  end.

Definition number_of_nat (n : nat) : json := JNumber (Z.of_nat n).

(** [l.map((a, i) => f a i)], the index counted from [i]. *)
Fixpoint mapi_from {A B : Type} (f : A -> nat -> B) (i : nat) (l : list A)
  : list B :=
  match l with
  | [] => []
  | a :: rest => f a i :: mapi_from f (S i) rest
  end.

Definition mapi {A B : Type} (f : A -> nat -> B) (l : list A) : list B :=
  mapi_from f 0 l.

(** The line feed and the double quote of a template literal. *)
Definition nl : string := String (ascii_of_nat 10) EmptyString.
Definition dquote : string := String (ascii_of_nat 34) EmptyString.

(** [o.k], [None] when [o] is not an object or has no such property. *)
Definition get (k : string) (o : json) : option json :=
  match o with
  | JObject fields => assoc k fields
  | _ => None
  end.

End Js.

(* ================================================================= *)
(** ** [types/artifact.ts] *)

Module Types.

Inductive ArtifactType := idea | article | question | screenshot | note.

Inductive ArtifactStatus := pending | processing | ready | playing | completed.

Record Artifact := {
  id : string;
  userId : string;
  type : ArtifactType;
  title : string;
  rawContent : string;
  summary : option string;
  fullAudioText : option string;
  sourceUrl : option string;
  imageData : option string;
  status : ArtifactStatus;
  createdAt : string;
  playedAt : option string;
  completedAt : option string;
  tags : list string;
  dayBucket : string
}.

(** [Partial<Artifact>]: every property optional. *)
Record PartialArtifact := {
  p_id : option string;
  p_userId : option string;
  p_type : option ArtifactType;
  p_title : option string;
  p_rawContent : option string;
  p_summary : option string;
  p_fullAudioText : option string;
  p_sourceUrl : option string;
  p_imageData : option string;
  p_status : option ArtifactStatus;
  p_createdAt : option string;
  p_playedAt : option string;
  p_completedAt : option string;
  p_tags : option (list string);
  p_dayBucket : option string
}.

Record CreateArtifactInput := {
  in_type : ArtifactType;
  in_content : string;
  in_title : option string;
  in_sourceUrl : option string;
  in_imageData : option string;
  in_tags : option (list string)
}.

Record Stats := {
  total : nat;
  pending_count : nat;
  ready_count : nat;
  completed_count : nat
}.

Record DayGroup := {
  date : string;
  artifacts : list Artifact;
  stats : Stats
}.

Definition status_eqb (a b : ArtifactStatus) : bool :=
  match a, b with
  | pending, pending | processing, processing | ready, ready
  | playing, playing | completed, completed => true
  | _, _ => false
  end.

Definition type_name (t : ArtifactType) : string :=
  match t with
  | idea => "idea"
  | article => "article"
  | question => "question"
  | screenshot => "screenshot"
  | note => "note"
  end.

Definition status_name (s : ArtifactStatus) : string :=
  match s with
  | pending => "pending"
  | processing => "processing"
  | ready => "ready"
  | playing => "playing"
  | completed => "completed"
  end.

End Types.
Export Types.

(* ================================================================= *)
(** ** The [artifacts] table and the hosted store behind [supabase] *)

(** [ArtifactRow] of [store.ts]: a row of the table, in snake case, with
    nullable columns.  The [type] and [status] columns hold the values of
    the two enumerations ([rowToArtifact] casts them unchecked). *)
Module Row.
Record t := {
  id : string;
  user_id : string;
  type : ArtifactType;
  title : string;
  raw_content : string;
  summary : option string;
  full_audio_text : option string;
  source_url : option string;
  image_data : option string;
  status : ArtifactStatus;
  created_at : string;
  played_at : option string;
  completed_at : option string;
  tags : list string;
  day_bucket : string
}.
End Row.

(** The [updates] object of [updateArtifactStatus]: the columns it may
    name; [None] is a key that was not set. *)
Module Updates.
Record t := {
  status : option ArtifactStatus;
  played_at : option string;
  completed_at : option string;
  summary : option string;
  full_audio_text : option string;
  title : option string;
  tags : option (list string)
}.

Definition empty : t :=
  {| status := None; played_at := None; completed_at := None;
     summary := None; full_audio_text := None; title := None;
     tags := None |}.

Definition set_status (v : ArtifactStatus) (u : t) : t :=
  {| status := Some v; played_at := played_at u;
     completed_at := completed_at u; summary := summary u;
     full_audio_text := full_audio_text u; title := title u;
     tags := tags u |}.

Definition set_played_at (v : string) (u : t) : t :=
  {| status := status u; played_at := Some v;
     completed_at := completed_at u; summary := summary u;
     full_audio_text := full_audio_text u; title := title u;
     tags := tags u |}.

Definition set_completed_at (v : string) (u : t) : t :=
  {| status := status u; played_at := played_at u;
     completed_at := Some v; summary := summary u;
     full_audio_text := full_audio_text u; title := title u;
     tags := tags u |}.

Definition set_summary (v : string) (u : t) : t :=
  {| status := status u; played_at := played_at u;
     completed_at := completed_at u; summary := Some v;
     full_audio_text := full_audio_text u; title := title u;
     tags := tags u |}.

Definition set_full_audio_text (v : string) (u : t) : t :=
  {| status := status u; played_at := played_at u;
     completed_at := completed_at u; summary := summary u;
     full_audio_text := Some v; title := title u;
     tags := tags u |}.

Definition set_title (v : string) (u : t) : t :=
  {| status := status u; played_at := played_at u;
     completed_at := completed_at u; summary := summary u;
     full_audio_text := full_audio_text u; title := Some v;
     tags := tags u |}.

Definition set_tags (v : list string) (u : t) : t :=
  {| status := status u; played_at := played_at u;
     completed_at := completed_at u; summary := summary u;
     full_audio_text := full_audio_text u; title := title u;
     tags := Some v |}.

(** SQL [UPDATE ... SET]: a named column takes the new value, every
    other column keeps its own. *)
Definition apply (u : t) (r : Row.t) : Row.t :=
  {| Row.id := Row.id r;
     Row.user_id := Row.user_id r;
     Row.type := Row.type r;
     Row.title := match title u with Some v => v | None => Row.title r end;
     Row.raw_content := Row.raw_content r;
     Row.summary :=
       match summary u with Some v => Some v | None => Row.summary r end;
     Row.full_audio_text :=
       match full_audio_text u with
       | Some v => Some v
       | None => Row.full_audio_text r
       end;
     Row.source_url := Row.source_url r;
     Row.image_data := Row.image_data r;
     Row.status := match status u with Some v => v | None => Row.status r end;
     Row.created_at := Row.created_at r;
     Row.played_at :=
       match played_at u with Some v => Some v | None => Row.played_at r end;
     Row.completed_at :=
       match completed_at u with
       | Some v => Some v
       | None => Row.completed_at r
       end;
     Row.tags := match tags u with Some v => v | None => Row.tags r end;
     Row.day_bucket := Row.day_bucket r |}.
End Updates.

(** What a remote service reports when a call to it fails.  [isError]
    tells whether the object derives from the built-in [Error]. *)
Record PostgrestError := {
  message : string;
  isError : bool
}.

(** One answer of the language model: the call fails, or it returns a
    first choice with or without content. *)
Inductive Completion :=
| ApiFailure (msg : string)
| Choice (content : option string).

(** The world a request runs in: the table, and what the remote services
    will do on the coming calls.  [faults] has one entry per round trip to
    the store, [Some e] when that round trip fails with [e]; when it runs
    out the store is healthy.  [completions] has one entry per call to the
    language model. *)
Record World := {
  table : list Row.t;
  faults : list (option PostgrestError);
  completions : list Completion
}.

Inductive Exception :=
| StoreError (e : PostgrestError)
| ApiError (msg : string).

Inductive Settled (A : Type) :=
| Fulfilled (a : A)
| Rejected (e : Exception).
Arguments Fulfilled {A} a.
Arguments Rejected {A} e.

(** An [async] computation. *)
Definition Promise (A : Type) : Type := World -> Settled A * World.

Definition ret {A} (a : A) : Promise A := fun w => (Fulfilled a, w).

Definition throw {A} (e : Exception) : Promise A := fun w => (Rejected e, w).

Definition bind {A B} (c : Promise A) (k : A -> Promise B) : Promise B :=
  fun w =>
    match c w with
    | (Fulfilled a, w') => k a w'
    | (Rejected e, w') => (Rejected e, w')
    end.

(** [try { c } catch (e) { h e }]. *)
Definition try_catch {A} (c : Promise A) (h : Exception -> Promise A)
  : Promise A :=
  fun w =>
    match c w with
    | (Fulfilled a, w') => (Fulfilled a, w')
    | (Rejected e, w') => h e w'
    end.

Declare Scope promise_scope.
Delimit Scope promise_scope with promise.
Notation "x <- c ;; k" := (bind c (fun x => k))
  (at level 61, c at next level, right associativity) : promise_scope.
Open Scope promise_scope.

Module Supabase.

(** [{ data, error }]. *)
Record Response (A : Type) := {
  data : option A;
  error : option PostgrestError
}.
Arguments data {A} r.
Arguments error {A} r.

(** [.eq(column, value)] on the columns the code filters by. *)
Inductive Filter :=
| eq_id (v : string)
| eq_user_id (v : string)
| eq_day_bucket (v : string)
| eq_status (v : ArtifactStatus).

Definition holds (f : Filter) (r : Row.t) : bool :=
  match f with
  | eq_id v => String.eqb (Row.id r) v
  | eq_user_id v => String.eqb (Row.user_id r) v
  | eq_day_bucket v => String.eqb (Row.day_bucket r) v
  | eq_status v => status_eqb (Row.status r) v
  end.

Definition matching (fs : list Filter) (r : Row.t) : bool :=
  forallb (fun f => holds f r) fs.

Definition sign (c : comparison) : Z :=
  match c with
  | Lt => (-1)%Z
  | Eq => 0%Z
  | Gt => 1%Z
  end.

(** [.order('created_at', { ascending: false })].  The database
    promises no order among rows of equal [created_at]; here they keep
    their order in the table, which is one of the answers it may give.
    What is stated of two different queries is therefore stated up to
    the order of ties, or for rows of distinct [created_at]
    ([distinct_times]). *)
Definition order_created_at_desc (rows : list Row.t) : list Row.t :=
  Js.sort
    (fun a b => sign (String.compare (Row.created_at b) (Row.created_at a)))
    rows.

(** The error of [.single()] when the result is not exactly one row. *)
Definition not_single : PostgrestError :=
  {| message := "JSON object requested, multiple (or no) rows returned";
     isError := true |}.

(** [.single()]. *)
Definition single (rows : list Row.t) : Response Row.t :=
  match rows with
  | [r] => {| data := Some r; error := None |}
  | _ => {| data := None; error := Some not_single |}
  end.

(** One round trip: it fails as [faults] says and leaves the table
    alone, or it runs [run] on the table. *)
Definition request {A} (run : list Row.t -> Response A * list Row.t)
  : Promise (Response A) :=
  fun w =>
    match faults w with
    | Some e :: rest =>
        (Fulfilled {| data := None; error := Some e |},
         {| table := table w; faults := rest;
            completions := completions w |})
    | _ =>
        let (r, t) := run (table w) in
        (Fulfilled r,
         {| table := t; faults := tl (faults w);
            completions := completions w |})
    end.

(** [.from('artifacts').select('*').eq(..)...order('created_at', ..)]. *)
Definition select_ordered (fs : list Filter) : Promise (Response (list Row.t)) :=
  request (fun rows =>
    ({| data := Some (order_created_at_desc (filter (matching fs) rows));
        error := None |}, rows)).

(** [.from('artifacts').select('*').eq(..).single()]. *)
Definition select_single (fs : list Filter) : Promise (Response Row.t) :=
  request (fun rows => (single (filter (matching fs) rows), rows)).

Fixpoint replace_by_id (row : Row.t) (rows : list Row.t) : option (list Row.t) :=
  match rows with
  | [] => None
  | r :: rest =>
      if String.eqb (Row.id r) (Row.id row) then Some (row :: rest)
      else match replace_by_id row rest with
           | Some rest' => Some (r :: rest')
           | None => None
           end
  end.

(** [.from('artifacts').upsert(row, { onConflict: 'id' })]: the row of
    that [id] is overwritten, or the row is added. *)
Definition upsert (row : Row.t) : Promise (Response unit) :=
  request (fun rows =>
    ({| data := None; error := None |},
     match replace_by_id row rows with
     | Some rows' => rows'
     | None => (rows ++ [row])%list
     end)).

(** [.from('artifacts').update(u).eq(..).select().single()]: the
    matching rows are updated and returned; when they are not exactly
    one the request fails and changes nothing. *)
Definition update_single (u : Updates.t) (fs : list Filter)
  : Promise (Response Row.t) :=
  request (fun rows =>
    match filter (matching fs) rows with
    | [_] =>
        (single (map (Updates.apply u) (filter (matching fs) rows)),
         map (fun r => if matching fs r then Updates.apply u r else r) rows)
    | _ => ({| data := None; error := Some not_single |}, rows)
    end).

(** [.from('artifacts').delete().eq(..)]: the matching rows are
    removed; removing none is not an error. *)
Definition delete (fs : list Filter) : Promise (Response unit) :=
  request (fun rows =>
    ({| data := None; error := None |},
     filter (fun r => negb (matching fs r)) rows)).

End Supabase.

(* ================================================================= *)
(** ** [lib/store.ts] *)

Module Store.
Import Supabase.

Definition rowToArtifact (row : Row.t) : Artifact :=
  {| id := Row.id row;
     userId := Row.user_id row;
     type := Row.type row;
     title := Row.title row;
     rawContent := Row.raw_content row;
     summary := Row.summary row;
     fullAudioText := Row.full_audio_text row;
     sourceUrl := Row.source_url row;
     imageData := Row.image_data row;
     status := Row.status row;
     createdAt := Row.created_at row;
     playedAt := Row.played_at row;
     completedAt := Row.completed_at row;
     tags := Row.tags row;
     dayBucket := Row.day_bucket row |}.

Definition artifactToRow (artifact : Artifact) : Row.t :=
  {| Row.id := id artifact;
     Row.user_id := userId artifact;
     Row.type := type artifact;
     Row.title := title artifact;
     Row.raw_content := rawContent artifact;
     Row.summary := summary artifact;
     Row.full_audio_text := fullAudioText artifact;
     Row.source_url := sourceUrl artifact;
     Row.image_data := imageData artifact;
     Row.status := status artifact;
     Row.created_at := createdAt artifact;
     Row.played_at := playedAt artifact;
     Row.completed_at := completedAt artifact;
     Row.tags := tags artifact;
     Row.day_bucket := dayBucket artifact |}.

(** [if (error || !data) return null; return rowToArtifact(data)]. *)
Definition one (r : Response Row.t) : option Artifact :=
  match error r, data r with
  | None, Some row => Some (rowToArtifact row)
  | _, _ => None
  end.

(** [if (error || !data) return []; return data.map(rowToArtifact)]. *)
Definition many (r : Response (list Row.t)) : list Artifact :=
  match error r, data r with
  | None, Some rows => map rowToArtifact rows
  | _, _ => []
  end.

Definition getArtifact (id : string) : Promise (option Artifact) :=
  r <- select_single [eq_id id] ;;
  ret (one r).

Definition getAllArtifacts (userId : string) : Promise (list Artifact) :=
  r <- select_ordered [eq_user_id userId] ;;
  ret (many r).

Definition getArtifactsByDay (userId date : string) : Promise (list Artifact) :=
  r <- select_ordered [eq_user_id userId; eq_day_bucket date] ;;
  ret (many r).

Definition getArtifactsByStatus (userId : string) (status : ArtifactStatus)
  : Promise (list Artifact) :=
  r <- select_ordered [eq_user_id userId; eq_status status] ;;
  ret (many r).

Definition getPendingArtifacts (userId : string) : Promise (list Artifact) :=
  getArtifactsByStatus userId ready.

Definition saveArtifact (artifact : Artifact) : Promise unit :=
  let row := artifactToRow artifact in
  r <- upsert row ;;
  match error r with
  | Some e => throw (StoreError e)
  | None => ret tt
  end.

(** The [updates] object built by [updateArtifactStatus] from the
    current artifact; [now] is the [new Date()] of a stamp. *)
Definition status_updates (current : Artifact) (status : ArtifactStatus)
    (additionalFields : option PartialArtifact) (now : Js.Date) : Updates.t :=
  let updates := Updates.set_status status Updates.empty in
  let updates :=
    if status_eqb status playing && negb (Js.truthy (playedAt current))
    then Updates.set_played_at (Js.toISOString now) updates
    else updates in
  let updates :=
    if status_eqb status completed && negb (Js.truthy (completedAt current))
    then Updates.set_completed_at (Js.toISOString now) updates
    else updates in
  match additionalFields with
  | Some fields =>
      let updates :=
        match p_summary fields with
        | Some v => Updates.set_summary v updates
        | None => updates
        end in
      let updates :=
        match p_fullAudioText fields with
        | Some v => Updates.set_full_audio_text v updates
        | None => updates
        end in
      let updates :=
        match p_title fields with
        | Some v => Updates.set_title v updates
        | None => updates
        end in
      match p_tags fields with
      | Some v => Updates.set_tags v updates
      | None => updates
      end
  | None => updates
  end.

Definition updateArtifactStatus (id : string) (status : ArtifactStatus)
    (additionalFields : option PartialArtifact) (now : Js.Date)
  : Promise (option Artifact) :=
  current <- getArtifact id ;;
  match current with
  | None => ret None
  | Some current =>
      let updates := status_updates current status additionalFields now in
      r <- update_single updates [eq_id id] ;;
      ret (one r)
  end.

Definition deleteArtifact (id : string) : Promise bool :=
  r <- delete [eq_id id] ;;
  ret (match error r with Some _ => false | None => true end).

(** The [Map<string, Artifact[]>] of [getDayGroups], its entries in
    insertion order. *)
Definition Groups := list (string * list Artifact).

Fixpoint Map_get (k : string) (groups : Groups) : option (list Artifact) :=
  match groups with
  | [] => None
  | (k', v) :: rest => if String.eqb k' k then Some v else Map_get k rest
  end.

(** [groups.set(k, v)]: an existing key keeps its place. *)
Fixpoint Map_set (k : string) (v : list Artifact) (groups : Groups) : Groups :=
  match groups with
  | [] => [(k, v)]
  | (k', v') :: rest =>
      if String.eqb k' k then (k', v) :: rest
      else (k', v') :: Map_set k v rest
  end.

(** The body of the first loop: [existing] is the day's array or a new
    one, the artifact is pushed on it, and it is stored under the day. *)
Definition bucket (groups : Groups) (artifact : Artifact) : Groups :=
  let existing :=
    match Map_get (dayBucket artifact) groups with
    | Some l => l
    | None => []
    end in
  Map_set (dayBucket artifact) (existing ++ [artifact])%list groups.

Definition dayGroup (entry : string * list Artifact) : DayGroup :=
  let (date, arts) := entry in
  {| date := date;
     artifacts := arts;
     stats :=
       {| total := List.length arts;
          pending_count :=
            List.length
              (filter (fun a => status_eqb (status a) pending
                                || status_eqb (status a) processing) arts);
          ready_count :=
            List.length (filter (fun a => status_eqb (status a) ready) arts);
          completed_count :=
            List.length
              (filter (fun a => status_eqb (status a) completed) arts) |} |}.

Section Collation.
(** [a.localeCompare(b)] of the platform. *)
Variable localeCompare : string -> string -> Z.

Definition groupDays (userArtifacts : list Artifact) : list DayGroup :=
  let groups := fold_left bucket userArtifacts [] in
  let dayGroups := map dayGroup groups in
  Js.sort (fun a b => localeCompare (date b) (date a)) dayGroups.

Definition getDayGroups (userId : string) : Promise (list DayGroup) :=
  userArtifacts <- getAllArtifacts userId ;;
  ret (groupDays userArtifacts).
End Collation.

End Store.

(* ================================================================= *)
(** ** The route handlers *)

(** [NextResponse.json(body, { status, headers })]. *)
Record HttpResponse := {
  http_status : nat;
  http_body : Js.json;
  http_headers : list (string * string)
}.

Definition DEMO_USER_ID : string := "demo-user".

Definition json_of_artifact (a : Artifact) : Js.json :=
  Js.JObject
    [("id", Js.JString (id a));
     ("userId", Js.JString (userId a));
     ("type", Js.JString (type_name (type a)));
     ("title", Js.JString (title a));
     ("rawContent", Js.JString (rawContent a));
     ("summary", Js.opt_string (summary a));
     ("fullAudioText", Js.opt_string (fullAudioText a));
     ("sourceUrl", Js.opt_string (sourceUrl a));
     ("imageData", Js.opt_string (imageData a));
     ("status", Js.JString (status_name (status a)));
     ("createdAt", Js.JString (createdAt a));
     ("playedAt", Js.opt_string (playedAt a));
     ("completedAt", Js.opt_string (completedAt a));
     ("tags", Js.JArray (map Js.JString (tags a)));
     ("dayBucket", Js.JString (dayBucket a))].

(** The message a [catch] block reads:
    [error instanceof Error ? error.message : 'Unknown error']. *)
Definition error_message (e : Exception) : string :=
  match e with
  | StoreError pe => if isError pe then message pe else "Unknown error"
  | ApiError msg => msg
  end.

(** [app/api/artifacts/route.ts] *)
Module ArtifactsRoute.

Definition corsHeaders : list (string * string) :=
  [("Access-Control-Allow-Origin", "*");
   ("Access-Control-Allow-Methods", "GET, POST, PUT, DELETE, OPTIONS");
   ("Access-Control-Allow-Headers", "Content-Type, Authorization")].

(** The [artifact] object [POST] builds from the request body, the
    clock and a fresh identifier. *)
Definition POST_artifact (body : CreateArtifactInput) (now : Js.Date)
    (uuid : string) : Artifact :=
  let content := in_content body in
  let tags := match in_tags body with Some l => l | None => [] end in
  let dayBucket := hd EmptyString (Js.split "T" (Js.toISOString now)) in
  let title :=
    Js.slice0 100 content
      ++ (if (100 <? String.length content)%nat then "..." else EmptyString) in
  {| id := uuid;
     userId := DEMO_USER_ID;
     type :=
       if Js.truthy (in_imageData body) then screenshot
       else if Js.truthy (in_sourceUrl body) then article
       else in_type body;
     title := title;
     rawContent := content;
     summary := None;
     fullAudioText := None;
     sourceUrl := in_sourceUrl body;
     imageData := in_imageData body;
     status := pending;
     createdAt := Js.toISOString now;
     playedAt := None;
     completedAt := None;
     tags := tags;
     dayBucket := dayBucket |}.

Definition POST (body : CreateArtifactInput) (now : Js.Date) (uuid : string)
  : Promise HttpResponse :=
  try_catch
    (let artifact := POST_artifact body now uuid in
     _ <- Store.saveArtifact artifact ;;
     ret {| http_status := 200;
            http_body := json_of_artifact artifact;
            http_headers := corsHeaders |})
    (fun error =>
       ret {| http_status := 500;
              http_body :=
                Js.JObject
                  [("error", Js.JString "Failed to create artifact");
                   ("details", Js.JString (error_message error))];
              http_headers := corsHeaders |}).

End ArtifactsRoute.

(** [app/api/artifacts/[id]/route.ts] *)
Module ArtifactRoute.

Definition json_response (status : nat) (body : Js.json) : HttpResponse :=
  {| http_status := status; http_body := body; http_headers := [] |}.

Definition error_body (msg : string) : Js.json :=
  Js.JObject [("error", Js.JString msg)].

Definition GET (id : string) : Promise HttpResponse :=
  try_catch
    (artifact <- Store.getArtifact id ;;
     match artifact with
     | None => ret (json_response 404 (error_body "Artifact not found"))
     | Some artifact => ret (json_response 200 (json_of_artifact artifact))
     end)
    (fun _ => ret (json_response 500 (error_body "Failed to fetch artifact"))).

(** What [PATCH] finds in its request.  [request.json()] rejects on a
    body that is not JSON; [null] is JSON and cannot be destructured;
    any other body is read as [{ status, ...additionalFields }], at the
    types [updateArtifactStatus] declares for the two. *)
Inductive PatchBody :=
| NotJson (msg : string)
| JsonNull
| JsonObject (status : ArtifactStatus) (additionalFields : PartialArtifact).

(** [await request.json()], [None] standing for [null]; the
    [SyntaxError] carries the parser's message. *)
Definition request_json (body : PatchBody)
  : Promise (option (ArtifactStatus * PartialArtifact)) :=
  match body with
  | NotJson msg => throw (ApiError msg)
  | JsonNull => ret None
  | JsonObject status additionalFields => ret (Some (status, additionalFields))
  end.

Definition PATCH (id : string) (body : PatchBody) (now : Js.Date)
  : Promise HttpResponse :=
  try_catch
    (body <- request_json body ;;
     match body with
     | None =>
         throw (ApiError "Cannot destructure property 'status' of 'body' as it is null.")
     | Some (status, additionalFields) =>
         updated <-
           Store.updateArtifactStatus id status (Some additionalFields) now ;;
         match updated with
         | None => ret (json_response 404 (error_body "Artifact not found"))
         | Some updated => ret (json_response 200 (json_of_artifact updated))
         end
     end)
    (fun _ => ret (json_response 500 (error_body "Failed to update artifact"))).

Definition DELETE (id : string) : Promise HttpResponse :=
  try_catch
    (deleted <- Store.deleteArtifact id ;;
     if negb deleted
     then ret (json_response 404 (error_body "Artifact not found"))
     else ret (json_response 200 (Js.JObject [("success", Js.JBool true)])))
    (fun _ => ret (json_response 500 (error_body "Failed to delete artifact"))).

End ArtifactRoute.

(* ================================================================= *)
(** ** [lib/openai.ts] *)

Module OpenAI.

(** [expandForAudio]: the call to the model rejects, or the first
    choice's content is returned, [content] standing in for a missing
    or empty one.  A model with no scripted answer left returns no
    content. *)
Definition expandForAudio (content : string) (type : string) : Promise string :=
  fun w =>
    let w' := {| table := table w; faults := faults w;
                 completions := tl (completions w) |} in
    match completions w with
    | ApiFailure msg :: _ => (Rejected (ApiError msg), w')
    | Choice c :: _ => (Fulfilled (Js.or_else c content), w')
    | [] => (Fulfilled content, w')
    end.

End OpenAI.

(* ================================================================= *)
(** ** [app/api/mcp/route.ts]: the tool-call facade *)

Module Mcp.

Definition corsHeaders : list (string * string) :=
  [("Access-Control-Allow-Origin", "*");
   ("Access-Control-Allow-Methods", "GET, POST, OPTIONS");
   ("Access-Control-Allow-Headers", "Content-Type, Authorization")].

(** The names of the [tools] catalogue. *)
Definition tool_names : list string :=
  ["show_drivetime"; "get_todays_episodes"; "get_episode_content";
   "mark_episode_complete"; "add_to_queue"].

(** The [args] of a call, read through the casts of the arms and the
    tools' input schemas: [status] and [mode] may be missing, the
    properties a schema requires are there. *)
Record Args := {
  arg_status : option string;
  arg_episode_id : string;
  arg_mode : option string;
  arg_type : ArtifactType;
  arg_content : string
}.

Record ContentItem := {
  item_type : string;
  item_text : string
}.

Record ToolResult := {
  structuredContent : option Js.json;
  content : list ContentItem;
  meta : option Js.json
}.

Definition text (s : string) : list ContentItem :=
  [{| item_type := "text"; item_text := s |}].

(** [`${n} episode${n > 1 ? 's' : ''}`]. *)
Definition episodes_phrase (n : nat) : string :=
  Js.string_of_nat n ++ " episode" ++ (if (1 <? n)%nat then "s" else EmptyString).

Definition not_found : ToolResult :=
  {| structuredContent :=
       Some (Js.JObject [("error", Js.JString "Episode not found")]);
     content := text "Episode not found.";
     meta := None |}.

(** The [artifact] object the [add_to_queue] arm builds. *)
Definition add_to_queue_artifact (type : ArtifactType) (content : string)
    (now : Js.Date) (uuid : string) : Artifact :=
  let isUrl :=
    Js.startsWith "http://" content || Js.startsWith "https://" content in
  let title :=
    Js.slice0 100 content
      ++ (if (100 <? String.length content)%nat then "..." else EmptyString) in
  {| id := uuid;
     userId := DEMO_USER_ID;
     Types.type := if isUrl then article else type;
     Types.title := title;
     rawContent := content;
     summary := None;
     fullAudioText := None;
     sourceUrl := if isUrl then Some content else None;
     imageData := None;
     status := pending;
     createdAt := Js.toISOString now;
     playedAt := None;
     completedAt := None;
     tags := [];
     dayBucket := hd EmptyString (Js.split "T" (Js.toISOString now)) |}.

Definition handleToolCall (name : string) (args : Args) (baseUrl : string)
    (now : Js.Date) (uuid : string) : Promise ToolResult :=
  if String.eqb name "show_drivetime" then
    artifacts <- Store.getPendingArtifacts DEMO_USER_ID ;;
    let n := List.length artifacts in
    ret {| structuredContent :=
             Some (Js.JObject
               [("episodeCount", Js.number_of_nat n);
                ("message",
                 Js.JString
                   (if (0 <? n)%nat
                    then "You have " ++ episodes_phrase n ++ " ready."
                    else "Your queue is empty. Add some ideas!"))]);
           content :=
             text (if (0 <? n)%nat
                   then "DriveTime is ready with " ++ episodes_phrase n
                          ++ " in your queue."
                   else "DriveTime is ready. Your queue is empty - add some ideas, questions, or notes!");
           meta :=
             Some (Js.JObject
               [("episodes",
                 Js.JArray
                   (Js.mapi
                      (fun a i =>
                         Js.JObject
                           [("id", Js.JString (id a));
                            ("position", Js.number_of_nat (i + 1));
                            ("type", Js.JString (type_name (type a)));
                            ("title", Js.JString (title a));
                            ("summary", Js.opt_string (summary a))])
                      artifacts))]) |}
  else if String.eqb name "get_todays_episodes" then
    let status := Js.or_else (arg_status args) "pending" in
    artifacts <-
      (if String.eqb status "pending"
       then Store.getPendingArtifacts DEMO_USER_ID
       else
         artifacts <- Store.getAllArtifacts DEMO_USER_ID ;;
         if String.eqb status "completed"
         then ret (filter (fun a => status_eqb (Types.status a) completed) artifacts)
         else ret artifacts) ;;
    let n := List.length artifacts in
    let episodeList :=
      String.concat Js.nl
        (Js.mapi
           (fun a i =>
              Js.string_of_nat (i + 1) ++ ". ["
                ++ Js.toUpperCase (type_name (type a)) ++ "] " ++ title a)
           artifacts) in
    ret {| structuredContent :=
             Some (Js.JObject
               [("count", Js.number_of_nat n);
                ("episodes",
                 Js.JArray
                   (Js.mapi
                      (fun a i =>
                         Js.JObject
                           [("id", Js.JString (id a));
                            ("position", Js.number_of_nat (i + 1));
                            ("type", Js.JString (type_name (type a)));
                            ("title", Js.JString (title a))])
                      artifacts))]);
           content :=
             text (if (0 <? n)%nat
                   then "Here are your " ++ episodes_phrase n ++ ":"
                          ++ Js.nl ++ Js.nl ++ episodeList ++ Js.nl ++ Js.nl
                          ++ "Want me to read the first one?"
                   else "No episodes in queue. Use show_drivetime to add some!");
           meta :=
             Some (Js.JObject
               [("episodes",
                 Js.JArray
                   (Js.mapi
                      (fun a index =>
                         Js.JObject
                           [("id", Js.JString (id a));
                            ("position", Js.number_of_nat (index + 1));
                            ("type", Js.JString (type_name (type a)));
                            ("title", Js.JString (title a));
                            ("summary", Js.opt_string (summary a));
                            ("rawContent", Js.JString (rawContent a))])
                      artifacts))]) |}
  else if String.eqb name "get_episode_content" then
    let episodeId := arg_episode_id args in
    let mode := Js.or_else (arg_mode args) "summary" in
    artifact <- Store.getArtifact episodeId ;;
    match artifact with
    | None => ret not_found
    | Some artifact =>
        _ <- Store.updateArtifactStatus episodeId playing None now ;;
        let contentText :=
          if String.eqb mode "full"
          then Js.or_else (fullAudioText artifact) (rawContent artifact)
          else Js.or_else (summary artifact) (rawContent artifact) in
        contentText <-
          (if String.eqb mode "full" && negb (Js.truthy (fullAudioText artifact))
           then OpenAI.expandForAudio (rawContent artifact)
                  (type_name (type artifact))
           else ret contentText) ;;
        ret {| structuredContent :=
                 Some (Js.JObject
                   [("id", Js.JString (id artifact));
                    ("type", Js.JString (type_name (type artifact)));
                    ("title", Js.JString (title artifact));
                    ("mode", Js.JString mode)]);
               content :=
                 text ("**" ++ Js.toUpperCase (type_name (type artifact))
                         ++ ": " ++ title artifact ++ "**" ++ Js.nl ++ Js.nl
                         ++ contentText ++ Js.nl ++ Js.nl ++ "---" ++ Js.nl
                         ++ "*Say " ++ Js.dquote ++ "next" ++ Js.dquote
                         ++ " to continue, " ++ Js.dquote ++ "more detail"
                         ++ Js.dquote
                         ++ " for full version, or ask me anything about this.*");
               meta :=
                 Some (Js.JObject
                   [("episodeId", Js.JString (id artifact));
                    ("type", Js.JString (type_name (type artifact)));
                    ("sourceUrl", Js.opt_string (sourceUrl artifact));
                    ("fullContent", Js.JString (rawContent artifact))]) |}
    end
  else if String.eqb name "mark_episode_complete" then
    let episodeId := arg_episode_id args in
    updated <- Store.updateArtifactStatus episodeId completed None now ;;
    match updated with
    | None => ret not_found
    | Some _ =>
        remaining <- Store.getPendingArtifacts DEMO_USER_ID ;;
        let n := List.length remaining in
        ret {| structuredContent :=
                 Some (Js.JObject
                   [("completed", Js.JBool true);
                    ("remainingCount", Js.number_of_nat n)]);
               content :=
                 text (if (0 <? n)%nat
                       then "Done! " ++ Js.string_of_nat n ++ " more episode"
                              ++ (if (1 <? n)%nat then "s" else EmptyString)
                              ++ " to go."
                       else "All done! Your queue is clear.");
               meta := None |}
    end
  else if String.eqb name "add_to_queue" then
    let artifact :=
      add_to_queue_artifact (arg_type args) (arg_content args) now uuid in
    _ <- Store.saveArtifact artifact ;;
    ret {| structuredContent :=
             Some (Js.JObject
               [("added", Js.JBool true);
                ("id", Js.JString (id artifact));
                ("title", Js.JString (title artifact));
                ("type", Js.JString (type_name (type artifact)))]);
           content :=
             text ("Saved " ++ Js.dquote ++ title artifact ++ Js.dquote
                     ++ " for later.");
           meta := None |}
  else
    ret {| structuredContent :=
             Some (Js.JObject [("error", Js.JString ("Unknown tool: " ++ name))]);
           content := text ("Unknown tool: " ++ name);
           meta := None |}.

Definition json_of_option (o : option Js.json) : Js.json :=
  match o with
  | Some j => j
  | None => Js.JUndefined
  end.

Definition json_of_result (r : ToolResult) : Js.json :=
  Js.JObject
    [("structuredContent", json_of_option (structuredContent r));
     ("content",
      Js.JArray
        (map (fun c => Js.JObject [("type", Js.JString (item_type c));
                                   ("text", Js.JString (item_text c))])
             (content r)));
     ("_meta", json_of_option (meta r))].

(** [POST] on a request whose [method] is ['tools/call']: [rpc_id] is
    the request's [id], [name] and [args] are [params.name] and
    [params.arguments]. *)
Definition POST_tools_call (rpc_id : Js.json) (name : string) (args : Args)
    (baseUrl : string) (now : Js.Date) (uuid : string) : Promise HttpResponse :=
  try_catch
    (result <- handleToolCall name args baseUrl now uuid ;;
     ret {| http_status := 200;
            http_body :=
              Js.JObject
                [("jsonrpc", Js.JString "2.0");
                 ("id", rpc_id);
                 ("result", json_of_result result)];
            http_headers := corsHeaders |})
    (fun _ =>
       ret {| http_status := 200;
              http_body :=
                Js.JObject
                  [("jsonrpc", Js.JString "2.0");
                   ("id", Js.JNull);
                   ("error",
                    Js.JObject
                      [("code", Js.JNumber (-32603)%Z);
                       ("message", Js.JString "Internal error")])];
              http_headers := corsHeaders |}).

End Mcp.

(* ================================================================= *)
(** ** Vocabulary of the statements *)

(** A string the code takes for a URL. *)
Definition url_shaped (s : string) : bool :=
  Js.startsWith "http://" s || Js.startsWith "https://" s.

Definition is_digit (c : ascii) : bool :=
  let n := nat_of_ascii c in ((48 <=? n)%nat && (n <=? 57)%nat)%bool.

Definition is_hyphen (c : ascii) : bool := Ascii.eqb c "-".

(** A day bucket: [YYYY-MM-DD]. *)
Definition isDayBucket (s : string) : bool :=
  match list_ascii_of_string s with
  | [y1; y2; y3; y4; h1; m1; m2; h2; d1; d2] =>
      is_digit y1 && is_digit y2 && is_digit y3 && is_digit y4
      && is_hyphen h1 && is_digit m1 && is_digit m2
      && is_hyphen h2 && is_digit d1 && is_digit d2
  | _ => false
  end.

(** The number of artifacts of a list in a given status. *)
Definition count_status (s : ArtifactStatus) (l : list Artifact) : nat :=
  List.length (filter (fun a => status_eqb (status a) s) l).

(** The artifacts of a list captured on a given day. *)
Definition of_day (d : string) (l : list Artifact) : list Artifact :=
  filter (fun a => String.eqb (dayBucket a) d) l.

(** What an optional patch supplies for a property. *)
Definition supplied {A : Type} (f : PartialArtifact -> option A)
    (patch : option PartialArtifact) : option A :=
  match patch with
  | Some p => f p
  | None => None
  end.

(** Descending code-unit order of day groups. *)
Definition date_geb (g1 g2 : DayGroup) : Prop :=
  String.compare (date g1) (date g2) <> Lt.

(** The row of an identifier is in the table. *)
Definition present (id : string) (w : World) : Prop :=
  exists r, In r (table w) /\ Row.id r = id.

(** The store answers the next [n] round trips. *)
Fixpoint healthy (n : nat) (fs : list (option PostgrestError)) : Prop :=
  match n with
  | 0 => True
  | S n' => hd None fs = None /\ healthy n' (tl fs)
  end.

(** The groups of the first loop of [getDayGroups] after the artifacts
    [done]: one entry per day met, holding that day's artifacts in order. *)
Definition grouped (done : list Artifact) (g : Store.Groups) : Prop :=
  NoDup (map fst g)
  /\ (forall d arts, In (d, arts) g -> arts = of_day d done)
  /\ (forall a, In a done -> In (dayBucket a) (map fst g))
  /\ (forall d, In d (map fst g) -> exists a, In a done /\ dayBucket a = d).

(** The world after a round trip that left the table alone. *)
Definition advance (w : World) : World :=
  {| table := table w; faults := tl (faults w);
     completions := completions w |}.

(** The rows of an identifier. *)
Definition rows_of (id : string) (w : World) : list Row.t :=
  filter (Supabase.matching [Supabase.eq_id id]) (table w).

(** The table after the update of the rows of [id]. *)
Definition updated_table (id : string) (u : Updates.t) (rows : list Row.t)
  : list Row.t :=
  map (fun r => if Supabase.matching [Supabase.eq_id id] r
                then Updates.apply u r else r) rows.

(** [b] keeps the stamps [a] carries. *)
Definition stamps_kept (a b : Artifact) : Prop :=
  (Js.truthy (playedAt a) = true -> playedAt b = playedAt a)
  /\ (Js.truthy (completedAt a) = true -> completedAt b = completedAt a).

(** [b] has the fields of [a] that no status update touches. *)
Definition same_identity (a b : Artifact) : Prop :=
  id b = id a /\ userId b = userId a /\ type b = type a
  /\ rawContent b = rawContent a /\ sourceUrl b = sourceUrl a
  /\ imageData b = imageData a /\ createdAt b = createdAt a
  /\ dayBucket b = dayBucket a.

(** [b] has the patchable fields of [a] that [patch] does not supply. *)
Definition unpatched_kept (patch : option PartialArtifact) (a b : Artifact)
  : Prop :=
  (supplied p_summary patch = None -> summary b = summary a)
  /\ (supplied p_fullAudioText patch = None
      -> fullAudioText b = fullAudioText a)
  /\ (supplied p_title patch = None -> title b = title a)
  /\ (supplied p_tags patch = None -> tags b = tags a).

(** [title] is [content] cut to its first 100 characters, with an
    ellipsis when something was cut. *)
Definition truncated_title (content title : string) : Prop :=
  (String.length content <= 100 -> title = content)
  /\ (100 < String.length content ->
      exists first rest,
        content = first ++ rest /\ String.length first = 100
        /\ title = first ++ "...").

(** The date of [now], as YYYY-MM-DD. *)
Definition ymd (now : Js.Date) : string :=
  Js.pad 4 (Js.year now) ++ "-" ++ Js.pad 2 (Js.month now) ++ "-"
    ++ Js.pad 2 (Js.day now).

(** [resp.body.result.structuredContent.error]. *)
Definition structured_error (resp : HttpResponse) : option Js.json :=
  match Js.get "result" (http_body resp) with
  | Some result =>
      match Js.get "structuredContent" result with
      | Some sc => Js.get "error" sc
      | None => None
      end
  | None => None
  end.

(** [b] has the stamp of [a] that a move to [st] cannot set. *)
Definition unstamped_kept (st : ArtifactStatus) (a b : Artifact) : Prop :=
  (st <> playing -> playedAt b = playedAt a)
  /\ (st <> completed -> completedAt b = completedAt a).

(** No character of [s] is [c]. *)
Fixpoint lacks (c : ascii) (s : string) : bool :=
  match s with
  | EmptyString => true
  | String x s' => negb (Ascii.eqb x c) && lacks c s'
  end.

(** Sample data. *)
Module Sample.

Definition jan2 : Js.Date :=
  {| Js.year := 2024; Js.month := 1; Js.day := 2; Js.hours := 3;
     Js.minutes := 4; Js.seconds := 5; Js.milliseconds := 6 |}.

Definition jan3 : Js.Date :=
  {| Js.year := 2024; Js.month := 1; Js.day := 3; Js.hours := 9;
     Js.minutes := 30; Js.seconds := 0; Js.milliseconds := 0 |}.

Definition row (id day created : string) (st : ArtifactStatus)
    (played : option string) : Row.t :=
  {| Row.id := id; Row.user_id := DEMO_USER_ID; Row.type := idea;
     Row.title := "Buy milk"; Row.raw_content := "Buy milk";
     Row.summary := None; Row.full_audio_text := None;
     Row.source_url := None; Row.image_data := None;
     Row.status := st; Row.created_at := created;
     Row.played_at := played; Row.completed_at := None;
     Row.tags := []; Row.day_bucket := day |}.

Definition rows : list Row.t :=
  [row "a" "2024-01-01" "2024-01-01T08:00:00.000Z" ready None;
   row "b" "2024-01-02" "2024-01-02T08:00:00.000Z" pending None;
   row "c" "2024-01-01" "2024-01-01T09:00:00.000Z" playing
     (Some "2024-01-01T10:00:00.000Z")].

Definition world : World :=
  {| table := rows; faults := []; completions := [] |}.

Definition empty_world : World :=
  {| table := []; faults := []; completions := [] |}.

Definition outage : PostgrestError :=
  {| message := "fetch failed"; isError := true |}.

Definition args (episode_id : string) : Mcp.Args :=
  {| Mcp.arg_status := None; Mcp.arg_episode_id := episode_id;
     Mcp.arg_mode := None; Mcp.arg_type := idea; Mcp.arg_content := EmptyString |}.

Definition input (t : ArtifactType) (content : string)
    (url image : option string) : CreateArtifactInput :=
  {| in_type := t; in_content := content; in_title := None;
     in_sourceUrl := url; in_imageData := image; in_tags := None |}.

(** A content of [n] characters. *)
Fixpoint xs (n : nat) : string :=
  match n with
  | 0 => EmptyString
  | S n' => String "x" (xs n')
  end.

Definition far_future : Js.Date :=
  {| Js.year := 12024; Js.month := 11; Js.day := 30; Js.hours := 23;
     Js.minutes := 59; Js.seconds := 59; Js.milliseconds := 999 |}.

(** Code-unit order, as a collation. *)
Definition codeUnitCompare (a b : string) : Z :=
  Supabase.sign (String.compare a b).

End Sample.

(* ================================================================= *)
(** ** More vocabulary *)

(** The identifiers of a table are distinct: [id] is its key. *)
Definition unique_ids (rows : list Row.t) : Prop :=
  NoDup (map Row.id rows).

(** The table after the upsert of [row]. *)
Definition upserted (row : Row.t) (rows : list Row.t) : list Row.t :=
  match Supabase.replace_by_id row rows with
  | Some rows' => rows'
  | None => (rows ++ [row])%list
  end.

(** The table after the deletion of the rows of [id]. *)
Definition deleted (id : string) (rows : list Row.t) : list Row.t :=
  filter (fun r => negb (Supabase.matching [Supabase.eq_id id] r)) rows.

(** [a] was created no earlier than [b], in code-unit order of the
    timestamps. *)
Definition created_geb (a b : Artifact) : Prop :=
  String.compare (createdAt a) (createdAt b) <> Lt.

(** The world after a round trip that left the table as [t]. *)
Definition written (t : list Row.t) (w : World) : World :=
  {| table := t; faults := tl (faults w); completions := completions w |}.

(** The filter of [getArtifactsByDay] and of [getArtifactsByStatus], on
    a row. *)
Definition row_of_day (user day : string) (r : Row.t) : bool :=
  String.eqb (Row.user_id r) user && String.eqb (Row.day_bucket r) day.

Definition row_in_status (user : string) (st : ArtifactStatus) (r : Row.t)
  : bool :=
  String.eqb (Row.user_id r) user && status_eqb (Row.status r) st.

Definition row_of_user (user : string) (r : Row.t) : bool :=
  String.eqb (Row.user_id r) user.

(** The rows of a user were created at distinct times. *)
Definition distinct_times (user : string) (rows : list Row.t) : Prop :=
  NoDup (map Row.created_at (filter (row_of_user user) rows)).

(** The artifacts of a list in a given status. *)
Definition in_status (st : ArtifactStatus) (l : list Artifact) : list Artifact :=
  filter (fun a => status_eqb (status a) st) l.

(** The number of artifacts held by the groups of [getDayGroups]. *)
Definition group_sizes (g : Store.Groups) : nat :=
  list_sum (map (fun entry => List.length (snd entry)) g).

(** [result.structuredContent.k] of a tool result. *)
Definition result_field (k : string) (res : Mcp.ToolResult) : option Js.json :=
  match Mcp.structuredContent res with
  | Some sc => Js.get k sc
  | None => None
  end.

(** The number of rows of the demo user in a status. *)
Definition queued (st : ArtifactStatus) (rows : list Row.t) : nat :=
  List.length (filter (row_in_status DEMO_USER_ID st) rows).

(** The text [get_episode_content] returns for an artifact and the
    content chosen for it. *)
Definition episode_text (a : Artifact) (contentText : string) : string :=
  "**" ++ Js.toUpperCase (type_name (type a)) ++ ": " ++ title a ++ "**"
    ++ Js.nl ++ Js.nl ++ contentText ++ Js.nl ++ Js.nl ++ "---" ++ Js.nl
    ++ "*Say " ++ Js.dquote ++ "next" ++ Js.dquote ++ " to continue, "
    ++ Js.dquote ++ "more detail" ++ Js.dquote
    ++ " for full version, or ask me anything about this.*".

(** The table after [get_episode_content] or [mark_episode_complete]
    moved the row [r] of [id] to [st] at [now]. *)
Definition moved (id : string) (st : ArtifactStatus) (now : Js.Date)
    (r : Row.t) (rows : list Row.t) : list Row.t :=
  updated_table id (Store.status_updates (Store.rowToArtifact r) st None now)
    rows.

(** The first and the last character of a string. *)
Definition first_char (s : string) : option ascii :=
  match s with
  | EmptyString => None
  | String c _ => Some c
  end.

Fixpoint last_char (s : string) : option ascii :=
  match s with
  | EmptyString => None
  | String c s' =>
      match last_char s' with
      | Some d => Some d
      | None => Some c
      end
  end.

(* ================================================================= *)
(** ** More of the route handlers *)

(** [GET] of [app/api/artifacts/route.ts]. *)
Module ArtifactsIndex.

Definition json_of_dayGroup (g : DayGroup) : Js.json :=
  Js.JObject
    [("date", Js.JString (date g));
     ("artifacts", Js.JArray (map json_of_artifact (artifacts g)));
     ("stats",
      Js.JObject
        [("total", Js.number_of_nat (total (stats g)));
         ("pending", Js.number_of_nat (pending_count (stats g)));
         ("ready", Js.number_of_nat (ready_count (stats g)));
         ("completed", Js.number_of_nat (completed_count (stats g)))])].

(** The body [{ artifacts, dayGroups }]. *)
Definition listing_body (artifacts : list Artifact) (dayGroups : list DayGroup)
  : Js.json :=
  Js.JObject
    [("artifacts", Js.JArray (map json_of_artifact artifacts));
     ("dayGroups", Js.JArray (map json_of_dayGroup dayGroups))].

Section Collation.
Variable localeCompare : string -> string -> Z.

Definition GET : Promise HttpResponse :=
  try_catch
    (artifacts <- Store.getAllArtifacts DEMO_USER_ID ;;
     dayGroups <- Store.getDayGroups localeCompare DEMO_USER_ID ;;
     ret {| http_status := 200;
            http_body := listing_body artifacts dayGroups;
            http_headers := ArtifactsRoute.corsHeaders |})
    (fun _ =>
       ret {| http_status := 500;
              http_body :=
                Js.JObject [("error", Js.JString "Failed to fetch artifacts")];
              http_headers := ArtifactsRoute.corsHeaders |}).
End Collation.

End ArtifactsIndex.

(** [app/api/tts/route.ts] *)
Module TtsRoute.

(** What the route answers: the audio with its headers, or JSON. *)
Inductive Response :=
| Audio (bytes : list Byte.byte) (headers : list (string * string))
| Json (status : nat) (body : Js.json).

Section Speech.
(** [generateTTS] of [lib/openai.ts]: the call to the speech service,
    which returns the audio or rejects. *)
Variable generateTTS : string -> Promise (list Byte.byte).

(** The body of the request: [{ artifactId, mode = 'summary' }]. *)
Definition POST (artifactId mode : option string) : Promise Response :=
  try_catch
    (let mode := match mode with Some m => m | None => "summary" end in
     if negb (Js.truthy artifactId)
     then ret (Json 400
                 (Js.JObject [("error", Js.JString "Artifact ID is required")]))
     else
       artifact <- Store.getArtifact (Js.or_else artifactId EmptyString) ;;
       match artifact with
       | None =>
           ret (Json 404
                  (Js.JObject [("error", Js.JString "Artifact not found")]))
       | Some artifact =>
           textToSpeak <-
             (if String.eqb mode "full"
              then OpenAI.expandForAudio (rawContent artifact)
                     (type_name (type artifact))
              else ret (Js.or_else (summary artifact) (title artifact))) ;;
           audioBuffer <- generateTTS textToSpeak ;;
           ret (Audio audioBuffer
                  [("Content-Type", "audio/mpeg");
                   ("Content-Length",
                    Js.string_of_nat (List.length audioBuffer))])
       end)
    (fun error =>
       ret (Json 500
              (Js.JObject
                 [("error", Js.JString "Failed to generate audio");
                  ("details", Js.JString (error_message error))]))).
End Speech.

End TtsRoute.

(* ================================================================= *)
(** ** The clients of [POST /api/artifacts] *)

(** [String.prototype.trim], on the white space of the code units up to
    255. *)
Module JsTrim.

Definition isWhiteSpace (c : ascii) : bool :=
  let n := nat_of_ascii c in
  ((9 <=? n)%nat && (n <=? 13)%nat) || (n =? 32)%nat || (n =? 160)%nat.

Fixpoint trimStart (s : string) : string :=
  match s with
  | EmptyString => EmptyString
  | String c s' => if isWhiteSpace c then trimStart s' else s
  end.

Fixpoint trimEnd (s : string) : string :=
  match s with
  | EmptyString => EmptyString
  | String c s' =>
      match trimEnd s' with
      | EmptyString => if isWhiteSpace c then EmptyString
                       else String c EmptyString
      | t => String c t
      end
  end.

Definition trim (s : string) : string := trimEnd (trimStart s).

End JsTrim.

(** [components/ArtifactInput.tsx]: the web form. *)
Module ArtifactInput.

(** The body [handleSubmit] posts, or [None] when it returns without a
    request.  [dom_value] is [inputRef.current?.value], [content] and
    [artifactType] are the state of the form. *)
Definition handleSubmit (dom_value : option string) (content : string)
    (artifactType : ArtifactType) (isSubmitting : bool)
  : option CreateArtifactInput :=
  let inputValue := Js.or_else dom_value content in
  if isSubmitting || negb (Js.truthy (Some (JsTrim.trim inputValue)))
  then None
  else
    let isUrl :=
      Js.startsWith "http://" inputValue
      || Js.startsWith "https://" inputValue in
    Some {| in_type := if isUrl then article else artifactType;
            in_content := JsTrim.trim inputValue;
            in_title := None;
            in_sourceUrl := if isUrl then Some (JsTrim.trim inputValue)
                            else None;
            in_imageData := None;
            in_tags := None |}.

End ArtifactInput.

(** The popup of the browser extension. *)
Module Popup.

(** [chrome.tabs.Tab], by the two properties read. *)
Record Tab := {
  url : option string;
  tab_title : option string
}.

(** The body the save button posts, or [None] when it gives up for want
    of a page URL.  [noteValue] is the value of the note input. *)
Definition save (currentTab : option Tab) (noteValue : string)
    (selectedType : ArtifactType) : option CreateArtifactInput :=
  match currentTab with
  | None => None
  | Some tab =>
      if negb (Js.truthy (url tab)) then None
      else
        let note := JsTrim.trim noteValue in
        let tabUrl := Js.or_else (url tab) EmptyString in
        let content :=
          Js.or_else (Some note) (Js.or_else (tab_title tab) tabUrl) in
        Some {| in_type := selectedType;
                in_content := content;
                in_title := None;
                in_sourceUrl := url tab;
                in_imageData := None;
                in_tags := None |}
  end.

End Popup.

(** The script of the widget that [getWidgetHtml] serves. *)
Module Widget.

(** What a click on the submit button sends. *)
Inductive Action :=
| CallTool (type : ArtifactType) (content : string)
| PostArtifact (body : CreateArtifactInput)
| Nothing.

(** [value] is the text area's value, [hasCallTool] whether
    [window.openai?.callTool] is there. *)
Definition submit (value : string) (selectedType : ArtifactType)
    (hasCallTool : bool) (API_BASE : string) : Action :=
  let content := JsTrim.trim value in
  if negb (Js.truthy (Some content)) then Nothing
  else
    let isUrl :=
      Js.startsWith "http://" content || Js.startsWith "https://" content in
    let typeToAdd := if isUrl then article else selectedType in
    if hasCallTool then CallTool typeToAdd content
    else if Js.truthy (Some API_BASE)
    then PostArtifact
           {| in_type := typeToAdd;
              in_content := if isUrl then EmptyString else content;
              in_title := None;
              in_sourceUrl := if isUrl then Some content else None;
              in_imageData := None;
              in_tags := None |}
    else Nothing.

(** The episodes [loadEpisodes] keeps of a listing. *)
Definition playable (artifacts : list Artifact) : list Artifact :=
  filter (fun a => status_eqb (status a) ready || status_eqb (status a) pending)
    artifacts.

End Widget.

(** [components/InboxList.tsx] *)
Module InboxList.

(** The title as the list shows it. *)
Definition shown_title (title : string) : string :=
  if (80 <? String.length title)%nat then Js.slice0 80 title ++ "..."
  else title.

End InboxList.

(** A string that neither starts nor ends with white space. *)
Definition trimmed (s : string) : Prop :=
  (forall c, first_char s = Some c -> JsTrim.isWhiteSpace c = false)
  /\ (forall c, last_char s = Some c -> JsTrim.isWhiteSpace c = false).

(** The drive page: the player of the queue.  The state is the one the
    handlers below read and write; [audio] is the [src] of the audio
    element, [None] while [audioRef.current] is null. *)
Module DrivePage.

Record State := {
  episodes : list Artifact;
  currentIndex : nat;
  isPlaying : bool;
  progress : Z;
  audio : option string
}.

(** The arguments of a call to [fetch]; [req_body] is the value handed
    to [JSON.stringify]. *)
Record Request := {
  req_url : string;
  req_method : string;
  req_headers : list (string * string);
  req_body : Js.json
}.

(** The body [{ status: 'completed' }] leaves no other field. *)
Definition no_fields : PartialArtifact :=
  {| p_id := None; p_userId := None; p_type := None; p_title := None;
     p_rawContent := None; p_summary := None; p_fullAudioText := None;
     p_sourceUrl := None; p_imageData := None; p_status := None;
     p_createdAt := None; p_playedAt := None; p_completedAt := None;
     p_tags := None; p_dayBucket := None |}.

(** [episodes[currentIndex]]. *)
Definition currentEpisode (s : State) : option Artifact :=
  nth_error (episodes s) (currentIndex s).

(** The state after a move to the index [i]. *)
Definition moveTo (i : nat) (s : State) : State :=
  {| episodes := episodes s;
     currentIndex := i;
     isPlaying := false;
     progress := 0%Z;
     audio := match audio s with
              | Some _ => Some EmptyString
              | None => None
              end |}.

(** The request by which [handleNext] completes an episode. *)
Definition complete_request (episode : Artifact) : Request :=
  {| req_url := "/api/artifacts/" ++ id episode;
     req_method := "PATCH";
     req_headers := [("Content-Type", "application/json")];
     req_body := Js.JObject [("status", Js.JString "completed")] |}.

Definition handlePrevious (s : State) : State :=
  if (0 <? currentIndex s)%nat then moveTo (currentIndex s - 1) s else s.

Definition setIsPlaying (b : bool) (s : State) : State :=
  {| episodes := episodes s; currentIndex := currentIndex s;
     isPlaying := b; progress := progress s; audio := audio s |}.

Section Transport.
(** The browser's [fetch]: it fulfils with the response, whatever its
    status, or rejects when the request cannot be made. *)
Variable fetch : Request -> Promise HttpResponse.

(** The response is not looked at, and the [await] is in no [try]. *)
Definition handleNext (s : State) : Promise State :=
  _ <- match currentEpisode s with
       | Some episode =>
           _ <- fetch (complete_request episode) ;;
           ret tt
       | None => ret tt
       end ;;
  if (currentIndex s <? List.length (episodes s) - 1)%nat
  then ret (moveTo (currentIndex s + 1) s)
  else ret s.

(** [handleEnded] returns at once, [isPlaying] set to false, and leaves
    the promise of [handleNext] behind, unawaited. *)
Definition handleEnded (s : State) : State * Promise State :=
  (setIsPlaying false s, handleNext (setIsPlaying false s)).

End Transport.

(** The index is on an episode, or the queue is empty and it is 0. *)
Definition in_queue (s : State) : Prop :=
  currentIndex s < List.length (episodes s)
  \/ (episodes s = [] /\ currentIndex s = 0).

End DrivePage.

(* ================================================================= *)
(** ** Strings and dates *)

Section StringFacts.

Lemma substring_all (s : string) (n : nat) :
  String.length s <= n -> substring 0 n s = s.
Proof.
  revert n; induction s as [|c s IH]; intros [|n] H; simpl in *;
    try reflexivity; try lia.
  f_equal. apply IH. lia.
Qed.

Lemma substring_prefix (s : string) (n : nat) :
  n <= String.length s ->
  exists rest, s = substring 0 n s ++ rest
               /\ String.length (substring 0 n s) = n.
Proof.
  revert n; induction s as [|c s IH]; intros [|n] H; simpl in *.
  - exists EmptyString. split; reflexivity.
  - lia.
  - exists (String c s). split; reflexivity.
  - destruct (IH n) as [rest [E L]]; [lia|].
    exists rest. split; [rewrite <- E; reflexivity | now rewrite L].
Qed.

Lemma lacks_app (c : ascii) (a b : string) :
  lacks c (a ++ b) = lacks c a && lacks c b.
Proof.
  induction a as [|x a IH]; simpl; [reflexivity|].
  now rewrite IH, andb_assoc.
Qed.

Lemma split_head (c : ascii) (a b : string) :
  lacks c a = true ->
  hd EmptyString (Js.split c (a ++ String c b)) = a.
Proof.
  induction a as [|x a IH]; simpl; intros H.
  - now rewrite Ascii.eqb_refl.
  - apply andb_true_iff in H as [Hx Ha].
    apply negb_true_iff in Hx. rewrite Hx.
    specialize (IH Ha).
    destruct (Js.split c (a ++ String c b)) as [|h t]; simpl in *.
    + now subst a.
    + now subst h.
Qed.

Lemma digit_cases (k : N) :
  In (Js.digit k) ["0"; "1"; "2"; "3"; "4"; "5"; "6"; "7"; "8"; "9"]%char.
Proof.
  unfold Js.digit.
  destruct k as [|p]; [simpl; tauto|].
  do 4 (destruct p as [p|p|]; try (simpl; tauto)).
Qed.

Lemma digit_is_digit (k : N) : is_digit (Js.digit k) = true.
Proof.
  pose proof (digit_cases k) as H. simpl in H.
  repeat (destruct H as [<-|H]; [reflexivity|]). contradiction.
Qed.

Lemma digit_not_T (k : N) : Ascii.eqb (Js.digit k) "T" = false.
Proof.
  pose proof (digit_cases k) as H. simpl in H.
  repeat (destruct H as [<-|H]; [reflexivity|]). contradiction.
Qed.

Lemma pad_lacks_T (w : nat) (n : N) : lacks "T" (Js.pad w n) = true.
Proof.
  revert n; induction w as [|w IH]; intros n; simpl; [reflexivity|].
  rewrite lacks_app, IH. simpl. now rewrite digit_not_T.
Qed.

Lemma isoDate_lacks_T (d : Js.Date) : lacks "T" (Js.isoDate d) = true.
Proof.
  unfold Js.isoDate.
  destruct (Js.year d <=? 9999)%N;
    repeat (rewrite lacks_app || rewrite pad_lacks_T || simpl);
    reflexivity.
Qed.

Lemma dayBucket_of_now (d : Js.Date) :
  hd EmptyString (Js.split "T" (Js.toISOString d)) = Js.isoDate d.
Proof.
  unfold Js.toISOString. apply split_head, isoDate_lacks_T.
Qed.

Lemma toISOString_truthy (d : Js.Date) :
  Js.truthy (Some (Js.toISOString d)) = true.
Proof.
  unfold Js.toISOString.
  destruct (Js.isoDate d); reflexivity.
Qed.

Lemma isoDate_isDayBucket (d : Js.Date) :
  (Js.year d <= 9999)%N -> isDayBucket (Js.isoDate d) = true.
Proof.
  intros H. unfold Js.isoDate.
  apply N.leb_le in H. rewrite H.
  unfold isDayBucket. cbn -[Js.digit N.div N.modulo].
  now rewrite !digit_is_digit.
Qed.

Example toISOString_jan2 :
  Js.toISOString Sample.jan2 = "2024-01-02T03:04:05.006Z".
Proof. reflexivity. Qed.

Example toISOString_far_future :
  Js.toISOString Sample.far_future = "+012024-11-30T23:59:59.999Z".
Proof. reflexivity. Qed.

Example split_jan2 :
  Js.split "T" (Js.toISOString Sample.jan2) = ["2024-01-02"; "03:04:05.006Z"].
Proof. reflexivity. Qed.

Example far_future_is_no_day_bucket :
  isDayBucket (Js.isoDate Sample.far_future) = false.
Proof. reflexivity. Qed.

End StringFacts.

(* ================================================================= *)
(** ** Sorting *)

Section SortFacts.
Context {A : Type} (cmp : A -> A -> Z).

Lemma insert_perm (x : A) (l : list A) :
  Permutation (Js.insert cmp x l) (x :: l).
Proof.
  induction l as [|y t IH]; simpl; [reflexivity|].
  destruct (cmp x y <=? 0)%Z; [reflexivity|].
  rewrite IH. apply perm_swap.
Qed.

Lemma sort_perm (l : list A) : Permutation (Js.sort cmp l) l.
Proof.
  induction l as [|x t IH]; simpl; [reflexivity|].
  rewrite insert_perm. now constructor.
Qed.

Lemma in_sort (x : A) (l : list A) : In x (Js.sort cmp l) <-> In x l.
Proof.
  split; apply Permutation_in; [|symmetry]; apply sort_perm.
Qed.

(** Sortedness, for a comparator that decides a relation [R] on the
    elements that satisfy [P]. *)
Section Sortedness.
Variables (P : A -> Prop) (R : A -> A -> Prop).
Hypothesis before : forall x y, P x -> P y -> (cmp x y <= 0)%Z -> R x y.
Hypothesis after : forall x y, P x -> P y -> (0 < cmp x y)%Z -> R y x.

Lemma insert_hd (x y : A) (l : list A) :
  R y x -> HdRel R y l -> HdRel R y (Js.insert cmp x l).
Proof.
  intros Hyx Hl. destruct l as [|z t]; simpl.
  - now constructor.
  - destruct (cmp x z <=? 0)%Z; constructor; trivial.
    now inversion Hl.
Qed.

Lemma insert_sorted (x : A) (l : list A) :
  P x -> Forall P l -> Sorted R l -> Sorted R (Js.insert cmp x l).
Proof.
  intros Px Pl Sl. induction Sl as [|y t St IH Hy]; simpl.
  - repeat constructor.
  - inversion Pl as [|? ? Py Pt]; subst.
    destruct (cmp x y <=? 0)%Z eqn:E.
    + apply Z.leb_le in E. repeat constructor; auto.
    + apply Z.leb_gt in E. constructor; auto.
      apply insert_hd; auto.
Qed.

Lemma sort_sorted (l : list A) : Forall P l -> Sorted R (Js.sort cmp l).
Proof.
  induction 1 as [|x t Px Pt IH]; simpl; [constructor|].
  apply insert_sorted; [exact Px | | exact IH].
  apply Forall_forall. intros y Hy.
  apply (proj1 (in_sort y t)) in Hy. rewrite Forall_forall in Pt. auto.
Qed.
End Sortedness.

End SortFacts.

(** Code-unit order on strings. *)
Section StringOrder.

Lemma ascii_compare_N (a b : ascii) :
  Ascii.compare a b = N.compare (N_of_ascii a) (N_of_ascii b).
Proof. reflexivity. Qed.

Lemma string_compare_refl (s : string) : String.compare s s = Eq.
Proof.
  induction s as [|c s IH]; simpl; [reflexivity|].
  now rewrite ascii_compare_N, N.compare_refl.
Qed.

Lemma string_ge_trans (a b c : string) :
  String.compare a b <> Lt -> String.compare b c <> Lt ->
  String.compare a c <> Lt.
Proof.
  revert b c; induction a as [|x a IH]; intros [|y b] [|z c]; simpl;
    try congruence.
  rewrite !ascii_compare_N.
  destruct (N.compare_spec (N_of_ascii x) (N_of_ascii y)) as [E1|L1|G1];
    destruct (N.compare_spec (N_of_ascii y) (N_of_ascii z)) as [E2|L2|G2];
    try congruence; intros H1 H2.
  - rewrite E1, E2, N.compare_refl. eauto.
  - rewrite E1. apply N.compare_gt_iff in G2. now rewrite G2.
  - rewrite <- E2. apply N.compare_gt_iff in G1. now rewrite G1.
  - assert (G : (N_of_ascii z < N_of_ascii x)%N) by lia.
    apply N.compare_gt_iff in G. now rewrite G.
Qed.

End StringOrder.

(* ================================================================= *)
(** ** Day grouping *)

Section Grouping.
Import Store.

Lemma Map_get_Some (k : string) (g : Groups) (l : list Artifact) :
  Map_get k g = Some l -> In (k, l) g.
Proof.
  induction g as [|[k' v] g IH]; simpl; [discriminate|].
  destruct (String.eqb_spec k' k) as [->|N].
  - intros [= ->]. now left.
  - intros H. right. auto.
Qed.

Lemma Map_get_None (k : string) (g : Groups) :
  Map_get k g = None -> ~ In k (map fst g).
Proof.
  induction g as [|[k' v] g IH]; simpl; [tauto|].
  destruct (String.eqb_spec k' k) as [->|N]; [discriminate|].
  intros H [E|I]; [congruence|]. now apply IH.
Qed.

Lemma Map_set_new (k : string) (v : list Artifact) (g : Groups) :
  ~ In k (map fst g) -> Map_set k v g = (g ++ [(k, v)])%list.
Proof.
  induction g as [|[k' v'] g IH]; simpl; [reflexivity|].
  intros H. destruct (String.eqb_spec k' k) as [->|N]; [tauto|].
  f_equal. apply IH. tauto.
Qed.

Lemma Map_set_keys (k : string) (v : list Artifact) (g : Groups) :
  In k (map fst g) -> map fst (Map_set k v g) = map fst g.
Proof.
  induction g as [|[k' v'] g IH]; simpl; [tauto|].
  destruct (String.eqb_spec k' k) as [->|N]; [reflexivity|].
  intros [E|I]; [congruence|]. simpl. f_equal. auto.
Qed.

Lemma Map_set_in (k : string) (v : list Artifact) (g : Groups)
    (d : string) (arts : list Artifact) :
  NoDup (map fst g) ->
  In (d, arts) (Map_set k v g) ->
  (d = k /\ arts = v) \/ (d <> k /\ In (d, arts) g).
Proof.
  induction g as [|[k' v'] g IH]; simpl; intros ND H.
  - destruct H as [[= <- <-]|[]]. now left.
  - inversion ND as [|? ? Hk ND']; subst.
    destruct (String.eqb_spec k' k) as [->|N]; simpl in H.
    + destruct H as [[= <- <-]|I]; [now left|].
      right. split; [|now right].
      intros ->. apply Hk. now apply (in_map fst) in I.
    + destruct H as [[= <- <-]|I]; [right; split; [exact N | now left]|].
      destruct (IH ND' I) as [L|[R1 R2]]; [now left|].
      right. split; [exact R1 | now right].
Qed.

Lemma of_day_snoc (d : string) (done : list Artifact) (a : Artifact) :
  of_day d (done ++ [a])
  = (of_day d done ++ (if String.eqb (dayBucket a) d then [a] else []))%list.
Proof. unfold of_day. now rewrite filter_app. Qed.

Lemma of_day_none (d : string) (l : list Artifact) :
  (forall a, In a l -> dayBucket a <> d) -> of_day d l = [].
Proof.
  induction l as [|a l IH]; simpl; intros H; [reflexivity|].
  destruct (String.eqb_spec (dayBucket a) d) as [E|N].
  - exfalso. apply (H a); auto.
  - apply IH. intros b Hb. apply H. now right.
Qed.

Lemma bucket_grouped (done : list Artifact) (g : Groups) (a : Artifact) :
  grouped done g -> grouped (done ++ [a]) (bucket g a).
Proof.
  intros (ND & Harts & Hkeys & Hfrom). unfold bucket.
  destruct (Map_get (dayBucket a) g) as [l|] eqn:G.
  - apply Map_get_Some in G.
    assert (K : In (dayBucket a) (map fst g))
      by (apply (in_map fst) in G; exact G).
    repeat split.
    + now rewrite Map_set_keys.
    + intros d arts I. rewrite of_day_snoc.
      apply Map_set_in in I as [[-> ->]|[N I]]; trivial.
      * rewrite String.eqb_refl. f_equal. auto.
      * destruct (String.eqb_spec (dayBucket a) d); [congruence|].
        rewrite app_nil_r. auto.
    + rewrite Map_set_keys by exact K.
      intros b Hb. apply in_app_or in Hb as [Hb|[<-|[]]]; auto.
    + rewrite Map_set_keys by exact K.
      intros d Hd. destruct (Hfrom d Hd) as (b & Hb & E).
      exists b. split; [apply in_or_app; now left | exact E].
  - apply Map_get_None in G. rewrite Map_set_new by exact G.
    repeat split.
    + rewrite map_app. simpl.
      apply NoDup_app_remove_l with (l := []). simpl.
      apply Permutation_NoDup with (l := dayBucket a :: map fst g).
      * apply Permutation_cons_append.
      * now constructor.
    + intros d arts I. rewrite of_day_snoc.
      apply in_app_or in I as [I|[[= <- <-]|[]]].
      * assert (N : dayBucket a <> d).
        { intros E. apply G. rewrite E.
          apply (in_map fst) in I. exact I. }
        destruct (String.eqb_spec (dayBucket a) d); [congruence|].
        rewrite app_nil_r. auto.
      * rewrite String.eqb_refl. simpl.
        rewrite of_day_none; [reflexivity|].
        intros b Hb E. apply G. rewrite <- E. auto.
    + rewrite map_app. simpl.
      intros b Hb. apply in_or_app.
      apply in_app_or in Hb as [Hb|[<-|[]]]; [left; auto | right; now left].
    + rewrite map_app. simpl.
      intros d Hd. apply in_app_or in Hd as [Hd|[<-|[]]].
      * destruct (Hfrom d Hd) as (b & Hb & E).
        exists b. split; [apply in_or_app; now left | exact E].
      * exists a. split; [apply in_or_app; right; now left | reflexivity].
Qed.

Lemma fold_bucket_grouped (l done : list Artifact) (g : Groups) :
  grouped done g -> grouped (done ++ l) (fold_left bucket l g).
Proof.
  revert done g; induction l as [|a l IH]; intros done g H; simpl.
  - now rewrite app_nil_r.
  - replace (done ++ a :: l)%list with ((done ++ [a]) ++ l)%list
      by (rewrite <- app_assoc; reflexivity).
    apply IH, bucket_grouped, H.
Qed.

Lemma groups_grouped (l : list Artifact) :
  grouped l (fold_left bucket l []).
Proof.
  apply (fold_bucket_grouped l [] []).
  repeat split; simpl; try tauto. constructor.
Qed.

Lemma count_pending_or_processing (l : list Artifact) :
  List.length
    (filter (fun a => status_eqb (status a) pending
                      || status_eqb (status a) processing) l)
  = count_status pending l + count_status processing l.
Proof.
  unfold count_status.
  induction l as [|a l IH]; simpl; [reflexivity|].
  destruct (status a); simpl; lia.
Qed.

Lemma count_all (l : list Artifact) :
  count_status pending l + count_status processing l + count_status ready l
    + count_status playing l + count_status completed l
  = List.length l.
Proof.
  unfold count_status.
  induction l as [|a l IH]; simpl; [reflexivity|].
  destruct (status a); simpl; lia.
Qed.

End Grouping.

(* ================================================================= *)
(** ** The store *)

Section StoreFacts.
Import Supabase Store.

Lemma request_fault {A} (run : list Row.t -> Response A * list Row.t)
    (w : World) (e : PostgrestError) (rest : list (option PostgrestError)) :
  faults w = Some e :: rest ->
  request run w
  = (Fulfilled {| data := None; error := Some e |}, advance w).
Proof. intros H. unfold request, advance. now rewrite H. Qed.

Lemma request_ok {A} (run : list Row.t -> Response A * list Row.t)
    (w : World) :
  hd None (faults w) = None ->
  request run w
  = (Fulfilled (fst (run (table w))),
     {| table := snd (run (table w)); faults := tl (faults w);
        completions := completions w |}).
Proof.
  intros H. unfold request.
  destruct (faults w) as [|[e|] rest]; simpl in *; try discriminate;
    now destruct (run (table w)).
Qed.

Lemma faults_cases (w : World) :
  hd None (faults w) = None
  \/ exists e rest, faults w = Some e :: rest.
Proof.
  destruct (faults w) as [|[e|] rest]; simpl; eauto.
Qed.

Lemma in_order (r : Row.t) (rows : list Row.t) :
  In r (order_created_at_desc rows) <-> In r rows.
Proof. apply in_sort. Qed.

(** A listing always fulfils, leaves the table alone, and returns
    artifacts of rows that pass the filters. *)
Lemma listing_total (fs : list Filter) (w : World) :
  exists l,
    (r <- select_ordered fs ;; ret (many r)) w = (Fulfilled l, advance w)
    /\ forall a, In a l ->
         exists r, In r (table w) /\ matching fs r = true
                   /\ a = rowToArtifact r.
Proof.
  unfold bind, select_ordered.
  destruct (faults_cases w) as [H|(e & rest & H)].
  - rewrite (request_ok _ w H). simpl.
    eexists. split; [reflexivity|].
    intros a Ha. apply in_map_iff in Ha as (r & <- & Hr).
    apply (proj1 (in_order _ _)) in Hr.
    apply filter_In in Hr as [Hr Hm]. eauto.
  - rewrite (request_fault _ w e rest H). simpl.
    exists []. split; [reflexivity | intros a []].
Qed.

Lemma single_cases (rows : list Row.t) :
  (exists r, rows = [r] /\ single rows = {| data := Some r; error := None |})
  \/ ((forall r, rows <> [r])
      /\ single rows = {| data := None; error := Some not_single |}).
Proof.
  destruct rows as [|r [|r' t]]; simpl; eauto;
    right; split; trivial; intros ?; discriminate.
Qed.

(** What [getArtifact] returns. *)
Lemma getArtifact_cases (id : string) (w : World) :
  (getArtifact id w = (Fulfilled None, advance w)
   /\ (hd None (faults w) = None -> forall r, rows_of id w <> [r]))
  \/ (exists r, rows_of id w = [r] /\ hd None (faults w) = None
                /\ getArtifact id w
                   = (Fulfilled (Some (rowToArtifact r)), advance w)).
Proof.
  unfold getArtifact, bind, select_single, rows_of.
  destruct (faults_cases w) as [H|(e & rest & H)].
  - rewrite (request_ok _ w H). simpl.
    destruct (single_cases (filter (matching [eq_id id]) (table w)))
      as [(r & E & S)|(N & S)]; rewrite S; simpl.
    + right. exists r. auto.
    + left. auto.
  - rewrite (request_fault _ w e rest H). simpl.
    left. split; [reflexivity|]. rewrite H. discriminate.
Qed.

(** What [updateArtifactStatus] does: nothing, or the update of the one
    row of [id], which [getArtifact] had returned. *)
Lemma updateArtifactStatus_cases (id : string) (st : ArtifactStatus)
    (patch : option PartialArtifact) (now : Js.Date) (w : World) :
  (fst (updateArtifactStatus id st patch now w) = Fulfilled None
   /\ table (snd (updateArtifactStatus id st patch now w)) = table w)
  \/ (exists r,
        let u := status_updates (rowToArtifact r) st patch now in
        rows_of id w = [r]
        /\ getArtifact id w = (Fulfilled (Some (rowToArtifact r)), advance w)
        /\ updateArtifactStatus id st patch now w
           = (Fulfilled (Some (rowToArtifact (Updates.apply u r))),
              {| table := updated_table id u (table w);
                 faults := tl (tl (faults w));
                 completions := completions w |})).
Proof.
  unfold updateArtifactStatus at 1 2 3. unfold bind at 1 3 5.
  destruct (getArtifact_cases id w) as [[G _]|(r & E & H & G)]; rewrite G.
  - left. split; reflexivity.
  - unfold bind, update_single.
    destruct (faults_cases (advance w)) as [H'|(e & rest & H')].
    + rewrite (request_ok _ _ H'). simpl.
      unfold rows_of in E. rewrite E. simpl.
      right. exists r. repeat split; trivial.
    + rewrite (request_fault _ _ e rest H'). simpl.
      left. split; reflexivity.
Qed.

Lemma updateArtifactStatus_found (id : string) (st : ArtifactStatus)
    (patch : option PartialArtifact) (now : Js.Date) (w : World)
    (r : Row.t) :
  healthy 2 (faults w) ->
  rows_of id w = [r] ->
  let u := status_updates (rowToArtifact r) st patch now in
  updateArtifactStatus id st patch now w
  = (Fulfilled (Some (rowToArtifact (Updates.apply u r))),
     {| table := updated_table id u (table w);
        faults := tl (tl (faults w));
        completions := completions w |}).
Proof.
  intros (H1 & H2 & _) E. simpl.
  unfold updateArtifactStatus, getArtifact, select_single, update_single, bind.
  rewrite (request_ok _ w H1). simpl.
  unfold rows_of in E. rewrite E. simpl.
  rewrite (request_ok _ (advance w) H2). simpl. rewrite E. reflexivity.
Qed.

End StoreFacts.

(* ================================================================= *)
(** ** Listings and day groups *)

Section Listings.
Import Supabase Store.

Lemma status_eqb_eq (a b : ArtifactStatus) : status_eqb a b = true <-> a = b.
Proof. destruct a, b; simpl; split; congruence. Qed.

Lemma getAllArtifacts_total (userId : string) (w : World) :
  exists l,
    getAllArtifacts userId w = (Fulfilled l, advance w)
    /\ forall a, In a l -> exists r, In r (table w) /\ a = rowToArtifact r.
Proof.
  destruct (listing_total [eq_user_id userId] w) as (l & E & H).
  exists l. split; [exact E|].
  intros a Ha. destruct (H a Ha) as (r & Hr & _ & Ea). eauto.
Qed.

Lemma dayGroup_fields (entry : string * list Artifact) :
  date (dayGroup entry) = fst entry
  /\ artifacts (dayGroup entry) = snd entry.
Proof. destruct entry. split; reflexivity. Qed.

Lemma getDayGroups_run (localeCompare : string -> string -> Z)
    (userId : string) (w : World) (l : list Artifact) :
  getAllArtifacts userId w = (Fulfilled l, advance w) ->
  getDayGroups localeCompare userId w
  = (Fulfilled (groupDays localeCompare l), advance w).
Proof.
  intros E. unfold getDayGroups, bind. now rewrite E.
Qed.

Lemma in_groupDays (localeCompare : string -> string -> Z)
    (l : list Artifact) (g : DayGroup) :
  In g (groupDays localeCompare l) ->
  exists entry, In entry (fold_left bucket l []) /\ g = dayGroup entry.
Proof.
  unfold groupDays. intros H.
  apply (proj1 (in_sort _ _ _)) in H.
  apply in_map_iff in H as (entry & <- & He). eauto.
Qed.

End Listings.

(** C3. For every user, [getPendingArtifacts] returns what
    [getArtifactsByStatus] returns for ['ready']: the two settle alike in
    every world, and the artifacts returned are that user's artifacts of
    status ['ready'] (none of status ['pending']). *)
Theorem getPendingArtifacts_filters_ready (user : string) (w : World) :
  Store.getPendingArtifacts user w = Store.getArtifactsByStatus user ready w
  /\ exists l,
       Store.getPendingArtifacts user w = (Fulfilled l, advance w)
       /\ Forall (fun a => status a = ready /\ userId a = user) l.
Proof.
  split; [reflexivity|].
  destruct (listing_total [Supabase.eq_user_id user; Supabase.eq_status ready] w)
    as (l & E & H).
  exists l. split; [exact E|].
  apply Forall_forall. intros a Ha.
  destruct (H a Ha) as (r & _ & M & ->). simpl in M.
  apply andb_true_iff in M as [Mu Ms].
  apply andb_true_iff in Ms as [Ms _].
  apply status_eqb_eq in Ms. apply String.eqb_eq in Mu.
  split; assumption.
Qed.

(** C4. For every user and every day group [getDayGroups] returns: the
    group holds the artifacts of that day among the user's artifacts,
    [stats.total] is their number, [stats.pending] counts the statuses
    ['pending'] and ['processing'], [stats.ready] counts ['ready'],
    [stats.completed] counts ['completed'], and pending + ready +
    completed + the number of ['playing'] artifacts is the total. *)
Theorem getDayGroups_stats (localeCompare : string -> string -> Z)
    (user : string) (w : World) :
  exists all gs,
    Store.getAllArtifacts user w = (Fulfilled all, advance w)
    /\ Store.getDayGroups localeCompare user w = (Fulfilled gs, advance w)
    /\ Forall
         (fun g =>
            artifacts g = of_day (date g) all
            /\ total (stats g) = List.length (artifacts g)
            /\ pending_count (stats g)
               = count_status pending (artifacts g)
                 + count_status processing (artifacts g)
            /\ ready_count (stats g) = count_status ready (artifacts g)
            /\ completed_count (stats g)
               = count_status completed (artifacts g)
            /\ pending_count (stats g) + ready_count (stats g)
                 + completed_count (stats g)
                 + count_status playing (artifacts g)
               = total (stats g))
         gs.
Proof.
  destruct (getAllArtifacts_total user w) as (all & E & _).
  exists all, (Store.groupDays localeCompare all).
  split; [exact E|]. split; [now apply getDayGroups_run|].
  apply Forall_forall. intros g Hg.
  apply in_groupDays in Hg as ([d arts] & He & ->).
  destruct (groups_grouped all) as (_ & Harts & _).
  specialize (Harts d arts He). simpl.
  rewrite count_pending_or_processing.
  repeat split; trivial.
  pose proof (count_all arts) as C. unfold count_status in *. lia.
Qed.

(** C8. For every user, the day groups [getDayGroups] returns are in
    descending order of their date strings: every group's date is at
    least the date of every group after it, in code-unit order.  The
    table holds day buckets of the form YYYY-MM-DD, on which the
    platform's collation is the code-unit order. *)
Theorem getDayGroups_sorted (localeCompare : string -> string -> Z) :
  (forall a b, isDayBucket a = true -> isDayBucket b = true ->
               Z.sgn (localeCompare a b) = Supabase.sign (String.compare a b)) ->
  forall (user : string) (w : World),
    (forall r, In r (table w) -> isDayBucket (Row.day_bucket r) = true) ->
    exists gs,
      Store.getDayGroups localeCompare user w = (Fulfilled gs, advance w)
      /\ StronglySorted date_geb gs.
Proof.
  intros Hcmp user w Hdays.
  destruct (getAllArtifacts_total user w) as (all & E & Hall).
  exists (Store.groupDays localeCompare all).
  split; [now apply getDayGroups_run|].
  apply Sorted_StronglySorted.
  { intros x y z. unfold date_geb. apply string_ge_trans. }
  unfold Store.groupDays.
  apply sort_sorted with (P := fun g => isDayBucket (date g) = true).
  - intros x y Px Py H. unfold date_geb.
    specialize (Hcmp _ _ Py Px).
    rewrite String.compare_antisym.
    destruct (String.compare (date y) (date x)); simpl in *;
      try discriminate.
    assert (Z.sgn (localeCompare (date y) (date x)) <= 0)%Z by lia. lia.
  - intros x y Px Py H. unfold date_geb.
    specialize (Hcmp _ _ Py Px).
    destruct (String.compare (date y) (date x)); simpl in *;
      try discriminate; lia.
  - apply Forall_forall. intros g Hg.
    apply in_map_iff in Hg as ([d arts] & <- & He). simpl.
    destruct (groups_grouped all) as (_ & _ & _ & Hfrom).
    destruct (Hfrom d) as (a & Ha & <-).
    { apply (in_map fst) in He. exact He. }
    destruct (Hall a Ha) as (r & Hr & ->). simpl. auto.
Qed.

(** The sample table holds day buckets, and the code-unit collation
    orders them: its groups come in descending order. *)
Lemma getDayGroups_sorted_witness :
  exists gs,
    Store.getDayGroups Sample.codeUnitCompare DEMO_USER_ID Sample.world
    = (Fulfilled gs, advance Sample.world)
    /\ StronglySorted date_geb gs.
Proof.
  apply (getDayGroups_sorted Sample.codeUnitCompare).
  - intros a b _ _. unfold Sample.codeUnitCompare.
    destruct (String.compare a b); reflexivity.
  - intros r H. simpl in H.
    repeat (destruct H as [<-|H]; [reflexivity|]). contradiction.
Defined.

(** The groups of 2024-01-02 and 2024-01-01 come in that order. *)
Example day_groups_of_sample :
  match fst (Store.getDayGroups Sample.codeUnitCompare DEMO_USER_ID
               Sample.world) with
  | Fulfilled gs => map (fun g => (date g, stats g)) gs
  | Rejected _ => []
  end
  = [("2024-01-02",
      {| total := 1; pending_count := 1; ready_count := 0;
         completed_count := 0 |});
     ("2024-01-01",
      {| total := 2; pending_count := 0; ready_count := 1;
         completed_count := 0 |})].
Proof. vm_compute. reflexivity. Qed.

(* ================================================================= *)
(** ** The status update *)

Section StatusUpdate.
Import Supabase Store.

Variables (current : Artifact) (st : ArtifactStatus)
          (patch : option PartialArtifact) (now : Js.Date).

Local Ltac updates_cases :=
  unfold status_updates, supplied;
  destruct patch as [p|];
  [destruct (p_summary p), (p_fullAudioText p), (p_title p), (p_tags p)|];
  destruct (status_eqb st playing && negb (Js.truthy (playedAt current)));
  destruct (status_eqb st completed && negb (Js.truthy (completedAt current)));
  reflexivity.

Lemma updates_status :
  Updates.status (status_updates current st patch now) = Some st.
Proof. updates_cases. Qed.

Lemma updates_played_at :
  Updates.played_at (status_updates current st patch now)
  = if status_eqb st playing && negb (Js.truthy (playedAt current))
    then Some (Js.toISOString now) else None.
Proof. updates_cases. Qed.

Lemma updates_completed_at :
  Updates.completed_at (status_updates current st patch now)
  = if status_eqb st completed && negb (Js.truthy (completedAt current))
    then Some (Js.toISOString now) else None.
Proof. updates_cases. Qed.

Lemma updates_summary :
  Updates.summary (status_updates current st patch now)
  = supplied p_summary patch.
Proof. updates_cases. Qed.

Lemma updates_full_audio_text :
  Updates.full_audio_text (status_updates current st patch now)
  = supplied p_fullAudioText patch.
Proof. updates_cases. Qed.

Lemma updates_title :
  Updates.title (status_updates current st patch now)
  = supplied p_title patch.
Proof. updates_cases. Qed.

Lemma updates_tags :
  Updates.tags (status_updates current st patch now)
  = supplied p_tags patch.
Proof. updates_cases. Qed.

End StatusUpdate.

Section StatusUpdateEffects.
Import Supabase Store.

Lemma apply_stamps_kept (r : Row.t) (st : ArtifactStatus)
    (patch : option PartialArtifact) (now : Js.Date) :
  stamps_kept (rowToArtifact r)
    (rowToArtifact
       (Updates.apply (status_updates (rowToArtifact r) st patch now) r)).
Proof.
  split; intros T;
    cbn [rowToArtifact playedAt completedAt Updates.apply
         Row.played_at Row.completed_at] in *;
    [rewrite updates_played_at | rewrite updates_completed_at];
    cbn [rowToArtifact playedAt completedAt];
    rewrite T, andb_false_r; reflexivity.
Qed.

Lemma apply_same_identity (u : Updates.t) (r : Row.t) :
  same_identity (rowToArtifact r) (rowToArtifact (Updates.apply u r)).
Proof. repeat split. Qed.

Lemma apply_unpatched_kept (r : Row.t) (st : ArtifactStatus)
    (patch : option PartialArtifact) (now : Js.Date) :
  unpatched_kept patch (rowToArtifact r)
    (rowToArtifact
       (Updates.apply (status_updates (rowToArtifact r) st patch now) r)).
Proof.
  repeat split; intros S;
    cbn [rowToArtifact summary fullAudioText title tags Updates.apply
         Row.summary Row.full_audio_text Row.title Row.tags];
    [rewrite updates_summary | rewrite updates_full_audio_text
     | rewrite updates_title | rewrite updates_tags];
    rewrite S; reflexivity.
Qed.

Lemma apply_unstamped_kept (r : Row.t) (st : ArtifactStatus)
    (patch : option PartialArtifact) (now : Js.Date) :
  unstamped_kept st (rowToArtifact r)
    (rowToArtifact
       (Updates.apply (status_updates (rowToArtifact r) st patch now) r)).
Proof.
  split; intros N;
    cbn [rowToArtifact playedAt completedAt Updates.apply
         Row.played_at Row.completed_at];
    [rewrite updates_played_at | rewrite updates_completed_at];
    destruct st; try congruence; reflexivity.
Qed.

(** The first stamp: after a move to ['playing'] the artifact is
    stamped, and after a move to ['completed'] likewise. *)
Lemma apply_stamped (r : Row.t) (patch : option PartialArtifact)
    (now : Js.Date) :
  Js.truthy
    (Row.played_at
       (Updates.apply (status_updates (rowToArtifact r) playing patch now) r))
  = true
  /\ Js.truthy
       (Row.completed_at
          (Updates.apply
             (status_updates (rowToArtifact r) completed patch now) r))
     = true.
Proof.
  split; cbn [Updates.apply Row.played_at Row.completed_at];
    [rewrite updates_played_at | rewrite updates_completed_at];
    cbn [rowToArtifact playedAt completedAt status_eqb andb].
  - destruct (Js.truthy (Row.played_at r)) eqn:T; cbn [negb]; trivial.
    apply toISOString_truthy.
  - destruct (Js.truthy (Row.completed_at r)) eqn:T; cbn [negb]; trivial.
    apply toISOString_truthy.
Qed.

Lemma matching_id (id : string) (r : Row.t) :
  matching [eq_id id] r = true <-> Row.id r = id.
Proof.
  simpl. rewrite andb_true_r. apply String.eqb_eq.
Qed.

(** The rows of [id] in the updated table are the updated rows of [id]. *)
Lemma rows_of_updated (id : string) (u : Updates.t) (rows : list Row.t) :
  filter (matching [eq_id id]) (updated_table id u rows)
  = map (Updates.apply u) (filter (matching [eq_id id]) rows).
Proof.
  unfold updated_table.
  induction rows as [|r rows IH]; [reflexivity|].
  cbn [map filter].
  destruct (matching [eq_id id] r) eqn:M.
  - assert (M' : matching [eq_id id] (Updates.apply u r) = true)
      by (apply matching_id; apply matching_id in M; exact M).
    rewrite M'. cbn [map]. now rewrite IH.
  - rewrite M. exact IH.
Qed.

(** Row by row, what the update of [id] does to a table. *)
Lemma updated_table_rows (id : string) (u : Updates.t) (rows : list Row.t)
    (R : Row.t -> Row.t -> Prop) :
  (forall r, R r r) ->
  (forall r, In r rows -> Row.id r = id -> R r (Updates.apply u r)) ->
  Forall2 R rows (updated_table id u rows).
Proof.
  intros Hrefl Hupd. unfold updated_table.
  induction rows as [|r rows IH]; simpl; constructor.
  - destruct (String.eqb_spec (Row.id r) id) as [E|N]; simpl.
    + apply Hupd; [now left | exact E].
    + apply Hrefl.
  - apply IH. intros r' Hr'. apply Hupd. now right.
Qed.

Lemma Forall2_same {A} (R : A -> A -> Prop) (l : list A) :
  (forall x, R x x) -> Forall2 R l l.
Proof. intros H. induction l; constructor; auto. Qed.

Lemma single_row_in (id : string) (w : World) (r : Row.t) :
  rows_of id w = [r] ->
  forall r', In r' (table w) -> Row.id r' = id -> r' = r.
Proof.
  unfold rows_of. intros E r' Hr' Hid.
  assert (I : In r' (filter (matching [eq_id id]) (table w))).
  { apply filter_In. split; [exact Hr' | now apply matching_id]. }
  rewrite E in I. destruct I as [<-|[]]. reflexivity.
Qed.

End StatusUpdateEffects.

Section StampsOnce.
Import Supabase Store.

Lemma update_keeps_stamps (id : string) (st : ArtifactStatus)
    (patch : option PartialArtifact) (now : Js.Date) (w : World) :
  Forall2 (fun r r' => stamps_kept (rowToArtifact r) (rowToArtifact r'))
    (table w) (table (snd (updateArtifactStatus id st patch now w)))
  /\ forall a,
       fst (updateArtifactStatus id st patch now w) = Fulfilled (Some a) ->
       exists current,
         fst (getArtifact id w) = Fulfilled (Some current)
         /\ stamps_kept current a.
Proof.
  destruct (updateArtifactStatus_cases id st patch now w)
    as [[N T]|(r & E & G & U)].
  - split.
    + rewrite T. apply Forall2_same. intros x. split; trivial.
    + intros a Ha. rewrite N in Ha. discriminate.
  - cbv zeta in U. rewrite U. cbn [fst snd table]. split.
    + apply updated_table_rows.
      * intros x. split; trivial.
      * intros r' Hr' Hid.
        rewrite (single_row_in id w r E r' Hr' Hid).
        apply apply_stamps_kept.
    + intros a [= <-]. exists (rowToArtifact r).
      rewrite G. split; [reflexivity | apply apply_stamps_kept].
Qed.

(** After a first update that returned [a1], a second update to the
    same status finds the stored row of [a1]. *)
Lemma second_update (id : string) (st st2 : ArtifactStatus)
    (patch patch2 : option PartialArtifact) (now now2 : Js.Date)
    (w w1 w2 : World) (a1 a2 : Artifact) :
  updateArtifactStatus id st patch now w = (Fulfilled (Some a1), w1) ->
  updateArtifactStatus id st2 patch2 now2 w1 = (Fulfilled (Some a2), w2) ->
  exists r r1,
    a1 = rowToArtifact r1
    /\ r1 = Updates.apply (status_updates (rowToArtifact r) st patch now) r
    /\ a2 = rowToArtifact
              (Updates.apply
                 (status_updates (rowToArtifact r1) st2 patch2 now2) r1).
Proof.
  intros U1 U2.
  destruct (updateArtifactStatus_cases id st patch now w)
    as [[N _]|(r & E & _ & U)].
  { rewrite U1 in N. discriminate. }
  cbv zeta in U. rewrite U in U1. injection U1 as <- <-.
  destruct (updateArtifactStatus_cases id st2 patch2 now2
              {| table :=
                   updated_table id
                     (status_updates (rowToArtifact r) st patch now) (table w);
                 faults := tl (tl (faults w));
                 completions := completions w |})
    as [[N _]|(r1 & E1 & _ & U')].
  { rewrite U2 in N. discriminate. }
  cbv zeta in U'. rewrite U' in U2. injection U2 as <- _.
  unfold rows_of in E1. cbn [table] in E1.
  rewrite rows_of_updated in E1. unfold rows_of in E. rewrite E in E1.
  injection E1 as <-.
  eexists _, _. repeat split.
Qed.

End StampsOnce.

(** C2. For every artifact and every call of the status update: a
    [playedAt] that is already set is left as it is, and so is a
    [completedAt] that is already set, whatever the new status (so for
    ['playing'] and ['completed']); this holds of the stored rows and of
    the artifact returned.  In particular the artifact a call with
    ['playing'] returns carries a [playedAt], and a second call with
    ['playing'] returns the same [playedAt]; likewise for ['completed']
    and [completedAt].  A call on a healthy store for the one row of an
    identifier returns the updated artifact. *)
Theorem stamps_are_set_once (id : string) (patch : option PartialArtifact)
    (now : Js.Date) (w : World) :
  (forall st,
      Forall2 (fun r r' => stamps_kept (Store.rowToArtifact r)
                             (Store.rowToArtifact r'))
        (table w)
        (table (snd (Store.updateArtifactStatus id st patch now w)))
      /\ forall a,
           fst (Store.updateArtifactStatus id st patch now w)
           = Fulfilled (Some a) ->
           exists current,
             fst (Store.getArtifact id w) = Fulfilled (Some current)
             /\ stamps_kept current a)
  /\ (forall a1 w1,
         Store.updateArtifactStatus id playing patch now w
         = (Fulfilled (Some a1), w1) ->
         Js.truthy (playedAt a1) = true
         /\ forall patch2 now2 a2 w2,
              Store.updateArtifactStatus id playing patch2 now2 w1
              = (Fulfilled (Some a2), w2) ->
              playedAt a2 = playedAt a1)
  /\ (forall a1 w1,
         Store.updateArtifactStatus id completed patch now w
         = (Fulfilled (Some a1), w1) ->
         Js.truthy (completedAt a1) = true
         /\ forall patch2 now2 a2 w2,
              Store.updateArtifactStatus id completed patch2 now2 w1
              = (Fulfilled (Some a2), w2) ->
              completedAt a2 = completedAt a1)
  /\ (forall st r,
         healthy 2 (faults w) -> rows_of id w = [r] ->
         exists a w1,
           Store.updateArtifactStatus id st patch now w
           = (Fulfilled (Some a), w1)).
Proof.
  split; [intros st; apply update_keeps_stamps|].
  split; [|split].
  - intros a1 w1 U1.
    assert (T : Js.truthy (playedAt a1) = true).
    { destruct (updateArtifactStatus_cases id playing patch now w)
        as [[N _]|(r & _ & _ & U)].
      - rewrite U1 in N. discriminate.
      - cbv zeta in U. rewrite U in U1. injection U1 as <- _.
        apply apply_stamped. }
    split; [exact T|].
    intros patch2 now2 a2 w2 U2.
    destruct (second_update _ _ _ _ _ _ _ _ _ _ _ _ U1 U2)
      as (r & r1 & -> & _ & ->).
    apply apply_stamps_kept. exact T.
  - intros a1 w1 U1.
    assert (T : Js.truthy (completedAt a1) = true).
    { destruct (updateArtifactStatus_cases id completed patch now w)
        as [[N _]|(r & _ & _ & U)].
      - rewrite U1 in N. discriminate.
      - cbv zeta in U. rewrite U in U1. injection U1 as <- _.
        apply apply_stamped. }
    split; [exact T|].
    intros patch2 now2 a2 w2 U2.
    destruct (second_update _ _ _ _ _ _ _ _ _ _ _ _ U1 U2)
      as (r & r1 & -> & _ & ->).
    apply apply_stamps_kept. exact T.
  - intros st r H E. eexists _, _.
    apply (updateArtifactStatus_found id st patch now w r H E).
Qed.

(** The artifact ["c"] of the sample table has been played: a further
    move to ['playing'] returns it with the [playedAt] it had. *)
Lemma stamps_are_set_once_witness :
  exists a,
    fst (Store.updateArtifactStatus "c" playing None Sample.jan3 Sample.world)
    = Fulfilled (Some a)
    /\ playedAt a = Some "2024-01-01T10:00:00.000Z".
Proof.
  destruct (stamps_are_set_once "c" None Sample.jan3 Sample.world) as [H _].
  destruct (H playing) as [_ H2].
  eexists. split; [vm_compute; reflexivity|].
  destruct (H2 _ eq_refl) as (current & Hc & Hk).
  vm_compute in Hc. injection Hc as <-.
  exact (proj1 Hk eq_refl).
Defined.

(** C10. For every call of the status update, every stored row keeps
    its [id], [userId], [type], [rawContent], [sourceUrl], [imageData],
    [createdAt] and [dayBucket], keeps each of [summary],
    [fullAudioText], [title] and [tags] that the patch does not supply,
    keeps the stamp that the new status does not set ([playedAt] unless
    the status is ['playing'], [completedAt] unless it is ['completed']),
    and is left whole when it is not the row of the identifier; the
    artifact returned has these fields of the artifact that was there. *)
Theorem status_update_frame (id : string) (st : ArtifactStatus)
    (patch : option PartialArtifact) (now : Js.Date) (w : World) :
  Forall2
    (fun r r' =>
       same_identity (Store.rowToArtifact r) (Store.rowToArtifact r')
       /\ unpatched_kept patch (Store.rowToArtifact r) (Store.rowToArtifact r')
       /\ unstamped_kept st (Store.rowToArtifact r) (Store.rowToArtifact r')
       /\ (Row.id r <> id -> r' = r))
    (table w) (table (snd (Store.updateArtifactStatus id st patch now w)))
  /\ forall a,
       fst (Store.updateArtifactStatus id st patch now w) = Fulfilled (Some a) ->
       exists current,
         fst (Store.getArtifact id w) = Fulfilled (Some current)
         /\ same_identity current a
         /\ unpatched_kept patch current a
         /\ unstamped_kept st current a.
Proof.
  destruct (updateArtifactStatus_cases id st patch now w)
    as [[N T]|(r & E & G & U)].
  - split.
    + rewrite T. apply Forall2_same. intros x. repeat split.
    + intros a Ha. rewrite N in Ha. discriminate.
  - cbv zeta in U. rewrite U. cbn [fst snd table]. split.
    + apply updated_table_rows.
      * intros x. repeat split.
      * intros r' Hr' Hid.
        assert (Er : r' = r) by apply (single_row_in id w r E r' Hr' Hid).
        subst r'.
        split; [apply apply_same_identity|].
        split; [apply apply_unpatched_kept|].
        split; [apply apply_unstamped_kept|].
        intros Hne. contradiction.
    + intros a [= <-]. exists (Store.rowToArtifact r). rewrite G.
      split; [reflexivity|].
      split; [apply apply_same_identity|].
      split; [apply apply_unpatched_kept | apply apply_unstamped_kept].
Qed.

(** A patch that names a title, and fields the update never copies,
    applied to the artifact ["a"] of the sample table: the raw content is
    kept, and so is the summary, which the patch does not supply. *)
Lemma status_update_frame_witness :
  exists a,
    fst (Store.updateArtifactStatus "a" playing
           (Some {| p_id := Some "z"; p_userId := None; p_type := None;
                    p_title := Some "Milk"; p_rawContent := Some "changed";
                    p_summary := None; p_fullAudioText := None;
                    p_sourceUrl := None; p_imageData := None;
                    p_status := None; p_createdAt := None;
                    p_playedAt := None; p_completedAt := None;
                    p_tags := None; p_dayBucket := None |})
           Sample.jan3 Sample.world)
    = Fulfilled (Some a)
    /\ id a = "a" /\ rawContent a = "Buy milk" /\ summary a = None.
Proof.
  eexists. split; [vm_compute; reflexivity|].
  match goal with
  | |- context [rawContent ?a] =>
      destruct (proj2 (status_update_frame "a" playing
                         (Some {| p_id := Some "z"; p_userId := None;
                                  p_type := None; p_title := Some "Milk";
                                  p_rawContent := Some "changed";
                                  p_summary := None; p_fullAudioText := None;
                                  p_sourceUrl := None; p_imageData := None;
                                  p_status := None; p_createdAt := None;
                                  p_playedAt := None; p_completedAt := None;
                                  p_tags := None; p_dayBucket := None |})
                         Sample.jan3 Sample.world) a eq_refl)
        as (current & Hc & Hi & Hp & _)
  end.
  vm_compute in Hc. injection Hc as <-.
  destruct Hi as (Hid & _ & _ & Hraw & _).
  destruct Hp as (Hsum & _).
  split; [exact Hid | split; [exact Hraw | exact (Hsum eq_refl)]].
Defined.

(* ================================================================= *)
(** ** Creation *)

Section Creation.
Import Supabase Store.

Lemma title_truncated (content : string) :
  truncated_title content
    (Js.slice0 100 content
       ++ (if (100 <? String.length content)%nat then "..." else EmptyString)).
Proof.
  unfold Js.slice0. split; intros H.
  - rewrite substring_all by exact H.
    apply Nat.ltb_ge in H. rewrite H.
    clear H. induction content as [|c s IH]; simpl; [reflexivity|].
    now f_equal.
  - destruct (substring_prefix content 100) as (rest & E & L); [lia|].
    apply Nat.ltb_lt in H. rewrite H.
    exists (substring 0 100 content), rest. auto.
Qed.

Lemma isoDate_ymd (now : Js.Date) :
  (Js.year now <= 9999)%N -> Js.isoDate now = ymd now.
Proof.
  intros H. unfold Js.isoDate, ymd.
  apply N.leb_le in H. now rewrite H.
Qed.

Lemma replace_by_id_in (row : Row.t) (rows rows' : list Row.t) :
  replace_by_id row rows = Some rows' -> In row rows'.
Proof.
  revert rows'; induction rows as [|r rows IH]; simpl; intros rows';
    [discriminate|].
  destruct (String.eqb (Row.id r) (Row.id row)).
  - intros [= <-]. now left.
  - destruct (replace_by_id row rows) as [rest|]; [|discriminate].
    intros [= <-]. right. now apply IH.
Qed.

(** A save on a healthy store keeps the row; a failed one rejects and
    leaves the table alone. *)
Lemma saveArtifact_cases (a : Artifact) (w : World) :
  (hd None (faults w) = None
   /\ exists w', saveArtifact a w = (Fulfilled tt, w')
                 /\ In (artifactToRow a) (table w'))
  \/ (exists e rest,
        faults w = Some e :: rest
        /\ saveArtifact a w = (Rejected (StoreError e), advance w)).
Proof.
  unfold saveArtifact, bind, upsert.
  destruct (faults_cases w) as [H|(e & rest & H)].
  - left. split; [exact H|]. rewrite (request_ok _ w H). simpl.
    eexists. split; [reflexivity|]. simpl.
    destruct (replace_by_id (artifactToRow a) (table w)) as [rows'|] eqn:R.
    + now apply replace_by_id_in in R.
    + apply in_or_app. right. now left.
  - right. exists e, rest. split; [exact H|].
    now rewrite (request_fault _ w e rest H).
Qed.

End Creation.

(** C5. For every input to the creation operation, the artifact made
    has status ['pending'], a title that is the content cut to its first
    100 characters with ['...'] appended exactly when the content is
    longer (a content of at most 100 characters is its own title), and
    the day bucket of its creation date, which in the years up to 9999
    reads YYYY-MM-DD.  This holds of [POST] and of the [add_to_queue]
    tool; [POST] answers 200 with that artifact and has stored it, or
    answers 500 when the store failed. *)
Theorem created_artifact_fields (body : CreateArtifactInput) (now : Js.Date)
    (uuid : string) (requested : ArtifactType) (content : string) :
  let a := ArtifactsRoute.POST_artifact body now uuid in
  let q := Mcp.add_to_queue_artifact requested content now uuid in
  (status a = pending
   /\ truncated_title (in_content body) (title a)
   /\ createdAt a = Js.toISOString now
   /\ dayBucket a = Js.isoDate now)
  /\ (status q = pending
      /\ truncated_title content (title q)
      /\ createdAt q = Js.toISOString now
      /\ dayBucket q = Js.isoDate now)
  /\ ((Js.year now <= 9999)%N ->
      Js.isoDate now = ymd now /\ isDayBucket (Js.isoDate now) = true)
  /\ forall w,
       exists resp w',
         ArtifactsRoute.POST body now uuid w = (Fulfilled resp, w')
         /\ ((hd None (faults w) = None
              /\ http_status resp = 200
              /\ http_body resp = json_of_artifact a
              /\ In (Store.artifactToRow a) (table w'))
             \/ ((exists e, hd None (faults w) = Some e)
                 /\ http_status resp = 500
                 /\ table w' = table w)).
Proof.
  cbv zeta. repeat split.
  - apply title_truncated.
  - apply title_truncated.
  - apply dayBucket_of_now.
  - apply title_truncated.
  - apply title_truncated.
  - apply dayBucket_of_now.
  - now apply isoDate_ymd.
  - now apply isoDate_isDayBucket.
  - intros w. unfold ArtifactsRoute.POST, try_catch, bind.
    destruct (saveArtifact_cases (ArtifactsRoute.POST_artifact body now uuid) w)
      as [(H & w' & S & I)|(e & rest & H & S)]; rewrite S.
    + eexists _, _. split; [reflexivity|]. left. auto.
    + eexists _, _. split; [reflexivity|]. right.
      rewrite H. simpl. eauto.
Qed.

(** The scenario of the specification: the idea ['Buy milk'], made on
    2 January 2024. *)
Lemma created_artifact_fields_witness :
  let a := ArtifactsRoute.POST_artifact
             (Sample.input idea "Buy milk" None None) Sample.jan2 "u-1" in
  type a = idea /\ title a = "Buy milk" /\ status a = pending
  /\ dayBucket a = "2024-01-02".
Proof.
  cbv zeta.
  destruct (created_artifact_fields (Sample.input idea "Buy milk" None None)
              Sample.jan2 "u-1" idea "Buy milk")
    as ((Hs & (Ht & _) & _ & Hd) & _ & Hy & _).
  split; [reflexivity|].
  split; [apply Ht; simpl; lia|].
  split; [exact Hs|].
  rewrite Hd. rewrite (proj1 (Hy ltac:(simpl; lia))). reflexivity.
Defined.

(** C1, as the code has it.  [POST] makes a ['screenshot'] of a request
    with a non-empty [imageData], else an ['article'] of a request with a
    non-empty [sourceUrl], else an artifact of the requested type; it
    stores [sourceUrl] and [imageData] as they came and does not look at
    the content.  The [add_to_queue] tool makes an ['article'] whose
    [sourceUrl] is the content when the content starts with [http://] or
    [https://], else an artifact of the requested type without
    [sourceUrl]; it never sets [imageData]. *)
Theorem creation_type_resolution (body : CreateArtifactInput) (now : Js.Date)
    (uuid : string) (requested : ArtifactType) (content : string) :
  let a := ArtifactsRoute.POST_artifact body now uuid in
  let q := Mcp.add_to_queue_artifact requested content now uuid in
  (Js.truthy (in_imageData body) = true -> type a = screenshot)
  /\ (Js.truthy (in_imageData body) = false ->
      Js.truthy (in_sourceUrl body) = true -> type a = article)
  /\ (Js.truthy (in_imageData body) = false ->
      Js.truthy (in_sourceUrl body) = false -> type a = in_type body)
  /\ sourceUrl a = in_sourceUrl body
  /\ imageData a = in_imageData body
  /\ (url_shaped content = true -> type q = article /\ sourceUrl q = Some content)
  /\ (url_shaped content = false -> type q = requested /\ sourceUrl q = None)
  /\ imageData q = None.
Proof.
  cbv zeta.
  unfold ArtifactsRoute.POST_artifact, Mcp.add_to_queue_artifact, url_shaped.
  cbn [type sourceUrl imageData].
  split; [intros H1; now rewrite H1|].
  split; [intros H1 H2; now rewrite H1, H2|].
  split; [intros H1 H2; now rewrite H1, H2|].
  split; [reflexivity|]. split; [reflexivity|].
  split; [intros H1; rewrite H1; split; reflexivity|].
  split; [intros H1; rewrite H1; split; reflexivity|].
  reflexivity.
Qed.

(** A note posted with a source URL becomes an article; queued with a URL
    for content it becomes an article of that URL. *)
Lemma creation_type_resolution_witness :
  type (ArtifactsRoute.POST_artifact
          (Sample.input note "Example" (Some "https://example.com/x") None)
          Sample.jan2 "u-1") = article
  /\ sourceUrl (Mcp.add_to_queue_artifact note "https://example.com/x"
                  Sample.jan2 "u-2") = Some "https://example.com/x".
Proof.
  destruct (creation_type_resolution
              (Sample.input note "Example" (Some "https://example.com/x") None)
              Sample.jan2 "u-1" note "https://example.com/x")
    as (_ & Harticle & _ & _ & _ & Hurl & _).
  split.
  - apply Harticle; reflexivity.
  - apply Hurl. reflexivity.
Defined.

(** C1 as stated fails on [POST]: the note whose content is
    [https://example.com/x], posted without [sourceUrl] and without
    [imageData], stays a note and gets no [sourceUrl]. *)
Lemma posted_url_content_stays_note :
  let body := Sample.input note "https://example.com/x" None None in
  let a := ArtifactsRoute.POST_artifact body Sample.jan2 "u-1" in
  in_imageData body = None
  /\ url_shaped (in_content body) = true
  /\ type a = note
  /\ type a <> article
  /\ sourceUrl a = None
  /\ sourceUrl a <> Some (in_content body)
  /\ fst (ArtifactsRoute.POST body Sample.jan2 "u-1" Sample.empty_world)
     = Fulfilled {| http_status := 200;
                    http_body := json_of_artifact a;
                    http_headers := ArtifactsRoute.corsHeaders |}.
Proof.
  cbv zeta. repeat split; try discriminate.
Qed.

(* ================================================================= *)
(** ** Failures of the store *)

(** C6. When the round trip to the store fails, [getArtifact] returns
    [null] and the three listings return an empty sequence, none of them
    throwing, and [saveArtifact] throws the store's error.  A response
    that carries an error is read as absent whatever else it carries, and
    in no world does a read throw. *)
Theorem store_failure_policy (e : PostgrestError)
    (rest : list (option PostgrestError)) (t : list Row.t)
    (c : list Completion) (id user day : string) (st : ArtifactStatus)
    (a : Artifact) :
  let w := {| table := t; faults := Some e :: rest; completions := c |} in
  let w' := {| table := t; faults := rest; completions := c |} in
  Store.getArtifact id w = (Fulfilled None, w')
  /\ Store.getAllArtifacts user w = (Fulfilled [], w')
  /\ Store.getArtifactsByDay user day w = (Fulfilled [], w')
  /\ Store.getArtifactsByStatus user st w = (Fulfilled [], w')
  /\ Store.saveArtifact a w = (Rejected (StoreError e), w')
  /\ (forall r : Supabase.Response Row.t,
         Supabase.error r <> None -> Store.one r = None)
  /\ (forall r : Supabase.Response (list Row.t),
         Supabase.error r <> None -> Store.many r = [])
  /\ (forall w0,
         (exists v, Store.getArtifact id w0 = (Fulfilled v, advance w0))
         /\ (exists v, Store.getAllArtifacts user w0 = (Fulfilled v, advance w0))
         /\ (exists v, Store.getArtifactsByDay user day w0
                       = (Fulfilled v, advance w0))
         /\ (exists v, Store.getArtifactsByStatus user st w0
                       = (Fulfilled v, advance w0))).
Proof.
  cbv zeta. repeat split.
  - intros r H. unfold Store.one. destruct (Supabase.error r); congruence.
  - intros r H. unfold Store.many. destruct (Supabase.error r); congruence.
  - destruct (getArtifact_cases id w0) as [[G _]|(r & _ & _ & G)]; eauto.
  - destruct (listing_total [Supabase.eq_user_id user] w0) as (l & E & _).
    eauto.
  - destruct (listing_total
                [Supabase.eq_user_id user; Supabase.eq_day_bucket day] w0)
      as (l & E & _).
    eauto.
  - destruct (listing_total
                [Supabase.eq_user_id user; Supabase.eq_status st] w0)
      as (l & E & _).
    eauto.
Qed.

(** An outage during each operation on the sample table. *)
Lemma store_failure_policy_witness :
  let w := {| table := Sample.rows; faults := [Some Sample.outage];
              completions := [] |} in
  fst (Store.getArtifact "a" w) = Fulfilled None
  /\ fst (Store.getAllArtifacts DEMO_USER_ID w) = Fulfilled []
  /\ fst (Store.saveArtifact
            (Store.rowToArtifact (Sample.row "a" "2024-01-01" "2024-01-01T08:00:00.000Z" ready None)) w)
     = Rejected (StoreError Sample.outage).
Proof.
  cbv zeta.
  destruct (store_failure_policy Sample.outage [] Sample.rows [] "a"
              DEMO_USER_ID "2024-01-01" ready
              (Store.rowToArtifact (Sample.row "a" "2024-01-01" "2024-01-01T08:00:00.000Z" ready None)))
    as (H1 & H2 & _ & _ & H5 & _).
  cbv zeta in *. rewrite H1, H2, H5. repeat split.
Defined.

(* ================================================================= *)
(** ** Deletion *)

(** [deleteArtifact] reports whether the round trip went through, not
    whether a row was there: on a healthy store it returns [true] and
    [DELETE] answers 200, for every identifier. *)
Lemma deleteArtifact_healthy (id : string) (w : World) :
  hd None (faults w) = None ->
  fst (Store.deleteArtifact id w) = Fulfilled true
  /\ fst (ArtifactRoute.DELETE id w)
     = Fulfilled (ArtifactRoute.json_response 200
                    (Js.JObject [("success", Js.JBool true)])).
Proof.
  intros H.
  unfold ArtifactRoute.DELETE, try_catch, bind, Store.deleteArtifact, bind,
    Supabase.delete.
  rewrite (request_ok _ w H). simpl. split; reflexivity.
Qed.

(** C7 on the code: no row of the sample table has the identifier
    ["missing"], the store is healthy, and yet [deleteArtifact] returns
    [true] and [DELETE] answers 200 with [{ success: true }]. *)
Lemma delete_missing_reports_success :
  ~ present "missing" Sample.world
  /\ Store.deleteArtifact "missing" Sample.world
     = (Fulfilled true, Sample.world)
  /\ ArtifactRoute.DELETE "missing" Sample.world
     = (Fulfilled {| http_status := 200;
                     http_body := Js.JObject [("success", Js.JBool true)];
                     http_headers := [] |},
        Sample.world).
Proof.
  split; [|split; reflexivity].
  intros (r & Hr & Hid). simpl in Hr.
  repeat (destruct Hr as [<-|Hr]; [discriminate|]). contradiction.
Qed.

(* ================================================================= *)
(** ** The tool-call facade *)

Section Facade.
Import Supabase Store.

Lemma absent_rows (id : string) (w : World) (r : Row.t) :
  ~ present id w -> rows_of id w <> [r].
Proof.
  intros A E. apply A. exists r.
  assert (I : In r (rows_of id w)) by (rewrite E; now left).
  apply filter_In in I as [I M]. apply matching_id in M. auto.
Qed.

Lemma getArtifact_absent (id : string) (w : World) :
  ~ present id w -> getArtifact id w = (Fulfilled None, advance w).
Proof.
  intros A.
  destruct (getArtifact_cases id w) as [[G _]|(r & E & _)]; [exact G|].
  now apply absent_rows in E.
Qed.

Lemma updateArtifactStatus_absent (id : string) (st : ArtifactStatus)
    (patch : option PartialArtifact) (now : Js.Date) (w : World) :
  ~ present id w ->
  updateArtifactStatus id st patch now w = (Fulfilled None, advance w).
Proof.
  intros A. unfold updateArtifactStatus, bind.
  now rewrite getArtifact_absent.
Qed.

Lemma unknown_name (name : string) :
  ~ In name Mcp.tool_names ->
  String.eqb name "show_drivetime" = false
  /\ String.eqb name "get_todays_episodes" = false
  /\ String.eqb name "get_episode_content" = false
  /\ String.eqb name "mark_episode_complete" = false
  /\ String.eqb name "add_to_queue" = false.
Proof.
  intros H. repeat split; apply String.eqb_neq; intros ->;
    apply H; simpl; tauto.
Qed.

End Facade.

(** C9. Every [tools/call] request is answered, with status 200, by a
    JSON-RPC envelope, and none ends in a thrown fault: the envelope has
    [jsonrpc] ['2.0'] and either the request's [id] and, as [result],
    the value of [handleToolCall], with no [error]; or, when
    [handleToolCall] threw, the [id] [null] and the [error] of code
    -32603, with no [result].  A name outside the catalogue of five
    tools returns a result whose [structuredContent] has the [error]
    ['Unknown tool: <name>'], and [get_episode_content] and
    [mark_episode_complete] called with an [episode_id] that is not in
    the store return a result whose [structuredContent] has the [error]
    ['Episode not found'], the table left as it was. *)
Theorem tool_call_errors_are_structured (rpc_id : Js.json) (name : string)
    (args : Mcp.Args) (baseUrl : string) (now : Js.Date) (uuid : string)
    (w : World) :
  (exists resp w',
      Mcp.POST_tools_call rpc_id name args baseUrl now uuid w
      = (Fulfilled resp, w')
      /\ http_status resp = 200
      /\ http_headers resp = Mcp.corsHeaders
      /\ Js.get "jsonrpc" (http_body resp) = Some (Js.JString "2.0")
      /\ ((exists result,
             Mcp.handleToolCall name args baseUrl now uuid w
             = (Fulfilled result, w')
             /\ Js.get "id" (http_body resp) = Some rpc_id
             /\ Js.get "result" (http_body resp)
                = Some (Mcp.json_of_result result)
             /\ Js.get "structuredContent" (Mcp.json_of_result result)
                = Some (Mcp.json_of_option (Mcp.structuredContent result))
             /\ Js.get "error" (http_body resp) = None)
          \/ (exists e,
                Mcp.handleToolCall name args baseUrl now uuid w
                = (Rejected e, w')
                /\ Js.get "id" (http_body resp) = Some Js.JNull
                /\ Js.get "result" (http_body resp) = None
                /\ Js.get "error" (http_body resp)
                   = Some (Js.JObject
                             [("code", Js.JNumber (-32603)%Z);
                              ("message", Js.JString "Internal error")]))))
  /\ (~ In name Mcp.tool_names ->
      Mcp.handleToolCall name args baseUrl now uuid w
      = (Fulfilled
           {| Mcp.structuredContent :=
                Some (Js.JObject
                        [("error", Js.JString ("Unknown tool: " ++ name))]);
              Mcp.content := Mcp.text ("Unknown tool: " ++ name);
              Mcp.meta := None |}, w)
      /\ exists resp,
           Mcp.POST_tools_call rpc_id name args baseUrl now uuid w
           = (Fulfilled resp, w)
           /\ structured_error resp
              = Some (Js.JString ("Unknown tool: " ++ name)))
  /\ (~ present (Mcp.arg_episode_id args) w ->
      forall tool,
        tool = "get_episode_content" \/ tool = "mark_episode_complete" ->
        Mcp.handleToolCall tool args baseUrl now uuid w
        = (Fulfilled Mcp.not_found, advance w)
        /\ exists resp,
             Mcp.POST_tools_call rpc_id tool args baseUrl now uuid w
             = (Fulfilled resp, advance w)
             /\ structured_error resp
                = Some (Js.JString "Episode not found")).
Proof.
  split; [|split].
  - unfold Mcp.POST_tools_call, try_catch, bind.
    destruct (Mcp.handleToolCall name args baseUrl now uuid w) as [[r|e] w'];
      eexists _, _; (split; [reflexivity|]);
      (split; [reflexivity|]); (split; [reflexivity|]);
      (split; [reflexivity|]).
    + left. exists r. split; [reflexivity|]. split; [reflexivity|].
      split; [reflexivity|]. split; reflexivity.
    + right. exists e. split; [reflexivity|]. split; [reflexivity|].
      split; reflexivity.
  - intros H. apply unknown_name in H as (H1 & H2 & H3 & H4 & H5).
    assert (E : Mcp.handleToolCall name args baseUrl now uuid w
                = (Fulfilled
                     {| Mcp.structuredContent :=
                          Some (Js.JObject
                                  [("error",
                                    Js.JString ("Unknown tool: " ++ name))]);
                        Mcp.content := Mcp.text ("Unknown tool: " ++ name);
                        Mcp.meta := None |}, w)).
    { unfold Mcp.handleToolCall. rewrite H1, H2, H3, H4, H5. reflexivity. }
    split; [exact E|].
    unfold Mcp.POST_tools_call, try_catch, bind. rewrite E.
    eexists. split; reflexivity.
  - intros A tool Htool.
    assert (E : Mcp.handleToolCall tool args baseUrl now uuid w
                = (Fulfilled Mcp.not_found, advance w)).
    { destruct Htool as [-> | ->]; unfold Mcp.handleToolCall; simpl;
        unfold bind.
      - now rewrite getArtifact_absent.
      - now rewrite updateArtifactStatus_absent. }
    split; [exact E|].
    unfold Mcp.POST_tools_call, try_catch, bind. rewrite E.
    eexists. split; reflexivity.
Qed.

(** The three cases on the sample table: a tool that is not in the
    catalogue, and the two episode tools on an unknown episode. *)
Lemma tool_call_errors_are_structured_witness :
  Mcp.structuredContent
    match fst (Mcp.handleToolCall "play_all" (Sample.args "zz") "https://drivetime.example" Sample.jan3
                 "u-9" Sample.world) with
    | Fulfilled r => r
    | Rejected _ => Mcp.not_found
    end
  = Some (Js.JObject [("error", Js.JString "Unknown tool: play_all")])
  /\ fst (Mcp.handleToolCall "get_episode_content" (Sample.args "zz") "https://drivetime.example"
            Sample.jan3 "u-9" Sample.world)
     = Fulfilled Mcp.not_found
  /\ fst (Mcp.handleToolCall "mark_episode_complete" (Sample.args "zz") "https://drivetime.example"
            Sample.jan3 "u-9" Sample.world)
     = Fulfilled Mcp.not_found.
Proof.
  assert (A : ~ present "zz" Sample.world).
  { intros (r & Hr & Hid). simpl in Hr.
    repeat (destruct Hr as [<-|Hr]; [discriminate|]). contradiction. }
  assert (U : ~ In "play_all" Mcp.tool_names).
  { simpl. intros H.
    repeat (destruct H as [H|H]; [discriminate|]). contradiction. }
  destruct (tool_call_errors_are_structured (Js.JNumber 1) "play_all"
              (Sample.args "zz") "https://drivetime.example" Sample.jan3 "u-9" Sample.world)
    as (_ & Hu & Ha).
  destruct (Hu U) as [E _].
  destruct (Ha A "get_episode_content" (or_introl eq_refl)) as [G _].
  destruct (Ha A "mark_episode_complete" (or_intror eq_refl)) as [M _].
  rewrite E, G, M. repeat split.
Defined.

(* ================================================================= *)
(** ** The sample table at work *)

(** Of the sample table, whose artifacts are ready, pending and playing,
    [getPendingArtifacts] returns the ready one. *)
Example pending_of_sample :
  match fst (Store.getPendingArtifacts DEMO_USER_ID Sample.world) with
  | Fulfilled l => map (fun a => (id a, status a)) l
  | Rejected _ => []
  end
  = [("a", ready)].
Proof. vm_compute. reflexivity. Qed.

(** The listing of the sample table, latest first. *)
Example all_of_sample :
  match fst (Store.getAllArtifacts DEMO_USER_ID Sample.world) with
  | Fulfilled l => map id l
  | Rejected _ => []
  end
  = ["b"; "c"; "a"].
Proof. vm_compute. reflexivity. Qed.

(** A content of 101 characters gets a title of 100 and an ellipsis; one
    of 100 is its own title. *)
Example long_title :
  title (ArtifactsRoute.POST_artifact
           (Sample.input idea (Sample.xs 101) None None) Sample.jan2 "u-1")
  = Sample.xs 100 ++ "..."
  /\ title (ArtifactsRoute.POST_artifact
              (Sample.input idea (Sample.xs 100) None None) Sample.jan2 "u-1")
     = Sample.xs 100.
Proof. split; vm_compute; reflexivity. Qed.

(** The pending artifact ["b"] moved to ['playing'] twice: the first move
    stamps it, the second, a day later, keeps the stamp. *)
Example played_twice :
  let first := Store.updateArtifactStatus "b" playing None Sample.jan2
                 Sample.world in
  let second := Store.updateArtifactStatus "b" playing None Sample.jan3
                  (snd first) in
  match fst first, fst second with
  | Fulfilled (Some a1), Fulfilled (Some a2) =>
      (status a1, playedAt a1, playedAt a2)
  | _, _ => (pending, None, None)
  end
  = (playing, Some "2024-01-02T03:04:05.006Z",
     Some "2024-01-02T03:04:05.006Z").
Proof. vm_compute. reflexivity. Qed.

(** An outage while deleting the artifact ["a"]: it stays in the table
    and [DELETE] answers 404. *)
Example delete_during_outage :
  let w := {| table := Sample.rows; faults := [Some Sample.outage];
              completions := [] |} in
  http_status
    match fst (ArtifactRoute.DELETE "a" w) with
    | Fulfilled resp => resp
    | Rejected _ => ArtifactRoute.json_response 0 Js.JNull
    end = 404
  /\ table (snd (ArtifactRoute.DELETE "a" w)) = Sample.rows.
Proof. split; vm_compute; reflexivity. Qed.

(** [add_to_queue] during an outage: [handleToolCall] rejects, and the
    request is answered with the envelope of an internal error. *)
Example add_to_queue_during_outage :
  let w := {| table := []; faults := [Some Sample.outage];
              completions := [] |} in
  fst (Mcp.handleToolCall "add_to_queue" (Sample.args "zz")
         "https://drivetime.example" Sample.jan2 "u-1" w)
  = Rejected (StoreError Sample.outage)
  /\ match fst (Mcp.POST_tools_call (Js.JNumber 7) "add_to_queue"
                  (Sample.args "zz") "https://drivetime.example" Sample.jan2
                  "u-1" w) with
     | Fulfilled resp => Js.get "error" (http_body resp)
     | Rejected _ => None
     end
     = Some (Js.JObject [("code", Js.JNumber (-32603));
                         ("message", Js.JString "Internal error")]).
Proof. split; vm_compute; reflexivity. Qed.

(* ================================================================= *)
(** ** Rows and artifacts *)

(** The two conversions of [store.ts] are inverse to each other: an
    artifact written as a row and read back is the same artifact, and a
    row read as an artifact and written back is the same row. *)
Theorem row_artifact_round_trip (a : Artifact) (r : Row.t) :
  Store.rowToArtifact (Store.artifactToRow a) = a
  /\ Store.artifactToRow (Store.rowToArtifact r) = r.
Proof. destruct a, r. split; reflexivity. Qed.

(* ================================================================= *)
(** ** Saving *)

Section Saving.
Import Supabase Store.

Lemma replace_by_id_cases (row : Row.t) (rows : list Row.t) :
  (replace_by_id row rows = None
   /\ forall r, In r rows -> Row.id r <> Row.id row)
  \/ (exists pre old post,
        rows = (pre ++ old :: post)%list
        /\ Row.id old = Row.id row
        /\ (forall r, In r pre -> Row.id r <> Row.id row)
        /\ replace_by_id row rows = Some (pre ++ row :: post)%list).
Proof.
  induction rows as [|r rows IH]; simpl.
  - left. split; [reflexivity | intros r []].
  - destruct (String.eqb_spec (Row.id r) (Row.id row)) as [E|N].
    + right. exists [], r, rows. simpl. repeat split; trivial.
      intros x [].
    + destruct IH as [[R H]|(pre & old & post & -> & E & H & R)]; rewrite R.
      * left. split; [reflexivity|]. intros x [<-|Hx]; auto.
      * right. exists (r :: pre), old, post. simpl. repeat split; trivial.
        intros x [<-|Hx]; auto.
Qed.

Lemma upserted_cases (row : Row.t) (rows : list Row.t) :
  (upserted row rows = (rows ++ [row])%list
   /\ forall r, In r rows -> Row.id r <> Row.id row)
  \/ (exists pre old post,
        rows = (pre ++ old :: post)%list
        /\ Row.id old = Row.id row
        /\ (forall r, In r pre -> Row.id r <> Row.id row)
        /\ upserted row rows = (pre ++ row :: post)%list).
Proof.
  unfold upserted.
  destruct (replace_by_id_cases row rows)
    as [[R H]|(pre & old & post & E & Eo & H & R)]; rewrite R.
  - left. auto.
  - right. exists pre, old, post. auto.
Qed.

Lemma upserted_ids (row : Row.t) (rows : list Row.t) :
  map Row.id (upserted row rows) = map Row.id rows
  \/ (map Row.id (upserted row rows) = (map Row.id rows ++ [Row.id row])%list
      /\ ~ In (Row.id row) (map Row.id rows)).
Proof.
  destruct (upserted_cases row rows)
    as [[U H]|(pre & old & post & -> & Eo & H & U)]; rewrite U.
  - right. split; [now rewrite map_app|].
    intros I. apply in_map_iff in I as (r & E & Hr). now apply (H r).
  - left. rewrite !map_app. simpl. now rewrite Eo.
Qed.

Lemma upserted_unique (row : Row.t) (rows : list Row.t) :
  unique_ids rows -> unique_ids (upserted row rows).
Proof.
  unfold unique_ids. intros ND.
  destruct (upserted_ids row rows) as [E|[E N]]; rewrite E; trivial.
  apply Permutation_NoDup with (l := Row.id row :: map Row.id rows).
  - apply Permutation_cons_append.
  - now constructor.
Qed.

Lemma filter_none {A} (f : A -> bool) (l : list A) :
  (forall x, In x l -> f x = false) -> filter f l = [].
Proof.
  induction l as [|x l IH]; simpl; intros H; [reflexivity|].
  rewrite (H x) by now left. apply IH. intros y Hy. apply H. now right.
Qed.

Lemma matching_id_false (id : string) (r : Row.t) :
  matching [eq_id id] r = false <-> Row.id r <> id.
Proof.
  simpl. rewrite andb_true_r. apply String.eqb_neq.
Qed.

(** The rows of another identifier are what they were. *)
Lemma rows_of_upserted_other (row : Row.t) (rows : list Row.t) (id : string) :
  id <> Row.id row ->
  filter (matching [eq_id id]) (upserted row rows)
  = filter (matching [eq_id id]) rows.
Proof.
  intros N.
  assert (F : matching [eq_id id] row = false)
    by (apply matching_id_false; congruence).
  destruct (upserted_cases row rows)
    as [[U H]|(pre & old & post & -> & Eo & H & U)]; rewrite U.
  - rewrite filter_app. cbn [filter]. rewrite F. now rewrite app_nil_r.
  - rewrite !filter_app. cbn [filter]. rewrite F.
    assert (F' : matching [eq_id id] old = false)
      by (apply matching_id_false; congruence).
    now rewrite F'.
Qed.

(** The one row of the identifier is the row saved. *)
Lemma rows_of_upserted_same (row : Row.t) (rows : list Row.t) :
  unique_ids rows ->
  filter (matching [eq_id (Row.id row)]) (upserted row rows) = [row].
Proof.
  intros ND.
  assert (T : matching [eq_id (Row.id row)] row = true)
    by now apply matching_id.
  destruct (upserted_cases row rows)
    as [[U H]|(pre & old & post & E & Eo & H & U)]; rewrite U.
  - rewrite filter_app. cbn [filter]. rewrite T.
    rewrite filter_none; [reflexivity|].
    intros r Hr. apply matching_id_false. auto.
  - rewrite filter_app. cbn [filter]. rewrite T.
    rewrite filter_none by (intros r Hr; apply matching_id_false; auto).
    cbn [app]. f_equal. apply filter_none.
    intros r Hr. apply matching_id_false. intros Er.
    unfold unique_ids in ND. rewrite E, map_app in ND. simpl in ND.
    apply NoDup_remove_2 in ND. apply ND. apply in_or_app. right.
    rewrite Eo, <- Er. now apply in_map.
Qed.

Lemma upserted_cons (row r : Row.t) (rows : list Row.t) :
  upserted row (r :: rows)
  = if String.eqb (Row.id r) (Row.id row) then row :: rows
    else r :: upserted row rows.
Proof.
  unfold upserted. simpl.
  destruct (String.eqb (Row.id r) (Row.id row)); [reflexivity|].
  destruct (replace_by_id row rows); reflexivity.
Qed.

Lemma upserted_twice (row : Row.t) (rows : list Row.t) :
  upserted row (upserted row rows) = upserted row rows.
Proof.
  induction rows as [|r rows IH].
  - unfold upserted. simpl. now rewrite String.eqb_refl.
  - rewrite (upserted_cons row r rows).
    destruct (String.eqb (Row.id r) (Row.id row)) eqn:E.
    + rewrite upserted_cons. now rewrite String.eqb_refl.
    + rewrite upserted_cons, E. now rewrite IH.
Qed.

Lemma saveArtifact_ok (a : Artifact) (w : World) :
  hd None (faults w) = None ->
  saveArtifact a w
  = (Fulfilled tt, written (upserted (artifactToRow a) (table w)) w).
Proof.
  intros H. unfold saveArtifact, bind, upsert.
  rewrite (request_ok _ w H). reflexivity.
Qed.

Lemma getArtifact_one (id : string) (w : World) (r : Row.t) :
  hd None (faults w) = None ->
  rows_of id w = [r] ->
  getArtifact id w = (Fulfilled (Some (rowToArtifact r)), advance w).
Proof.
  intros H E. unfold getArtifact, bind, select_single.
  rewrite (request_ok _ w H). simpl.
  unfold rows_of in E. now rewrite E.
Qed.

End Saving.

Section Reading.
Import Supabase Store.

Lemma getArtifact_healthy (id : string) (w : World) :
  hd None (faults w) = None ->
  getArtifact id w = (Fulfilled (one (single (rows_of id w))), advance w).
Proof.
  intros H. unfold getArtifact, bind, select_single.
  now rewrite (request_ok _ w H).
Qed.

Lemma rows_of_unique (w : World) (r : Row.t) :
  unique_ids (table w) -> In r (table w) -> rows_of (Row.id r) w = [r].
Proof.
  unfold unique_ids, rows_of.
  induction (table w) as [|x rows IH]; intros ND []; subst.
  - cbn [filter]. rewrite (proj2 (matching_id (Row.id r) r) eq_refl).
    f_equal. apply filter_none. intros y Hy. apply matching_id_false.
    simpl in ND. apply NoDup_cons_iff in ND as [N _].
    intros E. apply N. rewrite <- E. now apply in_map.
  - simpl in ND. apply NoDup_cons_iff in ND as [N ND].
    cbn [filter].
    assert (F : matching [eq_id (Row.id r)] x = false).
    { apply matching_id_false. intros E. apply N. rewrite E. now apply in_map. }
    rewrite F. now apply IH.
Qed.

End Reading.

(** A save is an upsert by [id] that can be read back.  On a table
    whose identifiers are distinct and a store that answers, [saveArtifact]
    fulfils, keeps the identifiers distinct, and a [getArtifact] of the
    saved identifier then returns the artifact as it was saved, every
    field of it; a [getArtifact] of any other identifier returns what it
    returned before. *)
Theorem save_then_get (a : Artifact) (w : World) :
  unique_ids (table w) ->
  healthy 2 (faults w) ->
  exists w1,
    Store.saveArtifact a w = (Fulfilled tt, w1)
    /\ unique_ids (table w1)
    /\ Store.getArtifact (id a) w1 = (Fulfilled (Some a), advance w1)
    /\ forall other,
         other <> id a ->
         fst (Store.getArtifact other w1) = fst (Store.getArtifact other w).
Proof.
  intros ND (H1 & H2 & _).
  exists (written (upserted (Store.artifactToRow a) (table w)) w).
  split; [now apply saveArtifact_ok|].
  split; [now apply upserted_unique|].
  split.
  - rewrite (getArtifact_one (id a) _ (Store.artifactToRow a)); trivial.
    + now destruct a.
    + unfold rows_of. cbn [table written].
      apply (rows_of_upserted_same (Store.artifactToRow a)). exact ND.
  - intros other N.
    rewrite !getArtifact_healthy by assumption.
    cbn [fst]. unfold rows_of. cbn [table written].
    rewrite (rows_of_upserted_other (Store.artifactToRow a)); trivial.
Qed.

(** The artifact ["b"] of the sample table saved with a summary, and
    read back. *)
Lemma save_then_get_witness :
  let a := {| id := "b"; userId := DEMO_USER_ID; type := idea;
              title := "Buy milk"; rawContent := "Buy milk";
              summary := Some "Milk."; fullAudioText := None;
              sourceUrl := None; imageData := None; status := ready;
              createdAt := "2024-01-02T08:00:00.000Z"; playedAt := None;
              completedAt := None; tags := ["home"];
              dayBucket := "2024-01-02" |} in
  exists w1,
    Store.saveArtifact a Sample.world = (Fulfilled tt, w1)
    /\ fst (Store.getArtifact "b" w1) = Fulfilled (Some a).
Proof.
  cbv zeta.
  edestruct (save_then_get
               {| id := "b"; userId := DEMO_USER_ID; type := idea;
                  title := "Buy milk"; rawContent := "Buy milk";
                  summary := Some "Milk."; fullAudioText := None;
                  sourceUrl := None; imageData := None; status := ready;
                  createdAt := "2024-01-02T08:00:00.000Z"; playedAt := None;
                  completedAt := None; tags := ["home"];
                  dayBucket := "2024-01-02" |} Sample.world)
    as (w1 & S & _ & G & _).
  - unfold unique_ids. simpl.
    repeat (constructor; [simpl; intuition discriminate|]). constructor.
  - simpl. auto.
  - exists w1. split; [exact S|]. simpl in G. now rewrite G.
Defined.

(** A save is idempotent and keeps the table in shape.  A second save of
    the same artifact leaves the table as the first left it; a save of an
    identifier that is in the table keeps the identifiers, in their
    order, and a save of a new identifier adds it at the end; a save the
    store fails leaves the table as it was. *)
Theorem save_is_idempotent_upsert (a : Artifact) (w : World) :
  (healthy 2 (faults w) ->
   exists w1 w2,
     Store.saveArtifact a w = (Fulfilled tt, w1)
     /\ Store.saveArtifact a w1 = (Fulfilled tt, w2)
     /\ table w2 = table w1
     /\ (In (id a) (map Row.id (table w)) ->
         map Row.id (table w1) = map Row.id (table w))
     /\ (~ In (id a) (map Row.id (table w)) ->
         table w1 = (table w ++ [Store.artifactToRow a])%list))
  /\ (forall e, hd None (faults w) = Some e ->
        Store.saveArtifact a w = (Rejected (StoreError e), advance w)).
Proof.
  split.
  - intros (H1 & H2 & _).
    exists (written (upserted (Store.artifactToRow a) (table w)) w).
    eexists. split; [now apply saveArtifact_ok|].
    split; [now apply saveArtifact_ok|].
    cbn [table written]. split; [apply upserted_twice|].
    destruct (upserted_cases (Store.artifactToRow a) (table w))
      as [[U H]|(pre & old & post & E & Eo & H & U)]; split; intros I.
    + exfalso. apply in_map_iff in I as (r & Er & Hr).
      apply (H r Hr). rewrite Er. now destruct a.
    + exact U.
    + rewrite U, E, !map_app. simpl. now rewrite Eo.
    + exfalso. apply I. rewrite E, map_app. apply in_or_app. right.
      left. rewrite Eo. now destruct a.
  - intros e H.
    destruct (saveArtifact_cases a w) as [(H' & _)|(e' & rest & F & S)].
    + congruence.
    + rewrite F in H. simpl in H. injection H as <-. exact S.
Qed.

Lemma save_is_idempotent_upsert_witness :
  exists w1 w2,
    Store.saveArtifact
      (Store.rowToArtifact
         (Sample.row "d" "2024-01-03" "2024-01-03T08:00:00.000Z" pending None))
      Sample.world = (Fulfilled tt, w1)
    /\ Store.saveArtifact
         (Store.rowToArtifact
            (Sample.row "d" "2024-01-03" "2024-01-03T08:00:00.000Z" pending
               None))
         w1 = (Fulfilled tt, w2)
    /\ table w2 = table w1.
Proof.
  destruct (proj1 (save_is_idempotent_upsert
                     (Store.rowToArtifact
                        (Sample.row "d" "2024-01-03"
                           "2024-01-03T08:00:00.000Z" pending None))
                     Sample.world))
    as (w1 & w2 & S1 & S2 & T & _).
  - simpl. auto.
  - exists w1, w2. auto.
Defined.

(* ================================================================= *)
(** ** Deleting *)

Section Deleting.
Import Supabase Store.

Lemma deleteArtifact_ok (id : string) (w : World) :
  hd None (faults w) = None ->
  deleteArtifact id w = (Fulfilled true, written (deleted id (table w)) w).
Proof.
  intros H. unfold deleteArtifact, bind, delete.
  now rewrite (request_ok _ w H).
Qed.

Lemma rows_of_deleted_same (id : string) (rows : list Row.t) :
  filter (matching [eq_id id]) (deleted id rows) = [].
Proof.
  apply filter_none. intros r Hr.
  apply filter_In in Hr as [_ Hr]. now apply negb_true_iff in Hr.
Qed.

Lemma rows_of_deleted_other (id other : string) (rows : list Row.t) :
  other <> id ->
  filter (matching [eq_id other]) (deleted id rows)
  = filter (matching [eq_id other]) rows.
Proof.
  intros N. unfold deleted.
  induction rows as [|r rows IH]; [reflexivity|]. cbn [filter].
  destruct (matching [eq_id id] r) eqn:M; cbn [negb filter].
  - apply matching_id in M.
    assert (F : matching [eq_id other] r = false)
      by (apply matching_id_false; congruence).
    now rewrite F.
  - now rewrite IH.
Qed.

Lemma deleted_unique (id : string) (rows : list Row.t) :
  unique_ids rows -> unique_ids (deleted id rows).
Proof.
  unfold unique_ids, deleted.
  induction rows as [|r rows IH]; simpl; intros ND; [constructor|].
  apply NoDup_cons_iff in ND as [N ND].
  destruct (negb (String.eqb (Row.id r) id && true)); simpl; auto.
  constructor; auto.
  intros I. apply N. apply in_map_iff in I as (x & E & Hx).
  apply filter_In in Hx as [Hx _]. rewrite <- E. now apply in_map.
Qed.

End Deleting.

(** A deletion the store carries out removes the rows of the identifier
    and nothing else: afterwards [getArtifact] of that identifier returns
    [null], every other identifier is read as before, and distinct
    identifiers stay distinct.  It reports [true] whether or not a row
    was there.  A deletion the store fails reports [false] and leaves
    the table as it was. *)
Theorem delete_then_get (id : string) (w : World) :
  (healthy 2 (faults w) ->
   exists w1,
     Store.deleteArtifact id w = (Fulfilled true, w1)
     /\ Store.getArtifact id w1 = (Fulfilled None, advance w1)
     /\ (forall other, other <> id ->
           fst (Store.getArtifact other w1) = fst (Store.getArtifact other w))
     /\ (unique_ids (table w) -> unique_ids (table w1)))
  /\ (forall e, hd None (faults w) = Some e ->
        Store.deleteArtifact id w = (Fulfilled false, advance w)).
Proof.
  split.
  - intros (H1 & H2 & _).
    exists (written (deleted id (table w)) w).
    split; [now apply deleteArtifact_ok|].
    split; [|split].
    + rewrite getArtifact_healthy by exact H2.
      unfold rows_of. cbn [table written].
      now rewrite rows_of_deleted_same.
    + intros other N. rewrite !getArtifact_healthy by assumption.
      unfold rows_of. cbn [fst table written].
      now rewrite rows_of_deleted_other.
    + apply deleted_unique.
  - intros e H. unfold Store.deleteArtifact, bind, Supabase.delete.
    destruct (faults w) as [|[e'|] rest] eqn:F; simpl in H; try discriminate.
    injection H as <-.
    now rewrite (request_fault _ w e' rest F).
Qed.

Lemma delete_then_get_witness :
  exists w1,
    Store.deleteArtifact "a" Sample.world = (Fulfilled true, w1)
    /\ Store.getArtifact "a" w1 = (Fulfilled None, advance w1)
    /\ fst (Store.getArtifact "b" w1)
       = fst (Store.getArtifact "b" Sample.world).
Proof.
  destruct (proj1 (delete_then_get "a" Sample.world)) as (w1 & D & G & O & _).
  - simpl. auto.
  - exists w1. split; [exact D|]. split; [exact G|].
    apply O. discriminate.
Defined.

(* ================================================================= *)
(** ** What a status update writes *)

(** On a store that answers, the status update of the one row of an
    identifier returns an artifact with the new status; moved to
    ['playing'] without a [playedAt] it is stamped with the time of the
    call, and likewise for ['completed'] and [completedAt]; each of
    [summary], [fullAudioText], [title] and [tags] that the patch
    supplies takes the patch's value; and the artifact returned is the
    one stored: a [getArtifact] that follows returns it. *)
Theorem status_update_writes (id : string) (st : ArtifactStatus)
    (patch : option PartialArtifact) (now : Js.Date) (w : World) (r : Row.t) :
  healthy 3 (faults w) ->
  rows_of id w = [r] ->
  exists a w1,
    Store.updateArtifactStatus id st patch now w = (Fulfilled (Some a), w1)
    /\ status a = st
    /\ (st = playing -> Js.truthy (Row.played_at r) = false ->
        playedAt a = Some (Js.toISOString now))
    /\ (st = completed -> Js.truthy (Row.completed_at r) = false ->
        completedAt a = Some (Js.toISOString now))
    /\ (forall v, supplied p_summary patch = Some v -> summary a = Some v)
    /\ (forall v, supplied p_fullAudioText patch = Some v ->
          fullAudioText a = Some v)
    /\ (forall v, supplied p_title patch = Some v -> title a = v)
    /\ (forall v, supplied p_tags patch = Some v -> tags a = v)
    /\ Store.getArtifact id w1 = (Fulfilled (Some a), advance w1).
Proof.
  intros (H1 & H2 & H3 & _) E.
  eexists _, _.
  split; [apply (updateArtifactStatus_found id st patch now w r); simpl; auto|].
  cbn [Store.rowToArtifact status playedAt completedAt summary fullAudioText
       title tags Updates.apply Row.status Row.played_at Row.completed_at
       Row.summary Row.full_audio_text Row.title Row.tags].
  rewrite updates_status, updates_played_at, updates_completed_at,
    updates_summary, updates_full_audio_text, updates_title, updates_tags.
  cbn [Store.rowToArtifact playedAt completedAt].
  split; [reflexivity|].
  split; [intros -> T; rewrite T; reflexivity|].
  split; [intros -> T; rewrite T; reflexivity|].
  split; [intros v ->; reflexivity|].
  split; [intros v ->; reflexivity|].
  split; [intros v ->; reflexivity|].
  split; [intros v ->; reflexivity|].
  match goal with
  | |- Store.getArtifact id ?w1 = (Fulfilled (Some (?f ?row)), _) =>
      apply (getArtifact_one id w1 row)
  end.
  - exact H3.
  - unfold rows_of. cbn [table].
    rewrite rows_of_updated. unfold rows_of in E. now rewrite E.
Qed.

(** The pending artifact ["b"] of the sample table, moved to ['playing']
    with a summary. *)
Lemma status_update_writes_witness :
  exists a w1,
    Store.updateArtifactStatus "b" playing
      (Some {| p_id := None; p_userId := None; p_type := None;
               p_title := None; p_rawContent := None;
               p_summary := Some "Milk."; p_fullAudioText := None;
               p_sourceUrl := None; p_imageData := None; p_status := None;
               p_createdAt := None; p_playedAt := None;
               p_completedAt := None; p_tags := None;
               p_dayBucket := None |})
      Sample.jan3 Sample.world = (Fulfilled (Some a), w1)
    /\ status a = playing
    /\ playedAt a = Some "2024-01-03T09:30:00.000Z"
    /\ summary a = Some "Milk.".
Proof.
  destruct (status_update_writes "b" playing
              (Some {| p_id := None; p_userId := None; p_type := None;
                       p_title := None; p_rawContent := None;
                       p_summary := Some "Milk."; p_fullAudioText := None;
                       p_sourceUrl := None; p_imageData := None;
                       p_status := None; p_createdAt := None;
                       p_playedAt := None; p_completedAt := None;
                       p_tags := None; p_dayBucket := None |})
              Sample.jan3 Sample.world
              (Sample.row "b" "2024-01-02" "2024-01-02T08:00:00.000Z" pending
                 None))
    as (a & w1 & U & Hs & Hp & _ & Hsum & _).
  - simpl. auto.
  - reflexivity.
  - exists a, w1. split; [exact U|]. split; [exact Hs|].
    split; [exact (Hp eq_refl eq_refl) | exact (Hsum _ eq_refl)].
Defined.

(* ================================================================= *)
(** ** Listings *)

Section SortFilter.
Context {A : Type} (cmp : A -> A -> Z).
Hypothesis cmp_total : forall x y, (0 < cmp x y)%Z -> (cmp y x <= 0)%Z.
Hypothesis cmp_trans :
  forall x y z, (cmp x y <= 0)%Z -> (cmp y z <= 0)%Z -> (cmp x z <= 0)%Z.

Let before (x y : A) : Prop := (cmp x y <= 0)%Z.

Lemma sort_strongly_sorted (l : list A) :
  StronglySorted before (Js.sort cmp l).
Proof.
  apply Sorted_StronglySorted.
  - intros x y z. apply cmp_trans.
  - apply sort_sorted with (P := fun _ => True).
    + intros x y _ _ H. exact H.
    + intros x y _ _ H. now apply cmp_total.
    + apply Forall_forall. trivial.
Qed.

Lemma insert_first (x : A) (l : list A) :
  Forall (before x) l -> Js.insert cmp x l = x :: l.
Proof.
  intros H. destruct l as [|y t]; simpl; [reflexivity|].
  inversion H as [|? ? Hy _]; subst.
  apply Z.leb_le in Hy. now rewrite Hy.
Qed.

Lemma filter_cons (p : A -> bool) (x : A) (l : list A) :
  filter p (x :: l) = if p x then x :: filter p l else filter p l.
Proof. reflexivity. Qed.

Lemma Forall_filter_keep (P : A -> Prop) (p : A -> bool) (l : list A) :
  Forall P l -> Forall P (filter p l).
Proof.
  induction 1 as [|z l Hz F IH]; simpl; [constructor|].
  destruct (p z); auto.
Qed.

Lemma filter_insert (p : A -> bool) (x : A) (l : list A) :
  StronglySorted before l ->
  filter p (Js.insert cmp x l)
  = if p x then Js.insert cmp x (filter p l) else filter p l.
Proof.
  induction 1 as [|y t St IH Hy].
  - simpl. destruct (p x); reflexivity.
  - cbn [Js.insert]. destruct (cmp x y <=? 0)%Z eqn:C.
    + apply Z.leb_le in C. rewrite (filter_cons p x (y :: t)).
      destruct (p x); [|reflexivity].
      symmetry. apply insert_first. apply Forall_filter_keep.
      constructor; [exact C|].
      revert Hy. apply Forall_impl. intros z. now apply cmp_trans.
    + rewrite (filter_cons p y), IH, (filter_cons p y t).
      destruct (p y), (p x); try reflexivity.
      cbn [Js.insert]. now rewrite C.
Qed.

Lemma filter_sort (p : A -> bool) (l : list A) :
  filter p (Js.sort cmp l) = Js.sort cmp (filter p l).
Proof.
  induction l as [|x l IH]; [reflexivity|]. simpl.
  rewrite filter_insert by apply sort_strongly_sorted.
  rewrite IH. destruct (p x); reflexivity.
Qed.

End SortFilter.

Section ListingFacts.
Import Supabase Store.

Lemma created_cmp_total (x y : Row.t) :
  (0 < sign (String.compare (Row.created_at y) (Row.created_at x)))%Z ->
  (sign (String.compare (Row.created_at x) (Row.created_at y)) <= 0)%Z.
Proof.
  rewrite (String.compare_antisym (Row.created_at y) (Row.created_at x)).
  destruct (String.compare (Row.created_at x) (Row.created_at y)); simpl; lia.
Qed.

Lemma sign_le_0 (c : comparison) : (sign c <= 0)%Z <-> c <> Gt.
Proof. destruct c; simpl; split; intros; try lia; congruence. Qed.

Lemma string_le_trans (a b c : string) :
  String.compare a b <> Gt -> String.compare b c <> Gt ->
  String.compare a c <> Gt.
Proof.
  intros H1 H2.
  rewrite String.compare_antisym in H1, H2 |- *.
  assert (G1 : String.compare b a <> Lt)
    by (destruct (String.compare b a); simpl in *; congruence).
  assert (G2 : String.compare c b <> Lt)
    by (destruct (String.compare c b); simpl in *; congruence).
  pose proof (string_ge_trans c b a G2 G1) as G.
  destruct (String.compare c a); simpl; congruence.
Qed.

Lemma created_cmp_trans (x y z : Row.t) :
  (sign (String.compare (Row.created_at y) (Row.created_at x)) <= 0)%Z ->
  (sign (String.compare (Row.created_at z) (Row.created_at y)) <= 0)%Z ->
  (sign (String.compare (Row.created_at z) (Row.created_at x)) <= 0)%Z.
Proof.
  intros H1 H2. apply (proj1 (sign_le_0 _)) in H1, H2.
  apply (proj2 (sign_le_0 _)).
  exact (string_le_trans _ _ _ H2 H1).
Qed.

Lemma order_filter (p : Row.t -> bool) (rows : list Row.t) :
  filter p (order_created_at_desc rows)
  = order_created_at_desc (filter p rows).
Proof.
  apply filter_sort.
  - intros x y. apply created_cmp_total.
  - intros x y z. apply created_cmp_trans.
Qed.

Lemma order_latest_first (rows : list Row.t) :
  StronglySorted created_geb (map rowToArtifact (order_created_at_desc rows)).
Proof.
  assert (S : StronglySorted
                (fun x y =>
                   (sign (String.compare (Row.created_at y) (Row.created_at x))
                    <= 0)%Z)
                (order_created_at_desc rows)).
  { apply sort_strongly_sorted.
    - intros x y. apply created_cmp_total.
    - intros x y z. apply created_cmp_trans. }
  induction S as [|x l S IH H]; simpl; constructor; trivial.
  apply Forall_forall. intros a Ha.
  apply in_map_iff in Ha as (y & <- & Hy).
  rewrite Forall_forall in H. specialize (H y Hy).
  apply (proj1 (sign_le_0 _)) in H. unfold created_geb. simpl.
  rewrite String.compare_antisym.
  destruct (String.compare (Row.created_at y) (Row.created_at x));
    simpl; congruence.
Qed.

(** What a listing returns from a store that answers. *)
Lemma listing_healthy (fs : list Filter) (w : World) :
  hd None (faults w) = None ->
  (r <- select_ordered fs ;; ret (many r)) w
  = (Fulfilled
       (map rowToArtifact (order_created_at_desc (filter (matching fs) (table w)))),
     advance w).
Proof.
  intros H. unfold bind, select_ordered.
  now rewrite (request_ok _ w H).
Qed.

(** A listing is in order whatever the store does. *)
Lemma listing_sorted (fs : list Filter) (w : World) :
  exists l,
    (r <- select_ordered fs ;; ret (many r)) w = (Fulfilled l, advance w)
    /\ StronglySorted created_geb l.
Proof.
  destruct (faults_cases w) as [H|(e & rest & H)].
  - rewrite listing_healthy by exact H.
    eexists. split; [reflexivity | apply order_latest_first].
  - unfold bind, select_ordered. rewrite (request_fault _ w e rest H).
    exists []. split; [reflexivity | constructor].
Qed.

End ListingFacts.

(** The three listings return the latest artifact first: in what
    [getAllArtifacts], [getArtifactsByDay] and [getArtifactsByStatus]
    return, every artifact has a [createdAt] at least that of every
    artifact after it, in every world. *)
Theorem listings_latest_first (user day : string) (st : ArtifactStatus)
    (w : World) :
  (exists l, Store.getAllArtifacts user w = (Fulfilled l, advance w)
             /\ StronglySorted created_geb l)
  /\ (exists l, Store.getArtifactsByDay user day w = (Fulfilled l, advance w)
                /\ StronglySorted created_geb l)
  /\ (exists l, Store.getArtifactsByStatus user st w = (Fulfilled l, advance w)
                /\ StronglySorted created_geb l).
Proof.
  split; [|split]; apply listing_sorted.
Qed.

Section LatestFirst.
Import Supabase Store.

Lemma created_geb_antisym (a b : Artifact) :
  created_geb a b -> created_geb b a -> createdAt a = createdAt b.
Proof.
  unfold created_geb. intros H1 H2.
  rewrite String.compare_antisym in H2.
  apply String.compare_eq_iff.
  destruct (String.compare (createdAt a) (createdAt b)); simpl in *;
    congruence.
Qed.

(** Among artifacts of distinct creation times, the time tells the
    artifact. *)
Lemma time_tells_artifact (l : list Artifact) (x y : Artifact) :
  NoDup (map createdAt l) -> In x l -> In y l ->
  createdAt x = createdAt y -> x = y.
Proof.
  induction l as [|z l IH]; simpl; [contradiction|].
  intros ND Hx Hy E. inversion ND as [|? ? Hz ND']; subst.
  destruct Hx as [->|Hx], Hy as [->|Hy]; trivial.
  - exfalso. apply Hz. rewrite E. now apply (in_map createdAt).
  - exfalso. apply Hz. rewrite <- E. now apply (in_map createdAt).
  - now apply IH.
Qed.

Lemma distinct_filter (p : Artifact -> bool) (l : list Artifact) :
  NoDup (map createdAt l) -> NoDup (map createdAt (filter p l)).
Proof.
  induction l as [|z l IH]; simpl; [trivial|].
  intros ND. inversion ND as [|? ? Hz ND']; subst.
  destruct (p z); simpl; [|now apply IH].
  constructor; [|now apply IH].
  intros I. apply Hz. apply in_map_iff in I as (y & E & Hy).
  apply filter_In in Hy as [Hy _]. rewrite <- E.
  now apply (in_map createdAt).
Qed.

Lemma latest_first_filter (p : Artifact -> bool) (l : list Artifact) :
  StronglySorted created_geb l -> StronglySorted created_geb (filter p l).
Proof.
  induction 1 as [|x l S IH F]; simpl; [constructor|].
  destruct (p x); [|exact IH].
  constructor; [exact IH|].
  apply Forall_forall. intros y Hy. apply filter_In in Hy as [Hy _].
  rewrite Forall_forall in F. now apply F.
Qed.

(** Artifacts of distinct creation times have one order latest first:
    whatever a sort does with ties, two listings of the same artifacts
    are then the same list. *)
Lemma latest_first_unique (l1 l2 : list Artifact) :
  NoDup (map createdAt l1) -> Permutation l1 l2 ->
  StronglySorted created_geb l1 -> StronglySorted created_geb l2 ->
  l1 = l2.
Proof.
  revert l2. induction l1 as [|a l1 IH]; intros l2 ND P S1 S2.
  - apply Permutation_nil in P. now subst.
  - destruct l2 as [|b l2].
    { apply Permutation_sym, Permutation_nil in P. discriminate. }
    assert (E : a = b).
    { assert (Ia : In a (b :: l2))
        by (apply (Permutation_in _ P); now left).
      assert (Ib : In b (a :: l1))
        by (apply (Permutation_in _ (Permutation_sym P)); now left).
      destruct Ia as [Ia|Ia]; [now subst|].
      destruct Ib as [Ib|Ib]; [now subst|].
      inversion S1 as [|? ? _ F1]; subst.
      inversion S2 as [|? ? _ F2]; subst.
      rewrite Forall_forall in F1, F2.
      apply (time_tells_artifact (a :: l1)); trivial.
      - now left.
      - now right.
      - apply created_geb_antisym; [now apply F1 | now apply F2]. }
    subst b. f_equal.
    inversion ND; subst. inversion S1; subst. inversion S2; subst.
    apply IH; trivial. now apply Permutation_cons_inv in P.
Qed.

Lemma map_createdAt_rows (rows : list Row.t) :
  map createdAt (map rowToArtifact rows) = map Row.created_at rows.
Proof.
  rewrite map_map. apply map_ext. intros r. reflexivity.
Qed.

(** The listing of a user whose rows have distinct creation times holds
    no two artifacts of the same [createdAt]. *)
Lemma listing_distinct (user : string) (rows : list Row.t) (all : list Artifact) :
  distinct_times user rows ->
  Permutation all (map rowToArtifact (filter (row_of_user user) rows)) ->
  NoDup (map createdAt all).
Proof.
  intros D P.
  apply (Permutation_NoDup
           (l := map createdAt
                   (map rowToArtifact (filter (row_of_user user) rows)))).
  - symmetry. now apply Permutation_map.
  - rewrite map_createdAt_rows. exact D.
Qed.

Lemma filter_map_rows (p : Artifact -> bool) (rows : list Row.t) :
  filter p (map rowToArtifact rows)
  = map rowToArtifact (filter (fun r => p (rowToArtifact r)) rows).
Proof.
  induction rows as [|r rows IH]; [reflexivity|].
  simpl. destruct (p (rowToArtifact r)); simpl; now rewrite IH.
Qed.

Lemma matching_user (user : string) (rows : list Row.t) :
  filter (matching [eq_user_id user]) rows = filter (row_of_user user) rows.
Proof.
  apply filter_ext. intros r. simpl. apply andb_true_r.
Qed.

Lemma matching_user_status (user : string) (st : ArtifactStatus)
    (rows : list Row.t) :
  filter (matching [eq_user_id user; eq_status st]) rows
  = filter (row_in_status user st) rows.
Proof.
  apply filter_ext. intros r. simpl. unfold row_in_status.
  now rewrite andb_true_r.
Qed.

Lemma filter_status_user (user : string) (st : ArtifactStatus)
    (rows : list Row.t) :
  filter (fun r => status_eqb (Row.status r) st) (filter (row_of_user user) rows)
  = filter (row_in_status user st) rows.
Proof.
  induction rows as [|r rows IH]; [reflexivity|].
  simpl. unfold row_of_user at 1, row_in_status at 1.
  destruct (String.eqb (Row.user_id r) user); simpl; rewrite ?IH; trivial.
Qed.

Lemma matching_user_day (user day : string) (rows : list Row.t) :
  filter (matching [eq_user_id user; eq_day_bucket day]) rows
  = filter (row_of_day user day) rows.
Proof.
  apply filter_ext. intros r. simpl. unfold row_of_day.
  now rewrite andb_true_r.
Qed.

Lemma filter_rows_day (day : string) (rows : list Row.t) :
  of_day day (map rowToArtifact rows)
  = map rowToArtifact
      (filter (fun r => String.eqb (Row.day_bucket r) day) rows).
Proof.
  unfold of_day. induction rows as [|r rows IH]; [reflexivity|].
  simpl. destruct (String.eqb (Row.day_bucket r) day); simpl; now rewrite IH.
Qed.

Lemma filter_day_user (user day : string) (rows : list Row.t) :
  filter (fun r => String.eqb (Row.day_bucket r) day)
    (filter (row_of_user user) rows)
  = filter (row_of_day user day) rows.
Proof.
  induction rows as [|r rows IH]; [reflexivity|].
  simpl. unfold row_of_user at 1, row_of_day at 1.
  destruct (String.eqb (Row.user_id r) user); simpl; rewrite ?IH; trivial.
Qed.

(** The listing of a day holds the artifacts of that day of the user's
    listing. *)
Lemma by_day_perm (user day : string) (rows : list Row.t) :
  Permutation
    (map rowToArtifact
       (order_created_at_desc (filter (row_of_day user day) rows)))
    (of_day day
       (map rowToArtifact
          (order_created_at_desc (filter (row_of_user user) rows)))).
Proof.
  rewrite filter_rows_day. apply Permutation_map.
  rewrite <- filter_day_user.
  transitivity (filter (fun r => String.eqb (Row.day_bucket r) day)
                  (filter (row_of_user user) rows)).
  - apply sort_perm.
  - rewrite order_filter. symmetry. apply sort_perm.
Qed.

(** The listing of a status holds the artifacts in that status of the
    user's listing. *)
Lemma by_status_perm (user : string) (st : ArtifactStatus) (rows : list Row.t) :
  Permutation
    (map rowToArtifact
       (order_created_at_desc (filter (row_in_status user st) rows)))
    (in_status st
       (map rowToArtifact
          (order_created_at_desc (filter (row_of_user user) rows)))).
Proof.
  unfold in_status. rewrite filter_map_rows.
  cbn [rowToArtifact status]. apply Permutation_map.
  rewrite <- filter_status_user.
  transitivity (filter (fun r => status_eqb (Row.status r) st)
                  (filter (row_of_user user) rows)).
  - apply sort_perm.
  - rewrite order_filter. symmetry. apply sort_perm.
Qed.

End LatestFirst.

(** From a store that answers, a listing returns exactly the rows it
    asks for, each once: [getAllArtifacts] the rows of the user,
    [getArtifactsByDay] those of the user and the day,
    [getArtifactsByStatus] those of the user and the status.  The two
    narrower listings hold the artifacts of the user's listing of that
    day, or in that status, and both are latest first; when the user's
    rows were created at distinct times, they are the user's listing,
    filtered, in the same order. *)
Theorem listings_exact (user day : string) (st : ArtifactStatus) (w : World) :
  hd None (faults w) = None ->
  exists all byDay byStatus,
    Store.getAllArtifacts user w = (Fulfilled all, advance w)
    /\ Store.getArtifactsByDay user day w = (Fulfilled byDay, advance w)
    /\ Store.getArtifactsByStatus user st w = (Fulfilled byStatus, advance w)
    /\ Permutation all
         (map Store.rowToArtifact (filter (row_of_user user) (table w)))
    /\ Permutation byDay
         (map Store.rowToArtifact (filter (row_of_day user day) (table w)))
    /\ Permutation byStatus
         (map Store.rowToArtifact (filter (row_in_status user st) (table w)))
    /\ Permutation byDay (of_day day all)
    /\ Permutation byStatus (in_status st all)
    /\ StronglySorted created_geb byDay
    /\ StronglySorted created_geb (of_day day all)
    /\ StronglySorted created_geb byStatus
    /\ StronglySorted created_geb (in_status st all)
    /\ (distinct_times user (table w) ->
        byDay = of_day day all /\ byStatus = in_status st all).
Proof.
  intros H.
  unfold Store.getAllArtifacts, Store.getArtifactsByDay,
    Store.getArtifactsByStatus.
  rewrite !listing_healthy by exact H.
  rewrite matching_user, matching_user_day, matching_user_status.
  eexists _, _, _. split; [reflexivity|]. split; [reflexivity|].
  split; [reflexivity|].
  assert (Pa : Permutation
                 (map Store.rowToArtifact
                    (Supabase.order_created_at_desc
                       (filter (row_of_user user) (table w))))
                 (map Store.rowToArtifact
                    (filter (row_of_user user) (table w))))
    by apply Permutation_map, sort_perm.
  assert (Pd : Permutation
                 (map Store.rowToArtifact
                    (Supabase.order_created_at_desc
                       (filter (row_of_day user day) (table w))))
                 (of_day day
                    (map Store.rowToArtifact
                       (Supabase.order_created_at_desc
                          (filter (row_of_user user) (table w))))))
    by apply by_day_perm.
  assert (Ps : Permutation
                 (map Store.rowToArtifact
                    (Supabase.order_created_at_desc
                       (filter (row_in_status user st) (table w))))
                 (in_status st
                    (map Store.rowToArtifact
                       (Supabase.order_created_at_desc
                          (filter (row_of_user user) (table w)))))).
  { unfold in_status. rewrite filter_map_rows.
    cbn [Store.rowToArtifact status]. apply Permutation_map.
    rewrite <- filter_status_user.
    transitivity (filter (fun r => status_eqb (Row.status r) st)
                    (filter (row_of_user user) (table w))).
    - apply sort_perm.
    - rewrite order_filter. symmetry. apply sort_perm. }
  assert (Sd : StronglySorted created_geb
                 (of_day day
                    (map Store.rowToArtifact
                       (Supabase.order_created_at_desc
                          (filter (row_of_user user) (table w))))))
    by apply latest_first_filter, order_latest_first.
  assert (Ss : StronglySorted created_geb
                 (in_status st
                    (map Store.rowToArtifact
                       (Supabase.order_created_at_desc
                          (filter (row_of_user user) (table w))))))
    by apply latest_first_filter, order_latest_first.
  split; [exact Pa|].
  split; [apply Permutation_map, sort_perm|].
  split; [apply Permutation_map, sort_perm|].
  split; [exact Pd|]. split; [exact Ps|].
  split; [apply order_latest_first|]. split; [exact Sd|].
  split; [apply order_latest_first|]. split; [exact Ss|].
  intros D. pose proof (listing_distinct user (table w) _ D Pa) as ND.
  split; symmetry.
  - apply latest_first_unique; trivial.
    + now apply distinct_filter.
    + now symmetry.
    + apply order_latest_first.
  - apply latest_first_unique; trivial.
    + now apply distinct_filter.
    + now symmetry.
    + apply order_latest_first.
Qed.

Lemma listings_exact_witness :
  exists all byStatus,
    Store.getAllArtifacts DEMO_USER_ID Sample.world
    = (Fulfilled all, advance Sample.world)
    /\ Store.getArtifactsByStatus DEMO_USER_ID ready Sample.world
       = (Fulfilled byStatus, advance Sample.world)
    /\ byStatus = in_status ready all.
Proof.
  destruct (listings_exact DEMO_USER_ID "2024-01-01" ready Sample.world
              eq_refl)
    as (all & byDay & byStatus & A & _ & S & _ & _ & _ & _ & _ & _ & _ & _
        & _ & E).
  exists all, byStatus. split; [exact A|]. split; [exact S|].
  apply E. unfold distinct_times. simpl.
  repeat (constructor; [simpl; intuition discriminate|]). constructor.
Defined.

(* ================================================================= *)
(** ** Day groups as a partition *)

Section Partition.
Import Supabase Store.

Lemma bucket_cons (k : string) (v : list Artifact) (g : Groups) (a : Artifact) :
  bucket ((k, v) :: g) a
  = if String.eqb k (dayBucket a) then (k, (v ++ [a])%list) :: g
    else (k, v) :: bucket g a.
Proof.
  unfold bucket. simpl.
  destruct (String.eqb k (dayBucket a)); reflexivity.
Qed.

Lemma bucket_sizes (g : Groups) (a : Artifact) :
  group_sizes (bucket g a) = S (group_sizes g).
Proof.
  induction g as [|[k v] g IH].
  - reflexivity.
  - rewrite bucket_cons. unfold group_sizes in *.
    destruct (String.eqb k (dayBucket a)); simpl.
    + rewrite length_app. simpl. lia.
    + rewrite IH. lia.
Qed.

Lemma fold_bucket_sizes (l : list Artifact) (g : Groups) :
  group_sizes (fold_left bucket l g) = group_sizes g + List.length l.
Proof.
  revert g; induction l as [|a l IH]; intros g; simpl; [lia|].
  rewrite IH, bucket_sizes. lia.
Qed.

Lemma map_date_dayGroup (g : Groups) :
  map date (map dayGroup g) = map fst g.
Proof.
  induction g as [|[d arts] g IH]; simpl; [reflexivity|]. now rewrite IH.
Qed.

Lemma map_total_dayGroup (g : Groups) :
  list_sum (map (fun x => total (stats x)) (map dayGroup g)) = group_sizes g.
Proof.
  unfold group_sizes.
  induction g as [|[d arts] g IH]; simpl; [reflexivity|]. now rewrite IH.
Qed.

Lemma list_sum_perm (l l' : list nat) :
  Permutation l l' -> list_sum l = list_sum l'.
Proof.
  induction 1; simpl; lia.
Qed.

End Partition.

(** The day groups partition the user's artifacts: the dates of the
    groups are distinct, no group is empty, every artifact of the user is
    in the group of its day and every artifact of a group is one of the
    user's of that day, and the totals add up to the number of artifacts;
    without artifacts, or when the store fails, there is no group. *)
Theorem day_groups_partition (localeCompare : string -> string -> Z)
    (user : string) (w : World) :
  exists all gs,
    Store.getAllArtifacts user w = (Fulfilled all, advance w)
    /\ Store.getDayGroups localeCompare user w = (Fulfilled gs, advance w)
    /\ NoDup (map date gs)
    /\ (forall a, In a all ->
          exists g, In g gs /\ date g = dayBucket a /\ In a (artifacts g))
    /\ (forall g, In g gs ->
          artifacts g <> []
          /\ forall a, In a (artifacts g) -> In a all /\ dayBucket a = date g)
    /\ list_sum (map (fun g => total (stats g)) gs) = List.length all
    /\ (all = [] -> gs = [])
    /\ ((exists e, hd None (faults w) = Some e) -> gs = []).
Proof.
  destruct (getAllArtifacts_total user w) as (all & E & _).
  exists all, (Store.groupDays localeCompare all).
  split; [exact E|]. split; [now apply getDayGroups_run|].
  destruct (groups_grouped all) as (ND & Harts & Hkeys & Hfrom).
  assert (P : Permutation (Store.groupDays localeCompare all)
                (map Store.dayGroup (fold_left Store.bucket all [])))
    by apply sort_perm.
  split; [|split; [|split; [|split; [|split]]]].
  - apply Permutation_NoDup with (l := map fst (fold_left Store.bucket all [])).
    + rewrite <- map_date_dayGroup. symmetry. now apply Permutation_map.
    + exact ND.
  - intros a Ha. specialize (Hkeys a Ha).
    apply in_map_iff in Hkeys as ([d arts] & Ed & He). simpl in Ed. subst d.
    exists (Store.dayGroup (dayBucket a, arts)). split; [|split].
    + apply (Permutation_in _ (Permutation_sym P)). now apply in_map.
    + reflexivity.
    + simpl. rewrite (Harts _ _ He). apply filter_In.
      split; [exact Ha | apply String.eqb_refl].
  - intros g Hg. apply in_groupDays in Hg as ([d arts] & He & ->). simpl.
    pose proof (Harts d arts He) as Ea. split.
    + destruct (Hfrom d) as (a & Ha & Ed).
      { apply (in_map fst) in He. exact He. }
      intros N. rewrite N in Ea.
      assert (I : In a (of_day d all))
        by (apply filter_In; split; [exact Ha | now apply String.eqb_eq]).
      rewrite <- Ea in I. contradiction.
    + intros a Ha. rewrite Ea in Ha. apply filter_In in Ha as [Ha Ed].
      apply String.eqb_eq in Ed. auto.
  - rewrite (list_sum_perm _ _ (Permutation_map _ P)).
    rewrite map_total_dayGroup, fold_bucket_sizes. reflexivity.
  - intros ->. reflexivity.
  - intros (e & He).
    destruct (faults w) as [|[e'|] rest] eqn:F; simpl in He; try discriminate.
    unfold Store.getAllArtifacts, bind, Supabase.select_ordered in E.
    rewrite (request_fault _ w e' rest F) in E. simpl in E.
    injection E as <-. reflexivity.
Qed.

Lemma day_groups_partition_witness :
  exists gs,
    fst (Store.getDayGroups Sample.codeUnitCompare DEMO_USER_ID
           {| table := Sample.rows; faults := [Some Sample.outage];
              completions := [] |})
    = Fulfilled gs
    /\ gs = [].
Proof.
  destruct (day_groups_partition Sample.codeUnitCompare DEMO_USER_ID
              {| table := Sample.rows; faults := [Some Sample.outage];
                 completions := [] |})
    as (all & gs & _ & G & _ & _ & _ & _ & _ & F).
  exists gs. split; [now rewrite G|].
  apply F. exists Sample.outage. reflexivity.
Defined.

Lemma matching_two (f1 f2 : Supabase.Filter) (rows : list Row.t) :
  filter (Supabase.matching [f1; f2]) rows
  = filter (Supabase.holds f2) (filter (Supabase.matching [f1]) rows).
Proof.
  induction rows as [|r rows IH]; [reflexivity|].
  cbn [filter Supabase.matching forallb].
  destruct (Supabase.holds f1 r); cbn [andb filter].
  - destruct (Supabase.holds f2 r); cbn [andb]; now rewrite <- IH.
  - exact IH.
Qed.

(** A day group holds what [getArtifactsByDay] returns for its date:
    from a store that answers, every group of [getDayGroups] has the
    artifacts that [getArtifactsByDay] returns for that user and the
    group's date, both latest first; when the user's rows were created
    at distinct times, the two are the same list. *)
Theorem day_group_is_listing_by_day (localeCompare : string -> string -> Z)
    (user : string) (w : World) :
  hd None (faults w) = None ->
  exists gs,
    Store.getDayGroups localeCompare user w = (Fulfilled gs, advance w)
    /\ forall g, In g gs ->
         exists byDay,
           Store.getArtifactsByDay user (date g) w
           = (Fulfilled byDay, advance w)
           /\ Permutation byDay (artifacts g)
           /\ StronglySorted created_geb byDay
           /\ StronglySorted created_geb (artifacts g)
           /\ (distinct_times user (table w) -> byDay = artifacts g).
Proof.
  intros H.
  assert (A : Store.getAllArtifacts user w
              = (Fulfilled
                   (map Store.rowToArtifact
                      (Supabase.order_created_at_desc
                         (filter (row_of_user user) (table w)))),
                 advance w)).
  { unfold Store.getAllArtifacts. rewrite listing_healthy by exact H.
    now rewrite matching_user. }
  eexists. split; [apply getDayGroups_run; exact A|].
  intros g Hg. apply in_groupDays in Hg as ([d arts] & He & ->).
  destruct (groups_grouped
              (map Store.rowToArtifact
                 (Supabase.order_created_at_desc
                    (filter (row_of_user user) (table w)))))
    as (_ & Harts & _).
  cbn [date artifacts Store.dayGroup]. rewrite (Harts d arts He).
  unfold Store.getArtifactsByDay. rewrite listing_healthy by exact H.
  rewrite matching_user_day.
  eexists. split; [reflexivity|].
  assert (S : StronglySorted created_geb
                (of_day d
                   (map Store.rowToArtifact
                      (Supabase.order_created_at_desc
                         (filter (row_of_user user) (table w))))))
    by apply latest_first_filter, order_latest_first.
  split; [apply by_day_perm|].
  split; [apply order_latest_first|].
  split; [exact S|].
  intros D. symmetry. apply latest_first_unique; trivial.
  - apply distinct_filter.
    apply (listing_distinct user (table w)); [exact D|].
    apply Permutation_map, sort_perm.
  - symmetry. apply by_day_perm.
  - apply order_latest_first.
Qed.

Lemma day_group_is_listing_by_day_witness :
  exists gs,
    Store.getDayGroups Sample.codeUnitCompare DEMO_USER_ID Sample.world
    = (Fulfilled gs, advance Sample.world)
    /\ forall g, In g gs ->
         Store.getArtifactsByDay DEMO_USER_ID (date g) Sample.world
         = (Fulfilled (artifacts g), advance Sample.world).
Proof.
  destruct (day_group_is_listing_by_day Sample.codeUnitCompare DEMO_USER_ID
              Sample.world eq_refl)
    as (gs & G & Hg).
  exists gs. split; [exact G|].
  intros g I. destruct (Hg g I) as (byDay & B & _ & _ & _ & E).
  rewrite B. rewrite E; [reflexivity|].
  unfold distinct_times. simpl.
  repeat (constructor; [simpl; intuition discriminate|]). constructor.
Defined.

(* ================================================================= *)
(** ** The routes *)

(** [GET /api/artifacts] always answers 200 and never writes: it lists
    the artifacts in one round trip and groups those of a second one.
    When the store answers both, the groups are the groups of the
    artifacts listed. *)
Theorem artifacts_index_answers (localeCompare : string -> string -> Z)
    (w : World) :
  exists all again,
    Store.getAllArtifacts DEMO_USER_ID w = (Fulfilled all, advance w)
    /\ Store.getAllArtifacts DEMO_USER_ID (advance w)
       = (Fulfilled again, advance (advance w))
    /\ ArtifactsIndex.GET localeCompare w
       = (Fulfilled
            {| http_status := 200;
               http_body :=
                 ArtifactsIndex.listing_body all
                   (Store.groupDays localeCompare again);
               http_headers := ArtifactsRoute.corsHeaders |},
          advance (advance w))
    /\ (healthy 2 (faults w) -> again = all).
Proof.
  destruct (getAllArtifacts_total DEMO_USER_ID w) as (all & E1 & _).
  destruct (getAllArtifacts_total DEMO_USER_ID (advance w)) as (again & E2 & _).
  exists all, again. split; [exact E1|]. split; [exact E2|]. split.
  - unfold ArtifactsIndex.GET, try_catch, bind. rewrite E1.
    rewrite (getDayGroups_run localeCompare _ _ _ E2). reflexivity.
  - intros (H1 & H2 & _).
    unfold Store.getAllArtifacts in E1, E2.
    rewrite listing_healthy in E1 by exact H1.
    rewrite listing_healthy in E2 by exact H2.
    injection E1 as <-. injection E2 as <-. reflexivity.
Qed.

Lemma artifacts_index_answers_witness :
  exists all,
    ArtifactsIndex.GET Sample.codeUnitCompare Sample.world
    = (Fulfilled
         {| http_status := 200;
            http_body :=
              ArtifactsIndex.listing_body all
                (Store.groupDays Sample.codeUnitCompare all);
            http_headers := ArtifactsRoute.corsHeaders |},
       advance (advance Sample.world)).
Proof.
  destruct (artifacts_index_answers Sample.codeUnitCompare Sample.world)
    as (all & again & _ & _ & G & E).
  exists all. rewrite G. rewrite (E ltac:(simpl; auto)). reflexivity.
Defined.

Section IdRoute.
Import Supabase Store.

Lemma updateArtifactStatus_total (id : string) (st : ArtifactStatus)
    (patch : option PartialArtifact) (now : Js.Date) (w : World) :
  exists v w', updateArtifactStatus id st patch now w = (Fulfilled v, w').
Proof.
  destruct (updateArtifactStatus_cases id st patch now w)
    as [[N _]|(r & _ & _ & U)].
  - destruct (updateArtifactStatus id st patch now w) as [res w'].
    simpl in N. subst res. eauto.
  - cbv zeta in U. rewrite U. eauto.
Qed.

Lemma getArtifact_fault (id : string) (w : World) (e : PostgrestError) :
  hd None (faults w) = Some e ->
  getArtifact id w = (Fulfilled None, advance w).
Proof.
  intros H.
  destruct (getArtifact_cases id w) as [[G _]|(r & _ & H' & _)];
    [exact G | congruence].
Qed.

End IdRoute.

(** The handlers of [/api/artifacts/{id}].  [GET] and [DELETE], which
    read no body, answer 200 or 404 and never 500: the store functions
    they call do not throw; [GET] never writes.  [PATCH] answers 500
    exactly when its body is not JSON or is [null], and then without a
    round trip to the store; on a body [{ status, ...fields }] it
    answers 200 or 404.  For an identifier that is not in the table [GET]
    and [PATCH] answer 404 and the table is as before; and when the store
    fails all three answer 404, so that an outage reads as
    ['Artifact not found']. *)
Theorem id_route_answers (id : string) (body : ArtifactRoute.PatchBody)
    (st : ArtifactStatus) (patch : PartialArtifact) (now : Js.Date)
    (w : World) :
  (exists resp w',
      ArtifactRoute.GET id w = (Fulfilled resp, w')
      /\ (http_status resp = 200 \/ http_status resp = 404)
      /\ table w' = table w)
  /\ (exists resp w',
        ArtifactRoute.PATCH id body now w = (Fulfilled resp, w')
        /\ (http_status resp = 200 \/ http_status resp = 404
            \/ http_status resp = 500)
        /\ (http_status resp = 500 <->
            body = ArtifactRoute.JsonNull
            \/ exists msg, body = ArtifactRoute.NotJson msg)
        /\ (http_status resp = 500 ->
            w' = w
            /\ http_body resp
               = ArtifactRoute.error_body "Failed to update artifact"))
  /\ (exists resp w',
        ArtifactRoute.DELETE id w = (Fulfilled resp, w')
        /\ (http_status resp = 200 \/ http_status resp = 404))
  /\ (~ present id w ->
      ArtifactRoute.GET id w
      = (Fulfilled (ArtifactRoute.json_response 404
                      (ArtifactRoute.error_body "Artifact not found")),
         advance w)
      /\ ArtifactRoute.PATCH id (ArtifactRoute.JsonObject st patch) now w
         = (Fulfilled (ArtifactRoute.json_response 404
                         (ArtifactRoute.error_body "Artifact not found")),
            advance w))
  /\ (forall e, hd None (faults w) = Some e ->
        ArtifactRoute.GET id w
        = (Fulfilled (ArtifactRoute.json_response 404
                        (ArtifactRoute.error_body "Artifact not found")),
           advance w)
        /\ ArtifactRoute.PATCH id (ArtifactRoute.JsonObject st patch) now w
           = (Fulfilled (ArtifactRoute.json_response 404
                           (ArtifactRoute.error_body "Artifact not found")),
              advance w)
        /\ ArtifactRoute.DELETE id w
           = (Fulfilled (ArtifactRoute.json_response 404
                           (ArtifactRoute.error_body "Artifact not found")),
              advance w)).
Proof.
  split; [|split; [|split; [|split]]].
  - unfold ArtifactRoute.GET, try_catch, bind.
    destruct (getArtifact_cases id w) as [[G _]|(r & _ & _ & G)]; rewrite G;
      eexists _, _; (split; [reflexivity|]); simpl; auto.
  - destruct body as [msg| |st' patch'].
    + eexists _, _. split; [reflexivity|]. simpl.
      split; [auto|]. split; [|auto].
      split; [intros _; right; now exists msg | reflexivity].
    + eexists _, _. split; [reflexivity|]. simpl.
      split; [auto|]. split; [|auto].
      split; [intros _; now left | reflexivity].
    + unfold ArtifactRoute.PATCH, try_catch, bind at 1.
      cbn [ArtifactRoute.request_json ret]. unfold bind.
      destruct (updateArtifactStatus_total id st' (Some patch') now w)
        as ([a|] & w' & U); rewrite U;
        eexists _, _; (split; [reflexivity|]); simpl;
        (split; [auto|]); (split; [|intros N; discriminate]);
        (split; [intros N; discriminate|]);
        intros [N|(msg & N)]; discriminate.
  - unfold ArtifactRoute.DELETE, try_catch, bind, Store.deleteArtifact, bind,
      Supabase.delete.
    destruct (faults_cases w) as [H|(e & rest & H)].
    + rewrite (request_ok _ w H). simpl.
      eexists _, _. split; [reflexivity|]. simpl. auto.
    + rewrite (request_fault _ w e rest H). simpl.
      eexists _, _. split; [reflexivity|]. simpl. auto.
  - intros A. split.
    + unfold ArtifactRoute.GET, try_catch, bind.
      now rewrite getArtifact_absent.
    + unfold ArtifactRoute.PATCH, try_catch, bind at 1.
      cbn [ArtifactRoute.request_json ret]. unfold bind.
      now rewrite updateArtifactStatus_absent.
  - intros e H. split; [|split].
    + unfold ArtifactRoute.GET, try_catch, bind.
      now rewrite (getArtifact_fault id w e H).
    + unfold ArtifactRoute.PATCH, try_catch, bind at 1.
      cbn [ArtifactRoute.request_json ret].
      unfold Store.updateArtifactStatus, bind.
      now rewrite (getArtifact_fault id w e H).
    + unfold ArtifactRoute.DELETE, try_catch, bind, Store.deleteArtifact, bind,
        Supabase.delete.
      destruct (faults w) as [|[e'|] rest] eqn:F; simpl in H;
        try discriminate.
      now rewrite (request_fault _ w e' rest F).
Qed.

Lemma id_route_answers_witness :
  let w := {| table := Sample.rows; faults := [Some Sample.outage];
              completions := [] |} in
  fst (ArtifactRoute.GET "a" w)
  = Fulfilled (ArtifactRoute.json_response 404
                 (ArtifactRoute.error_body "Artifact not found"))
  /\ fst (ArtifactRoute.GET "missing" Sample.world)
     = Fulfilled (ArtifactRoute.json_response 404
                    (ArtifactRoute.error_body "Artifact not found")).
Proof.
  cbv zeta.
  destruct (id_route_answers "a" ArtifactRoute.JsonNull ready
              DrivePage.no_fields Sample.jan2
              {| table := Sample.rows; faults := [Some Sample.outage];
                 completions := [] |})
    as (_ & _ & _ & _ & Hf).
  destruct (Hf Sample.outage eq_refl) as (G & _).
  destruct (id_route_answers "missing" ArtifactRoute.JsonNull ready
              DrivePage.no_fields Sample.jan2 Sample.world)
    as (_ & _ & _ & Ha & _).
  destruct Ha as (G' & _).
  - intros (r & Hr & Hid). simpl in Hr.
    repeat (destruct Hr as [<-|Hr]; [discriminate|]). contradiction.
  - rewrite G, G'. split; reflexivity.
Defined.

(** An artifact created by [POST /api/artifacts] can be fetched by its
    identifier: on a table of distinct identifiers and a store that
    answers, [POST] answers 200 and a [GET] of the new identifier then
    answers 200 with the same body. *)
Theorem post_then_get (body : CreateArtifactInput) (now : Js.Date)
    (uuid : string) (w : World) :
  unique_ids (table w) ->
  healthy 2 (faults w) ->
  exists resp w1,
    ArtifactsRoute.POST body now uuid w = (Fulfilled resp, w1)
    /\ http_status resp = 200
    /\ unique_ids (table w1)
    /\ exists resp',
         ArtifactRoute.GET uuid w1 = (Fulfilled resp', advance w1)
         /\ http_status resp' = 200
         /\ http_body resp' = http_body resp.
Proof.
  intros ND (H1 & H2 & _).
  unfold ArtifactsRoute.POST, try_catch, bind.
  rewrite saveArtifact_ok by exact H1.
  eexists _, _. split; [reflexivity|]. split; [reflexivity|].
  split; [cbn [table written]; now apply upserted_unique|].
  unfold ArtifactRoute.GET, try_catch, bind.
  rewrite (getArtifact_one uuid _
             (Store.artifactToRow (ArtifactsRoute.POST_artifact body now uuid))).
  - eexists. split; [reflexivity|]. split; [reflexivity|].
    reflexivity.
  - exact H2.
  - unfold rows_of. cbn [table written].
    apply (rows_of_upserted_same
             (Store.artifactToRow (ArtifactsRoute.POST_artifact body now uuid))).
    exact ND.
Qed.

Lemma post_then_get_witness :
  exists resp w1 resp',
    ArtifactsRoute.POST (Sample.input idea "Buy milk" None None) Sample.jan3
      "u-1" Sample.world = (Fulfilled resp, w1)
    /\ ArtifactRoute.GET "u-1" w1 = (Fulfilled resp', advance w1)
    /\ http_body resp' = http_body resp.
Proof.
  destruct (post_then_get (Sample.input idea "Buy milk" None None) Sample.jan3
              "u-1" Sample.world)
    as (resp & w1 & P & _ & _ & resp' & G & _ & B).
  - unfold unique_ids. simpl.
    repeat (constructor; [simpl; intuition discriminate|]). constructor.
  - simpl. auto.
  - exists resp, w1, resp'. auto.
Defined.

(** [POST /api/tts], whatever the speech service does.  It never
    throws.  Without an [artifactId] it answers 400 and calls nothing;
    for an identifier that is not in the table it answers 404 after the
    one read, the model and the speech service not called; and unless
    the mode is ['full'] it speaks the summary of the artifact, or its
    title when it has no summary, without a call to the model: the
    answer is the audio the speech service returns for that text, or 500
    with its message when it rejects. *)
Theorem tts_answers (generateTTS : string -> Promise (list Byte.byte))
    (artifactId mode : option string) (w : World) :
  (exists resp w',
      TtsRoute.POST generateTTS artifactId mode w = (Fulfilled resp, w'))
  /\ (Js.truthy artifactId = false ->
      TtsRoute.POST generateTTS artifactId mode w
      = (Fulfilled
           (TtsRoute.Json 400
              (Js.JObject [("error", Js.JString "Artifact ID is required")])),
         w))
  /\ (forall id,
         artifactId = Some id -> Js.truthy artifactId = true ->
         ~ present id w ->
         TtsRoute.POST generateTTS artifactId mode w
         = (Fulfilled
              (TtsRoute.Json 404
                 (Js.JObject [("error", Js.JString "Artifact not found")])),
            advance w))
  /\ (forall id r,
         artifactId = Some id -> Js.truthy artifactId = true ->
         hd None (faults w) = None -> rows_of id w = [r] ->
         mode <> Some "full" ->
         TtsRoute.POST generateTTS artifactId mode w
         = match generateTTS (Js.or_else (Row.summary r) (Row.title r))
                   (advance w) with
           | (Fulfilled audioBuffer, w') =>
               (Fulfilled
                  (TtsRoute.Audio audioBuffer
                     [("Content-Type", "audio/mpeg");
                      ("Content-Length",
                       Js.string_of_nat (List.length audioBuffer))]),
                w')
           | (Rejected e, w') =>
               (Fulfilled
                  (TtsRoute.Json 500
                     (Js.JObject
                        [("error", Js.JString "Failed to generate audio");
                         ("details", Js.JString (error_message e))])),
                w')
           end).
Proof.
  split; [|split; [|split]].
  - unfold TtsRoute.POST, try_catch.
    match goal with
    | |- context [match ?c w with _ => _ end] => destruct (c w) as [[r|e] w']
    end; eexists _, _; reflexivity.
  - intros F. unfold TtsRoute.POST, try_catch. rewrite F. reflexivity.
  - intros id -> T A. unfold TtsRoute.POST, try_catch. rewrite T.
    cbn [negb]. unfold bind.
    assert (E : Js.or_else (Some id) EmptyString = id).
    { unfold Js.or_else. now rewrite T. }
    rewrite E, getArtifact_absent by exact A. reflexivity.
  - intros id r -> T H R M. unfold TtsRoute.POST, try_catch. rewrite T.
    cbn [negb]. unfold bind at 1.
    assert (E : Js.or_else (Some id) EmptyString = id).
    { unfold Js.or_else. now rewrite T. }
    rewrite E, (getArtifact_one id w r H R).
    assert (F : String.eqb match mode with Some m => m | None => "summary" end
                  "full" = false).
    { destruct mode as [m|]; [|reflexivity].
      apply String.eqb_neq. congruence. }
    rewrite F. unfold bind, ret. cbn [Store.rowToArtifact summary title].
    destruct (generateTTS (Js.or_else (Row.summary r) (Row.title r))
                (advance w)) as [[audio|e] w']; reflexivity.
Qed.

(** With a speech service that returns one byte per character, the
    summary mode on the artifact ["a"] of the sample table, which has no
    summary, speaks its title. *)
Lemma tts_answers_witness :
  let speak := fun (text : string) (w : World) =>
                 (Fulfilled (list_byte_of_string text), w) in
  TtsRoute.POST speak (Some "a") None Sample.world
  = (Fulfilled
       (TtsRoute.Audio (list_byte_of_string "Buy milk")
          [("Content-Type", "audio/mpeg"); ("Content-Length", "8")]),
     advance Sample.world)
  /\ TtsRoute.POST speak None (Some "full") Sample.world
     = (Fulfilled
          (TtsRoute.Json 400
             (Js.JObject [("error", Js.JString "Artifact ID is required")])),
        Sample.world).
Proof.
  cbv zeta.
  destruct (tts_answers
              (fun (text : string) (w : World) =>
                 (Fulfilled (list_byte_of_string text), w))
              (Some "a") None Sample.world)
    as (_ & _ & _ & Hs).
  destruct (tts_answers
              (fun (text : string) (w : World) =>
                 (Fulfilled (list_byte_of_string text), w))
              None (Some "full") Sample.world)
    as (_ & H400 & _).
  split.
  - rewrite (Hs "a" (Sample.row "a" "2024-01-01" "2024-01-01T08:00:00.000Z"
                       ready None) eq_refl eq_refl eq_refl eq_refl);
      [reflexivity | discriminate].
  - apply H400. reflexivity.
Defined.

(* ================================================================= *)
(** ** The tools *)

(** Selects the arm of [handleToolCall] for a literal tool name. *)
Ltac tool_arm :=
  unfold Mcp.handleToolCall;
  repeat match goal with
         | |- context [String.eqb ?a ?b] =>
             let v := eval vm_compute in (String.eqb a b) in
             match v with
             | true => change (String.eqb a b) with true
             | false => change (String.eqb a b) with false
             end
         end;
  cbv iota.

Section ToolFacts.
Import Supabase Store.

Lemma length_order (rows : list Row.t) :
  List.length (order_created_at_desc rows) = List.length rows.
Proof. apply Permutation_length, sort_perm. Qed.

Lemma getPendingArtifacts_healthy (user : string) (w : World) :
  hd None (faults w) = None ->
  getPendingArtifacts user w
  = (Fulfilled
       (map rowToArtifact
          (order_created_at_desc (filter (row_in_status user ready) (table w)))),
     advance w).
Proof.
  intros H. unfold getPendingArtifacts, getArtifactsByStatus.
  rewrite listing_healthy by exact H. now rewrite matching_user_status.
Qed.

Lemma upserted_fresh (row : Row.t) (rows : list Row.t) :
  (forall r, In r rows -> Row.id r <> Row.id row) ->
  upserted row rows = (rows ++ [row])%list.
Proof.
  intros F.
  destruct (upserted_cases row rows)
    as [[U _]|(pre & old & post & E & Eo & _)]; [exact U|].
  exfalso. apply (F old); [|exact Eo].
  rewrite E. apply in_or_app. right. now left.
Qed.

End ToolFacts.

(** What [add_to_queue] adds is stored and is not queued.  With a fresh
    identifier and a store that answers, the tool stores the artifact it
    built, which can be read back by its identifier, and the artifacts
    [getPendingArtifacts] returns are the same as before, so that
    [show_drivetime] answers as it did: the new artifact is ['pending'],
    and the queue is made of the ['ready'] ones. *)
Theorem added_is_not_queued (args args' : Mcp.Args) (baseUrl : string)
    (now : Js.Date) (uuid : string) (w : World) :
  ~ present uuid w ->
  healthy 2 (faults w) ->
  exists res w1,
    Mcp.handleToolCall "add_to_queue" args baseUrl now uuid w
    = (Fulfilled res, w1)
    /\ Store.getArtifact uuid w1
       = (Fulfilled
            (Some (Mcp.add_to_queue_artifact (Mcp.arg_type args)
                     (Mcp.arg_content args) now uuid)),
          advance w1)
    /\ fst (Store.getPendingArtifacts DEMO_USER_ID w1)
       = fst (Store.getPendingArtifacts DEMO_USER_ID w)
    /\ fst (Mcp.handleToolCall "show_drivetime" args' baseUrl now uuid w1)
       = fst (Mcp.handleToolCall "show_drivetime" args' baseUrl now uuid w).
Proof.
  intros A (H1 & H2 & _).
  set (a := Mcp.add_to_queue_artifact (Mcp.arg_type args)
              (Mcp.arg_content args) now uuid).
  assert (U : upserted (Store.artifactToRow a) (table w)
              = (table w ++ [Store.artifactToRow a])%list).
  { apply upserted_fresh. intros r Hr E. apply A. exists r. split; trivial. }
  assert (S : Mcp.handleToolCall "add_to_queue" args baseUrl now uuid w
              = (Fulfilled
                   {| Mcp.structuredContent :=
                        Some (Js.JObject
                                [("added", Js.JBool true);
                                 ("id", Js.JString (id a));
                                 ("title", Js.JString (title a));
                                 ("type", Js.JString (type_name (type a)))]);
                      Mcp.content :=
                        Mcp.text ("Saved " ++ Js.dquote ++ title a ++ Js.dquote
                                    ++ " for later.");
                      Mcp.meta := None |},
                 written (table w ++ [Store.artifactToRow a])%list w)).
  { tool_arm. unfold bind. fold a. rewrite saveArtifact_ok by exact H1.
    now rewrite U. }
  rewrite S. eexists _, _. split; [reflexivity|].
  assert (P : fst (Store.getPendingArtifacts DEMO_USER_ID
                     (written (table w ++ [Store.artifactToRow a])%list w))
              = fst (Store.getPendingArtifacts DEMO_USER_ID w)).
  { rewrite !getPendingArtifacts_healthy by assumption.
    cbn [fst table written]. rewrite filter_app.
    assert (F : filter (row_in_status DEMO_USER_ID ready) [Store.artifactToRow a]
                = []).
    { cbn [filter]. unfold row_in_status.
      replace (Row.status (Store.artifactToRow a)) with pending by reflexivity.
      cbn [status_eqb]. now rewrite andb_false_r. }
    now rewrite F, app_nil_r. }
  split; [|split; [exact P|]].
  - rewrite (getArtifact_one uuid _ (Store.artifactToRow a)).
    + reflexivity.
    + exact H2.
    + unfold rows_of. cbn [table written]. rewrite filter_app.
      rewrite filter_none.
      * cbn [filter app].
        assert (M : Supabase.matching [Supabase.eq_id uuid]
                      (Store.artifactToRow a) = true)
          by (apply matching_id; reflexivity).
        now rewrite M.
      * intros r Hr. apply matching_id_false. intros E. apply A.
        exists r. auto.
  - tool_arm. unfold bind.
    destruct (Store.getPendingArtifacts DEMO_USER_ID
                (written (table w ++ [Store.artifactToRow a])%list w))
      as [[l1|e1] w1'];
      destruct (Store.getPendingArtifacts DEMO_USER_ID w) as [[l2|e2] w2'];
      simpl in P; try discriminate; injection P as <-; reflexivity.
Qed.

Lemma added_is_not_queued_witness :
  exists res w1,
    Mcp.handleToolCall "add_to_queue" (Sample.args "zz")
      "https://drivetime.example" Sample.jan3 "u-1" Sample.world
    = (Fulfilled res, w1)
    /\ fst (Store.getPendingArtifacts DEMO_USER_ID w1)
       = fst (Store.getPendingArtifacts DEMO_USER_ID Sample.world).
Proof.
  destruct (added_is_not_queued (Sample.args "zz") (Sample.args "zz")
              "https://drivetime.example" Sample.jan3 "u-1" Sample.world)
    as (res & w1 & S & _ & P & _).
  - intros (r & Hr & Hid). simpl in Hr.
    repeat (destruct Hr as [<-|Hr]; [discriminate|]). contradiction.
  - simpl. auto.
  - exists res, w1. auto.
Defined.

(** [get_todays_episodes] counts, in one read and without a write: asked
    for ['pending'], or for nothing, the ['ready'] artifacts of the user;
    asked for ['completed'], the completed ones; asked for anything else,
    such as ['all'], every artifact of the user. *)
Theorem todays_episodes_counts (args : Mcp.Args) (baseUrl : string)
    (now : Js.Date) (uuid : string) (w : World) :
  hd None (faults w) = None ->
  exists res,
    Mcp.handleToolCall "get_todays_episodes" args baseUrl now uuid w
    = (Fulfilled res, advance w)
    /\ (Js.truthy (Mcp.arg_status args) = false
        \/ Mcp.arg_status args = Some "pending" ->
        result_field "count" res
        = Some (Js.number_of_nat (queued ready (table w))))
    /\ (Mcp.arg_status args = Some "completed" ->
        result_field "count" res
        = Some (Js.number_of_nat (queued completed (table w))))
    /\ (forall s,
           Mcp.arg_status args = Some s -> Js.truthy (Some s) = true ->
           s <> "pending" -> s <> "completed" ->
           result_field "count" res
           = Some (Js.number_of_nat
                     (List.length
                        (filter (row_of_user DEMO_USER_ID) (table w))))).
Proof.
  intros H. tool_arm. unfold bind at 1.
  set (status := Js.or_else (Mcp.arg_status args) "pending").
  destruct (String.eqb_spec status "pending") as [Ep|Np]; cbv iota.
  - rewrite getPendingArtifacts_healthy by exact H.
    eexists. split; [reflexivity|].
    unfold result_field, queued. cbn [Mcp.structuredContent Js.get Js.assoc].
    simpl String.eqb. cbv iota.
    rewrite length_map, length_order.
    split; [reflexivity|]. split.
    + intros E. subst status. rewrite E in Ep. discriminate.
    + intros s E T N1 N2. exfalso. apply N1.
      subst status. rewrite E in Ep. unfold Js.or_else in Ep.
      now rewrite T in Ep.
  - unfold bind at 1. unfold Store.getAllArtifacts.
    rewrite listing_healthy by exact H. rewrite matching_user.
    destruct (String.eqb_spec status "completed") as [Ec|Nc]; cbv iota.
    + eexists. split; [reflexivity|].
      unfold result_field, queued. cbn [Mcp.structuredContent Js.get Js.assoc].
      simpl String.eqb. cbv iota.
      rewrite filter_map_rows. cbn [Store.rowToArtifact Types.status].
      rewrite order_filter, filter_status_user, length_map, length_order.
      split; [|split].
      * intros [F|E]; exfalso; apply Np; subst status.
        -- unfold Js.or_else. now rewrite F.
        -- now rewrite E.
      * reflexivity.
      * intros s E T N1 N2. exfalso. apply N2.
        subst status. rewrite E in Ec. unfold Js.or_else in Ec.
        now rewrite T in Ec.
    + eexists. split; [reflexivity|].
      unfold result_field. cbn [Mcp.structuredContent Js.get Js.assoc].
      simpl String.eqb. cbv iota.
      rewrite length_map, length_order.
      split; [|split].
      * intros [F|E]; exfalso; apply Np; subst status.
        -- unfold Js.or_else. now rewrite F.
        -- now rewrite E.
      * intros E. exfalso. apply Nc. subst status. now rewrite E.
      * reflexivity.
Qed.

Lemma todays_episodes_counts_witness :
  exists res,
    Mcp.handleToolCall "get_todays_episodes" (Sample.args "zz")
      "https://drivetime.example" Sample.jan3 "u-1" Sample.world
    = (Fulfilled res, advance Sample.world)
    /\ result_field "count" res = Some (Js.JNumber 1).
Proof.
  destruct (todays_episodes_counts (Sample.args "zz")
              "https://drivetime.example" Sample.jan3 "u-1" Sample.world
              eq_refl)
    as (res & E & Hp & _).
  exists res. split; [exact E|].
  rewrite Hp; [reflexivity | left; reflexivity].
Defined.

Section EpisodeFacts.
Import Supabase Store.

(** The status update of the one row of an identifier, moved to [st]
    without a patch: two round trips. *)
Lemma move_found (id : string) (st : ArtifactStatus) (now : Js.Date)
    (w : World) (r : Row.t) :
  healthy 2 (faults w) ->
  rows_of id w = [r] ->
  updateArtifactStatus id st None now w
  = (Fulfilled
       (Some (rowToArtifact
                (Updates.apply (status_updates (rowToArtifact r) st None now)
                   r))),
     written (moved id st now r (table w)) (advance w)).
Proof.
  intros H E.
  now rewrite (updateArtifactStatus_found id st None now w r H E).
Qed.

Lemma rows_of_moved (id : string) (st : ArtifactStatus) (now : Js.Date)
    (r : Row.t) (rows : list Row.t) :
  filter (matching [eq_id id]) rows = [r] ->
  filter (matching [eq_id id]) (moved id st now r rows)
  = [Updates.apply (status_updates (rowToArtifact r) st None now) r].
Proof.
  intros E. unfold moved. now rewrite rows_of_updated, E.
Qed.

End EpisodeFacts.

(** [get_episode_content] on an artifact that is in the store, when the
    model is not needed (the mode is not ['full'], or the artifact has
    its full text).  It fulfils after three round trips, has moved the
    stored artifact to ['playing'] with a [playedAt], and does not call
    the model.  The text it returns is made of the artifact as it was
    read before the move, with its summary, or its raw content when it
    has no summary; in the mode ['full'], with its full text. *)
Theorem episode_content_plays (args : Mcp.Args) (baseUrl : string)
    (now : Js.Date) (uuid : string) (w : World) (r : Row.t) :
  let id := Mcp.arg_episode_id args in
  let mode := Js.or_else (Mcp.arg_mode args) "summary" in
  let a := Store.rowToArtifact r in
  healthy 4 (faults w) ->
  rows_of id w = [r] ->
  mode <> "full" \/ Js.truthy (fullAudioText a) = true ->
  exists res w1 played,
    Mcp.handleToolCall "get_episode_content" args baseUrl now uuid w
    = (Fulfilled res, w1)
    /\ completions w1 = completions w
    /\ faults w1 = tl (tl (tl (faults w)))
    /\ Store.getArtifact id w1 = (Fulfilled (Some played), advance w1)
    /\ status played = playing
    /\ Js.truthy (playedAt played) = true
    /\ (mode <> "full" ->
        Mcp.content res
        = Mcp.text (episode_text a (Js.or_else (summary a) (rawContent a))))
    /\ (forall full, mode = "full" -> fullAudioText a = Some full ->
          Mcp.content res = Mcp.text (episode_text a full)).
Proof.
  cbv zeta. intros (H1 & H2 & H3 & H4 & _) E M.
  tool_arm. unfold bind at 1.
  rewrite (getArtifact_one _ w r H1 E).
  unfold bind at 1.
  rewrite (move_found _ playing now (advance w) r); [|simpl; auto|exact E].
  set (mode := Js.or_else (Mcp.arg_mode args) "summary") in *.
  assert (C : String.eqb mode "full"
              && negb (Js.truthy (fullAudioText (Store.rowToArtifact r)))
              = false).
  { destruct M as [N|T].
    - apply String.eqb_neq in N. now rewrite N.
    - rewrite T. apply andb_false_r. }
  unfold bind. rewrite C. unfold ret.
  eexists _, _, _. split; [reflexivity|].
  split; [reflexivity|]. split; [reflexivity|].
  split.
  { apply getArtifact_one; [exact H4|].
    unfold rows_of. cbn [table written]. apply rows_of_moved. exact E. }
  split.
  { cbn [Store.rowToArtifact status Updates.apply Row.status].
    now rewrite updates_status. }
  split; [apply apply_stamped|].
  cbn [Mcp.content]. split.
  - intros N. apply String.eqb_neq in N. rewrite N. reflexivity.
  - intros full Ef Efull. rewrite Ef. cbn [String.eqb]. 
    replace (String.eqb "full" "full") with true by reflexivity.
    unfold Js.or_else. rewrite Efull in *.
    destruct M as [N|T]; [congruence|]. rewrite T. reflexivity.
Qed.

Lemma episode_content_plays_witness :
  exists res w1 played,
    Mcp.handleToolCall "get_episode_content" (Sample.args "b")
      "https://drivetime.example" Sample.jan3 "u-1" Sample.world
    = (Fulfilled res, w1)
    /\ Store.getArtifact "b" w1 = (Fulfilled (Some played), advance w1)
    /\ status played = playing.
Proof.
  destruct (episode_content_plays (Sample.args "b")
              "https://drivetime.example" Sample.jan3 "u-1" Sample.world
              (Sample.row "b" "2024-01-02" "2024-01-02T08:00:00.000Z" pending
                 None))
    as (res & w1 & played & E & _ & _ & G & S & _).
  - simpl. auto.
  - reflexivity.
  - left. discriminate.
  - exists res, w1, played. auto.
Defined.

(** [get_episode_content] in the mode ['full'] on an artifact without
    full text asks the model, after it has moved the stored artifact to
    ['playing'].  When the model fails the tool throws the model's error,
    and the artifact stays ['playing']; when the model answers, the text
    returned carries the answer, or the raw content for an empty
    answer. *)
Theorem episode_content_expands (args : Mcp.Args) (baseUrl : string)
    (now : Js.Date) (uuid : string) (w : World) (r : Row.t) :
  let id := Mcp.arg_episode_id args in
  let a := Store.rowToArtifact r in
  let w1 := {| table := moved id playing now r (table w);
               faults := tl (tl (tl (faults w)));
               completions := tl (completions w) |} in
  healthy 3 (faults w) ->
  rows_of id w = [r] ->
  Js.or_else (Mcp.arg_mode args) "summary" = "full" ->
  Js.truthy (fullAudioText a) = false ->
  (forall msg rest,
      completions w = ApiFailure msg :: rest ->
      Mcp.handleToolCall "get_episode_content" args baseUrl now uuid w
      = (Rejected (ApiError msg), w1))
  /\ (forall c rest,
         completions w = Choice c :: rest ->
         exists res,
           Mcp.handleToolCall "get_episode_content" args baseUrl now uuid w
           = (Fulfilled res, w1)
           /\ Mcp.content res
              = Mcp.text (episode_text a (Js.or_else c (rawContent a))))
  /\ exists played,
       rows_of id w1 = [played] /\ Row.status played = playing
       /\ Js.truthy (Row.played_at played) = true.
Proof.
  cbv zeta. intros (H1 & H2 & H3 & _) E M T.
  split; [|split].
  - intros msg rest Ec. tool_arm. rewrite M.
    replace (String.eqb "full" "full") with true by reflexivity.
    unfold bind at 1. rewrite (getArtifact_one _ w r H1 E).
    unfold bind at 1.
    rewrite (move_found _ playing now (advance w) r); [|simpl; auto|exact E].
    rewrite T. cbn [negb andb]. unfold bind, OpenAI.expandForAudio.
    cbn [completions written advance table faults]. rewrite Ec. reflexivity.
  - intros c rest Ec. tool_arm. rewrite M.
    replace (String.eqb "full" "full") with true by reflexivity.
    unfold bind at 1. rewrite (getArtifact_one _ w r H1 E).
    unfold bind at 1.
    rewrite (move_found _ playing now (advance w) r); [|simpl; auto|exact E].
    rewrite T. cbn [negb andb]. unfold bind, OpenAI.expandForAudio.
    cbn [completions written advance table faults]. rewrite Ec.
    eexists. split; reflexivity.
  - eexists. split; [|split].
    + unfold rows_of. cbn [table]. apply rows_of_moved. exact E.
    + cbn [Updates.apply Row.status]. now rewrite updates_status.
    + apply apply_stamped.
Qed.

Lemma episode_content_expands_witness :
  let w := {| table := Sample.rows; faults := [];
              completions := [ApiFailure "rate limit"] |} in
  let args := {| Mcp.arg_status := None; Mcp.arg_episode_id := "a";
                 Mcp.arg_mode := Some "full"; Mcp.arg_type := idea;
                 Mcp.arg_content := EmptyString |} in
  fst (Mcp.handleToolCall "get_episode_content" args
         "https://drivetime.example" Sample.jan3 "u-1" w)
  = Rejected (ApiError "rate limit")
  /\ exists played,
       rows_of "a"
         (snd (Mcp.handleToolCall "get_episode_content" args
                 "https://drivetime.example" Sample.jan3 "u-1" w))
       = [played]
       /\ Row.status played = playing.
Proof.
  cbv zeta.
  destruct (episode_content_expands
              {| Mcp.arg_status := None; Mcp.arg_episode_id := "a";
                 Mcp.arg_mode := Some "full"; Mcp.arg_type := idea;
                 Mcp.arg_content := EmptyString |}
              "https://drivetime.example" Sample.jan3 "u-1"
              {| table := Sample.rows; faults := [];
                 completions := [ApiFailure "rate limit"] |}
              (Sample.row "a" "2024-01-01" "2024-01-01T08:00:00.000Z" ready
                 None))
    as (Hf & _ & played & R & S & _).
  - simpl. auto.
  - reflexivity.
  - reflexivity.
  - reflexivity.
  - rewrite (Hf "rate limit" [] eq_refl). cbn [fst snd].
    split; [reflexivity|]. exists played. split; [exact R | exact S].
Defined.

Section Counting.
Import Supabase Store.

Lemma updated_table_none (id : string) (u : Updates.t) (rows : list Row.t) :
  filter (matching [eq_id id]) rows = [] -> updated_table id u rows = rows.
Proof.
  unfold updated_table.
  induction rows as [|x rows IH]; [reflexivity|]. cbn [filter map].
  destruct (matching [eq_id id] x); [discriminate|].
  intros E. now rewrite IH.
Qed.

(** The update of the one row of [id] takes it out of a count it no
    longer belongs to. *)
Lemma count_updated (p : Row.t -> bool) (id : string) (u : Updates.t)
    (rows : list Row.t) (r : Row.t) :
  filter (matching [eq_id id]) rows = [r] ->
  p (Updates.apply u r) = false ->
  List.length (filter p (updated_table id u rows))
    + (if p r then 1 else 0)
  = List.length (filter p rows).
Proof.
  intros E F. induction rows as [|x rows IH]; [discriminate|].
  cbn [filter] in E.
  change (updated_table id u (x :: rows))
    with ((if matching [eq_id id] x then Updates.apply u x else x)
            :: updated_table id u rows).
  destruct (matching [eq_id id] x) eqn:M.
  - injection E as -> E. rewrite (updated_table_none id u rows E).
    cbn [filter]. rewrite F. destruct (p r); simpl; lia.
  - cbn [filter]. destruct (p x); simpl; rewrite <- (IH E); lia.
Qed.

End Counting.

(** [mark_episode_complete] on an artifact that is in the store, the
    store answering.  The stored artifact is ['completed'] and carries a
    [completedAt]; the tool reports [completed: true] and, as
    [remainingCount], the number of the user's ['ready'] artifacts after
    the move: one less than before when the episode was a ['ready'] one
    of the user, and as many as before otherwise. *)
Theorem episode_completed (args : Mcp.Args) (baseUrl : string)
    (now : Js.Date) (uuid : string) (w : World) (r : Row.t) :
  let id := Mcp.arg_episode_id args in
  healthy 3 (faults w) ->
  rows_of id w = [r] ->
  exists res w1 done,
    Mcp.handleToolCall "mark_episode_complete" args baseUrl now uuid w
    = (Fulfilled res, w1)
    /\ rows_of id w1 = [done]
    /\ Row.status done = completed
    /\ Js.truthy (Row.completed_at done) = true
    /\ result_field "completed" res = Some (Js.JBool true)
    /\ result_field "remainingCount" res
       = Some (Js.number_of_nat (queued ready (table w1)))
    /\ queued ready (table w1)
         + (if row_in_status DEMO_USER_ID ready r then 1 else 0)
       = queued ready (table w).
Proof.
  cbv zeta. intros (H1 & H2 & H3 & _) E.
  tool_arm. unfold bind at 1.
  rewrite (move_found _ completed now w r); [|simpl; auto|exact E].
  unfold bind at 1.
  rewrite getPendingArtifacts_healthy by exact H3.
  eexists _, _, _. split; [reflexivity|].
  cbn [table written advance].
  split; [unfold rows_of; cbn [table]; apply rows_of_moved; exact E|].
  split; [cbn [Updates.apply Row.status]; now rewrite updates_status|].
  split; [apply apply_stamped|].
  unfold result_field. cbn [Mcp.structuredContent Js.get Js.assoc].
  simpl String.eqb. cbv iota.
  split; [reflexivity|].
  split; [unfold queued; now rewrite length_map, length_order|].
  unfold queued, moved. apply count_updated; [exact E|].
  unfold row_in_status. cbn [Updates.apply Row.status].
  rewrite updates_status. cbn [status_eqb]. apply andb_false_r.
Qed.

Lemma episode_completed_witness :
  exists res w1,
    Mcp.handleToolCall "mark_episode_complete" (Sample.args "a")
      "https://drivetime.example" Sample.jan3 "u-1" Sample.world
    = (Fulfilled res, w1)
    /\ result_field "remainingCount" res = Some (Js.JNumber 0).
Proof.
  destruct (episode_completed (Sample.args "a") "https://drivetime.example"
              Sample.jan3 "u-1" Sample.world
              (Sample.row "a" "2024-01-01" "2024-01-01T08:00:00.000Z" ready
                 None))
    as (res & w1 & done & E & _ & _ & _ & _ & R & C).
  - simpl. auto.
  - reflexivity.
  - exists res, w1. split; [exact E|]. rewrite R.
    assert (Q : queued ready (table w1) = 0).
    { change (queued ready (table Sample.world)) with 1 in C.
      change (if row_in_status DEMO_USER_ID ready
                   (Sample.row "a" "2024-01-01" "2024-01-01T08:00:00.000Z"
                      ready None)
              then 1 else 0) with 1 in C.
      lia. }
    now rewrite Q.
Defined.

(* ================================================================= *)
(** ** The clients *)

Section TrimFacts.
Import JsTrim.

Lemma truthy_nonempty (s : string) :
  Js.truthy (Some s) = true <-> s <> EmptyString.
Proof.
  destruct s; simpl; split; intros H; try discriminate; trivial.
  exfalso. now apply H.
Qed.

Lemma or_else_some (s d : string) :
  s <> EmptyString -> Js.or_else (Some s) d = s.
Proof.
  destruct s; simpl; intros H; [exfalso; now apply H | reflexivity].
Qed.

Lemma trimStart_first (s : string) (c : ascii) :
  first_char (trimStart s) = Some c -> isWhiteSpace c = false.
Proof.
  induction s as [|x s IH]; simpl; [discriminate|].
  destruct (isWhiteSpace x) eqn:W; [exact IH|].
  simpl. intros [= <-]. exact W.
Qed.

Lemma trimEnd_last (s : string) (c : ascii) :
  last_char (trimEnd s) = Some c -> isWhiteSpace c = false.
Proof.
  induction s as [|x s IH]; simpl; [discriminate|].
  destruct (trimEnd s) as [|y t] eqn:E.
  - destruct (isWhiteSpace x) eqn:W; simpl; [discriminate|].
    intros [= <-]. exact W.
  - simpl. simpl in IH. destruct (last_char t) as [d|].
    + intros [= <-]. now apply IH.
    + intros [= <-]. now apply IH.
Qed.

Lemma trimEnd_first (s : string) (c : ascii) :
  first_char (trimEnd s) = Some c -> first_char s = Some c.
Proof.
  destruct s as [|x s]; simpl; [discriminate|].
  destruct (trimEnd s); [destruct (isWhiteSpace x)|]; simpl; congruence.
Qed.

Lemma trim_trimmed (s : string) : trimmed (trim s).
Proof.
  unfold trim. split; intros c H.
  - apply trimEnd_first in H. now apply trimStart_first in H.
  - now apply trimEnd_last in H.
Qed.

End TrimFacts.

(** The web form and [POST] together.  The form sends nothing while it
    is submitting or for a blank input.  What it sends makes an artifact
    whose raw content is the input without the white space around it,
    and not empty; when the input as typed starts with [http://] or
    [https://] the artifact is an ['article'] whose [sourceUrl] is its
    raw content, and otherwise it has the type selected and no
    [sourceUrl]. *)
Theorem form_then_post (dom_value : option string) (content : string)
    (artifactType : ArtifactType) (isSubmitting : bool) (now : Js.Date)
    (uuid : string) :
  let inputValue := Js.or_else dom_value content in
  (ArtifactInput.handleSubmit dom_value content artifactType isSubmitting = None
   <-> isSubmitting = true \/ JsTrim.trim inputValue = EmptyString)
  /\ forall body,
       ArtifactInput.handleSubmit dom_value content artifactType isSubmitting
       = Some body ->
       let a := ArtifactsRoute.POST_artifact body now uuid in
       rawContent a = JsTrim.trim inputValue
       /\ rawContent a <> EmptyString
       /\ trimmed (rawContent a)
       /\ (url_shaped inputValue = true ->
           type a = article /\ sourceUrl a = Some (rawContent a))
       /\ (url_shaped inputValue = false ->
           type a = artifactType /\ sourceUrl a = None)
       /\ imageData a = None.
Proof.
  cbv zeta. unfold ArtifactInput.handleSubmit.
  set (inputValue := Js.or_else dom_value content).
  destruct isSubmitting; cbn [orb].
  - split; [split; auto|]. discriminate.
  - destruct (Js.truthy (Some (JsTrim.trim inputValue))) eqn:T; cbn [negb].
    + apply truthy_nonempty in T as N. split.
      * split; [discriminate|]. intros [F|F]; [discriminate | contradiction].
      * intros body [= <-].
        unfold ArtifactsRoute.POST_artifact, url_shaped.
        cbn [rawContent type sourceUrl imageData in_content in_type
             in_sourceUrl in_imageData Js.truthy].
        split; [reflexivity|]. split; [exact N|].
        split; [apply trim_trimmed|].
        split; [|split; [|reflexivity]].
        -- intros U. rewrite U. rewrite T. split; reflexivity.
        -- intros U. rewrite U. split; reflexivity.
    + split; [|discriminate].
      split; [intros _; right|reflexivity].
      destruct (JsTrim.trim inputValue); [reflexivity | discriminate].
Qed.

Lemma form_then_post_witness :
  exists body,
    ArtifactInput.handleSubmit (Some " https://example.com/x ") EmptyString
      idea false = Some body
    /\ type (ArtifactsRoute.POST_artifact body Sample.jan2 "u-1") = idea
    /\ sourceUrl (ArtifactsRoute.POST_artifact body Sample.jan2 "u-1") = None
    /\ rawContent (ArtifactsRoute.POST_artifact body Sample.jan2 "u-1")
       = "https://example.com/x".
Proof.
  eexists. split; [reflexivity|].
  match goal with
  | |- context [ArtifactsRoute.POST_artifact ?body _ _] =>
      destruct (proj2 (form_then_post (Some " https://example.com/x ")
                         EmptyString idea false Sample.jan2 "u-1")
                  body eq_refl)
        as (Hraw & _ & _ & _ & Hplain & _)
  end.
  destruct (Hplain eq_refl) as [Ht Hs].
  split; [exact Ht|]. split; [exact Hs|]. rewrite Hraw. reflexivity.
Defined.

(** The extension popup and [POST] together.  The popup sends nothing
    without a tab or a page URL.  What it sends makes an ['article']
    whose [sourceUrl] is the page URL, whatever type was selected; its raw
    content is the note without the white space around it, or the page
    title when the note is blank, or the page URL when there is no title
    either, and is never empty. *)
Theorem popup_then_post (currentTab : option Popup.Tab) (noteValue : string)
    (selectedType : ArtifactType) (now : Js.Date) (uuid : string) :
  (Popup.save currentTab noteValue selectedType = None
   <-> currentTab = None
       \/ exists tab, currentTab = Some tab
                      /\ Js.truthy (Popup.url tab) = false)
  /\ forall tab body,
       currentTab = Some tab ->
       Popup.save currentTab noteValue selectedType = Some body ->
       let a := ArtifactsRoute.POST_artifact body now uuid in
       type a = article
       /\ sourceUrl a = Popup.url tab
       /\ Js.truthy (sourceUrl a) = true
       /\ rawContent a <> EmptyString
       /\ (JsTrim.trim noteValue <> EmptyString ->
           rawContent a = JsTrim.trim noteValue)
       /\ (JsTrim.trim noteValue = EmptyString ->
           forall t, Popup.tab_title tab = Some t -> t <> EmptyString ->
                     rawContent a = t)
       /\ (JsTrim.trim noteValue = EmptyString ->
           Js.truthy (Popup.tab_title tab) = false ->
           Some (rawContent a) = Popup.url tab).
Proof.
  split.
  - unfold Popup.save. destruct currentTab as [tab|].
    + destruct (Js.truthy (Popup.url tab)) eqn:T; cbn [negb]; split.
      * discriminate.
      * intros [F|(tab' & [= <-] & F)]; congruence.
      * intros _. right. eauto.
      * reflexivity.
    + split; auto.
  - intros tab body -> S. unfold Popup.save in S.
    destruct (Js.truthy (Popup.url tab)) eqn:T; cbn [negb] in S;
      [|discriminate].
    injection S as <-. cbv zeta.
    unfold ArtifactsRoute.POST_artifact.
    cbn [type sourceUrl rawContent in_content in_type in_sourceUrl
         in_imageData Js.truthy].
    rewrite T.
    split; [reflexivity|]. split; [reflexivity|]. split; [reflexivity|].
    destruct (Popup.url tab) as [u|] eqn:U; [|discriminate].
    assert (Nu : u <> EmptyString) by now apply truthy_nonempty.
    destruct (string_dec (JsTrim.trim noteValue) EmptyString) as [En|Nn].
    + rewrite En.
      change (Js.or_else (Some EmptyString)
                (Js.or_else (Popup.tab_title tab)
                   (Js.or_else (Some u) EmptyString)))
        with (Js.or_else (Popup.tab_title tab)
                (Js.or_else (Some u) EmptyString)).
      rewrite (or_else_some u _ Nu).
      destruct (Js.truthy (Popup.tab_title tab)) eqn:Tt.
      * destruct (Popup.tab_title tab) as [t|] eqn:Et; [|discriminate].
        assert (Nt : t <> EmptyString) by now apply truthy_nonempty.
        rewrite (or_else_some t _ Nt).
        split; [exact Nt|]. split; [congruence|].
        split; [intros _ t' [= <-] _; reflexivity | discriminate].
      * assert (Ex : Js.or_else (Popup.tab_title tab) u = u)
          by (unfold Js.or_else; now rewrite Tt).
        rewrite Ex.
        split; [exact Nu|]. split; [congruence|].
        split; [|reflexivity].
        intros _ t Et Nt. apply truthy_nonempty in Nt.
        rewrite Et in Tt. congruence.
    + rewrite (or_else_some _ _ Nn).
      split; [exact Nn|]. split; [reflexivity|].
      split; intros; congruence.
Qed.

Lemma popup_then_post_witness :
  exists body,
    Popup.save
      (Some {| Popup.url := Some "https://example.com/x";
               Popup.tab_title := Some "Example" |})
      "  " note = Some body
    /\ type (ArtifactsRoute.POST_artifact body Sample.jan2 "u-1") = article
    /\ rawContent (ArtifactsRoute.POST_artifact body Sample.jan2 "u-1")
       = "Example".
Proof.
  eexists. split; [reflexivity|].
  match goal with
  | |- context [ArtifactsRoute.POST_artifact ?body _ _] =>
      destruct (proj2 (popup_then_post
                         (Some {| Popup.url := Some "https://example.com/x";
                                  Popup.tab_title := Some "Example" |})
                         "  " note Sample.jan2 "u-1")
                  {| Popup.url := Some "https://example.com/x";
                     Popup.tab_title := Some "Example" |}
                  body eq_refl eq_refl)
        as (Ht & _ & _ & _ & _ & Htitle & _)
  end.
  split; [exact Ht|].
  apply (Htitle eq_refl "Example" eq_refl). discriminate.
Defined.

(** The two ways of the widget.  It sends nothing for a blank text.
    For a text that is not a URL, the tool call and the HTTP request make
    the same artifact.  For a URL both make an ['article'] whose
    [sourceUrl] is the URL, but the tool call keeps the URL as raw content
    and title while the HTTP request stores an empty raw content and an
    empty title. *)
Theorem widget_ways (value : string) (selectedType : ArtifactType)
    (API_BASE : string) (now : Js.Date) (uuid : string) :
  let content := JsTrim.trim value in
  (content = EmptyString ->
   forall hasCallTool,
     Widget.submit value selectedType hasCallTool API_BASE = Widget.Nothing)
  /\ (content <> EmptyString -> API_BASE <> EmptyString ->
      exists typeToAdd body,
        Widget.submit value selectedType true API_BASE
        = Widget.CallTool typeToAdd content
        /\ Widget.submit value selectedType false API_BASE
           = Widget.PostArtifact body
        /\ let q := Mcp.add_to_queue_artifact typeToAdd content now uuid in
           let p := ArtifactsRoute.POST_artifact body now uuid in
           (url_shaped content = false -> p = q /\ type q = selectedType)
           /\ (url_shaped content = true ->
               type p = article /\ type q = article
               /\ sourceUrl p = Some content /\ sourceUrl q = Some content
               /\ rawContent q = content /\ rawContent p = EmptyString
               /\ title p = EmptyString)).
Proof.
  cbv zeta. split.
  - intros E hasCallTool. unfold Widget.submit. now rewrite E.
  - intros N Nb. unfold Widget.submit.
    apply truthy_nonempty in N as T. apply truthy_nonempty in Nb as Tb.
    rewrite T, Tb. cbn [negb].
    eexists _, _. split; [reflexivity|]. split; [reflexivity|].
    unfold url_shaped, Mcp.add_to_queue_artifact, ArtifactsRoute.POST_artifact.
    cbn [in_content in_type in_sourceUrl in_imageData in_tags Js.truthy
         type sourceUrl rawContent title].
    split; intros U; rewrite U.
    + split; reflexivity.
    + rewrite T. repeat split.
Qed.

Lemma widget_ways_witness :
  exists body,
    Widget.submit "https://example.com/x" idea false
      "https://drivetime.example" = Widget.PostArtifact body
    /\ rawContent (ArtifactsRoute.POST_artifact body Sample.jan2 "u-1")
       = EmptyString
    /\ rawContent (Mcp.add_to_queue_artifact article "https://example.com/x"
                     Sample.jan2 "u-1")
       = "https://example.com/x".
Proof.
  destruct (proj2 (widget_ways "https://example.com/x" idea
                     "https://drivetime.example" Sample.jan2 "u-1"))
    as (t & body & Ec & Ep & _ & Hurl); try discriminate.
  exists body. split; [exact Ep|].
  destruct (Hurl eq_refl) as (_ & _ & _ & _ & Hq & Hp & _).
  injection Ec as <-.
  split; [exact Hp | exact Hq].
Defined.

Section Lengths.

Lemma length_append (a b : string) :
  String.length (a ++ b) = String.length a + String.length b.
Proof. induction a as [|c a IH]; simpl; [reflexivity | now rewrite IH]. Qed.

Lemma length_slice0 (n : nat) (s : string) :
  String.length (Js.slice0 n s) = Nat.min n (String.length s).
Proof.
  unfold Js.slice0. revert n; induction s as [|c s IH]; intros [|n]; simpl;
    try reflexivity.
  now rewrite IH.
Qed.

End Lengths.

(** Titles are short.  The title [POST] and [add_to_queue] give an
    artifact has at most 103 characters, and the inbox list shows at most
    83 characters of any title: a title of at most 80 characters as it
    is, a longer one cut to its first 80 characters and an ellipsis. *)
Theorem titles_are_short (body : CreateArtifactInput) (now : Js.Date)
    (uuid : string) (requested : ArtifactType) (content t : string) :
  String.length (title (ArtifactsRoute.POST_artifact body now uuid)) <= 103
  /\ String.length
       (title (Mcp.add_to_queue_artifact requested content now uuid)) <= 103
  /\ String.length (InboxList.shown_title t) <= 83
  /\ (String.length t <= 80 -> InboxList.shown_title t = t)
  /\ (80 < String.length t ->
      exists first rest,
        t = first ++ rest /\ String.length first = 80
        /\ InboxList.shown_title t = first ++ "...").
Proof.
  assert (B : forall c,
             String.length
               (Js.slice0 100 c
                  ++ (if (100 <? String.length c)%nat then "..."
                      else EmptyString)) <= 103).
  { intros c. rewrite length_append, length_slice0.
    destruct (100 <? String.length c)%nat; simpl String.length; lia. }
  split; [apply B|]. split; [apply B|].
  unfold InboxList.shown_title.
  destruct (80 <? String.length t)%nat eqn:L.
  - apply Nat.ltb_lt in L. split; [|split].
    + rewrite length_append, length_slice0. simpl String.length. lia.
    + lia.
    + intros _. destruct (substring_prefix t 80) as (rest & E & Hl); [lia|].
      exists (substring 0 80 t), rest. auto.
  - apply Nat.ltb_ge in L. split; [lia|]. split; [reflexivity | lia].
Qed.

Lemma titles_are_short_witness :
  InboxList.shown_title
    (title (ArtifactsRoute.POST_artifact
              (Sample.input idea "Buy milk" None None) Sample.jan2 "u-1"))
  = "Buy milk".
Proof.
  destruct (titles_are_short (Sample.input idea "Buy milk" None None)
              Sample.jan2 "u-1" idea "Buy milk" "Buy milk")
    as (_ & _ & _ & Hshort & _).
  apply Hshort. simpl. lia.
Defined.

Section Queues.
Import Supabase Store.

Lemma playable_counts (l : list Artifact) :
  List.length (Widget.playable l)
  = List.length (in_status ready l) + count_status pending l.
Proof.
  unfold Widget.playable, in_status, count_status.
  induction l as [|a l IH]; [reflexivity|]. simpl.
  destruct (status a); simpl; lia.
Qed.

Lemma playable_without_pending (l : list Artifact) :
  count_status pending l = 0 -> Widget.playable l = in_status ready l.
Proof.
  unfold Widget.playable, in_status, count_status.
  induction l as [|a l IH]; [reflexivity|]. simpl.
  destruct (status a); simpl; intros H; try discriminate;
    rewrite IH; trivial.
Qed.

Lemma ready_are_playable (l : list Artifact) (a : Artifact) :
  In a (in_status ready l) -> In a (Widget.playable l).
Proof.
  unfold Widget.playable, in_status. rewrite !filter_In.
  intros [I S]. split; [exact I|]. now rewrite S.
Qed.

End Queues.

(** The two queues of the widget.  The episodes the server puts into the
    widget are those [getPendingArtifacts] returns, which are the
    ['ready'] artifacts of the listing; the episodes the widget keeps
    when it loads the listing itself are the ['ready'] and the
    ['pending'] ones.  Both queues are latest first, every episode of
    the first is in the second, the second has as many more as there are
    ['pending'] artifacts, and the two hold the same episodes exactly
    when nothing is ['pending'].  When the user's rows were created at
    distinct times, the first queue is the listing's ['ready'] artifacts
    in the listing's order, and the two queues are the same list exactly
    when nothing is ['pending']. *)
Theorem widget_queues (w : World) :
  hd None (faults w) = None ->
  exists all injected,
    Store.getAllArtifacts DEMO_USER_ID w = (Fulfilled all, advance w)
    /\ Store.getPendingArtifacts DEMO_USER_ID w
       = (Fulfilled injected, advance w)
    /\ Permutation injected (in_status ready all)
    /\ StronglySorted created_geb injected
    /\ StronglySorted created_geb (Widget.playable all)
    /\ (forall a, In a injected -> In a (Widget.playable all))
    /\ List.length (Widget.playable all)
       = List.length injected + count_status pending all
    /\ (Permutation (Widget.playable all) injected
        <-> count_status pending all = 0)
    /\ (distinct_times DEMO_USER_ID (table w) ->
        injected = in_status ready all
        /\ (Widget.playable all = injected <-> count_status pending all = 0)).
Proof.
  intros H.
  unfold Store.getAllArtifacts.
  rewrite listing_healthy, getPendingArtifacts_healthy by exact H.
  rewrite matching_user.
  eexists _, _. split; [reflexivity|]. split; [reflexivity|].
  pose proof (by_status_perm DEMO_USER_ID ready (table w)) as P.
  pose proof (playable_counts
                (map Store.rowToArtifact
                   (Supabase.order_created_at_desc
                      (filter (row_of_user DEMO_USER_ID) (table w))))) as C.
  rewrite <- (Permutation_length P) in C.
  split; [exact P|].
  split; [apply order_latest_first|].
  split; [apply latest_first_filter, order_latest_first|].
  split.
  { intros a I. apply ready_are_playable. exact (Permutation_in _ P I). }
  split; [exact C|].
  split.
  { split.
    - intros Q. apply Permutation_length in Q. lia.
    - intros Z. rewrite (playable_without_pending _ Z). now symmetry. }
  intros D.
  assert (E : map Store.rowToArtifact
                (Supabase.order_created_at_desc
                   (filter (row_in_status DEMO_USER_ID ready) (table w)))
              = in_status ready
                  (map Store.rowToArtifact
                     (Supabase.order_created_at_desc
                        (filter (row_of_user DEMO_USER_ID) (table w))))).
  { symmetry. apply latest_first_unique.
    - apply distinct_filter.
      apply (listing_distinct DEMO_USER_ID (table w)); [exact D|].
      apply Permutation_map, sort_perm.
    - now symmetry.
    - apply latest_first_filter, order_latest_first.
    - apply order_latest_first. }
  split; [exact E|].
  split.
  - intros Q. rewrite Q in C. lia.
  - intros Z. rewrite (playable_without_pending _ Z). now symmetry.
Qed.

Lemma widget_queues_witness :
  exists all injected,
    Store.getAllArtifacts DEMO_USER_ID Sample.world
    = (Fulfilled all, advance Sample.world)
    /\ Store.getPendingArtifacts DEMO_USER_ID Sample.world
       = (Fulfilled injected, advance Sample.world)
    /\ List.length (Widget.playable all) = List.length injected + 1.
Proof.
  destruct (widget_queues Sample.world eq_refl)
    as (all & injected & A & P & _ & _ & _ & _ & L & _).
  exists all, injected. split; [exact A|]. split; [exact P|].
  rewrite L. f_equal.
  vm_compute in A. injection A as <-. reflexivity.
Defined.

(* ================================================================= *)
(** ** The player *)

Section Player.
Import DrivePage.
Variable fetch : Request -> Promise HttpResponse.

Lemma handleNext_idle (s : State) (w : World) :
  currentEpisode s = None ->
  handleNext fetch s w
  = (Fulfilled
       (if (currentIndex s <? List.length (episodes s) - 1)%nat
        then moveTo (currentIndex s + 1) s else s),
     w).
Proof.
  intros C. unfold handleNext, bind at 1. rewrite C.
  destruct (currentIndex s <? List.length (episodes s) - 1)%nat; reflexivity.
Qed.

Lemma handleNext_answered (s : State) (w w' : World) (episode : Artifact)
    (resp : HttpResponse) :
  currentEpisode s = Some episode ->
  fetch (complete_request episode) w = (Fulfilled resp, w') ->
  handleNext fetch s w
  = (Fulfilled
       (if (currentIndex s <? List.length (episodes s) - 1)%nat
        then moveTo (currentIndex s + 1) s else s),
     w').
Proof.
  intros C F. unfold handleNext, bind at 1. rewrite C.
  unfold bind at 1. rewrite F.
  destruct (currentIndex s <? List.length (episodes s) - 1)%nat; reflexivity.
Qed.

Lemma handleNext_failed (s : State) (w w' : World) (episode : Artifact)
    (e : Exception) :
  currentEpisode s = Some episode ->
  fetch (complete_request episode) w = (Rejected e, w') ->
  handleNext fetch s w = (Rejected e, w').
Proof.
  intros C F. unfold handleNext, bind at 1. rewrite C.
  unfold bind at 1. now rewrite F.
Qed.

(** The state a fulfilled [handleNext] leaves is on the queue. *)
Lemma moved_on_stays (s : State) :
  in_queue s ->
  let s' := if (currentIndex s <? List.length (episodes s) - 1)%nat
            then moveTo (currentIndex s + 1) s else s in
  in_queue s'
  /\ episodes s' = episodes s
  /\ (currentIndex s' = currentIndex s
      \/ currentIndex s' = currentIndex s + 1)
  /\ (currentIndex s + 1 = List.length (episodes s) -> s' = s)
  /\ (currentIndex s + 1 < List.length (episodes s) ->
      currentIndex s' = currentIndex s + 1
      /\ currentIndex (handlePrevious s') = currentIndex s).
Proof.
  intros Q. cbv zeta.
  destruct (currentIndex s <? List.length (episodes s) - 1)%nat eqn:L.
  - apply Nat.ltb_lt in L. unfold in_queue.
    cbn [moveTo currentIndex episodes].
    split; [left; lia|]. split; [reflexivity|]. split; [right; reflexivity|].
    split; [intros; lia|]. intros _. split; [reflexivity|].
    unfold handlePrevious. cbn [moveTo currentIndex].
    replace (0 <? currentIndex s + 1)%nat with true
      by (symmetry; apply Nat.ltb_lt; lia).
    cbn [moveTo currentIndex]. lia.
  - apply Nat.ltb_ge in L.
    split; [exact Q|]. split; [reflexivity|]. split; [left; reflexivity|].
    split; [reflexivity|]. intros; lia.
Qed.

End Player.

(** The player stays on its queue, whatever the transport does.  From a
    state whose index is on an episode (or an empty queue):
    [handleNext] rejects exactly when its request cannot be made, its
    [await] being in no [try], and then sets nothing; when there is no
    episode or the request is answered, with whatever status, it
    fulfils, keeps the episodes and leaves the index on an episode,
    moved by at most one; on the last episode it leaves the state as it
    is; after a move forward, [handlePrevious] comes back to the index.
    [handlePrevious] throws nothing and stays on the queue.
    [handleEnded] returns at once with nothing playing and the index
    where it was; the [handleNext] it leaves unawaited stays on the
    queue when it fulfils, and rejects, unhandled, when the request
    fails. *)
Theorem player_stays_in_queue (fetch : DrivePage.Request -> Promise HttpResponse)
    (s : DrivePage.State) (w : World) :
  DrivePage.in_queue s ->
  (forall e w',
      DrivePage.handleNext fetch s w = (Rejected e, w')
      <-> exists episode,
            DrivePage.currentEpisode s = Some episode
            /\ fetch (DrivePage.complete_request episode) w = (Rejected e, w'))
  /\ ((DrivePage.currentEpisode s = None
       \/ exists episode resp w',
            DrivePage.currentEpisode s = Some episode
            /\ fetch (DrivePage.complete_request episode) w
               = (Fulfilled resp, w')) ->
      exists s' w',
        DrivePage.handleNext fetch s w = (Fulfilled s', w')
        /\ DrivePage.in_queue s'
        /\ DrivePage.episodes s' = DrivePage.episodes s
        /\ (DrivePage.currentIndex s' = DrivePage.currentIndex s
            \/ DrivePage.currentIndex s' = DrivePage.currentIndex s + 1)
        /\ (DrivePage.currentIndex s + 1 = List.length (DrivePage.episodes s) ->
            s' = s)
        /\ (DrivePage.currentIndex s + 1 < List.length (DrivePage.episodes s) ->
            DrivePage.currentIndex s' = DrivePage.currentIndex s + 1
            /\ DrivePage.currentIndex (DrivePage.handlePrevious s')
               = DrivePage.currentIndex s))
  /\ (DrivePage.in_queue (DrivePage.handlePrevious s)
      /\ DrivePage.episodes (DrivePage.handlePrevious s) = DrivePage.episodes s
      /\ (DrivePage.currentIndex s = 0 -> DrivePage.handlePrevious s = s))
  /\ (DrivePage.isPlaying (fst (DrivePage.handleEnded fetch s)) = false
      /\ DrivePage.in_queue (fst (DrivePage.handleEnded fetch s))
      /\ DrivePage.episodes (fst (DrivePage.handleEnded fetch s))
         = DrivePage.episodes s
      /\ DrivePage.currentIndex (fst (DrivePage.handleEnded fetch s))
         = DrivePage.currentIndex s
      /\ (forall s' w',
            snd (DrivePage.handleEnded fetch s) w = (Fulfilled s', w') ->
            DrivePage.in_queue s' /\ DrivePage.isPlaying s' = false
            /\ DrivePage.episodes s' = DrivePage.episodes s)
      /\ (forall episode e w',
            DrivePage.currentEpisode s = Some episode ->
            fetch (DrivePage.complete_request episode) w = (Rejected e, w') ->
            snd (DrivePage.handleEnded fetch s) w = (Rejected e, w'))).
Proof.
  intros Q. split; [|split; [|split]].
  - intros e w'. split.
    + intros R. destruct (DrivePage.currentEpisode s) as [episode|] eqn:C.
      * exists episode. split; [reflexivity|].
        destruct (fetch (DrivePage.complete_request episode) w)
          as [[resp|e'] w''] eqn:F.
        -- rewrite (handleNext_answered fetch s w w'' episode resp C F) in R.
           discriminate.
        -- rewrite (handleNext_failed fetch s w w'' episode e' C F) in R.
           injection R as -> ->. reflexivity.
      * rewrite (handleNext_idle fetch s w C) in R. discriminate.
    + intros (episode & C & F). now apply (handleNext_failed fetch s w w' episode).
  - intros [C|(episode & resp & w' & C & F)].
    + rewrite (handleNext_idle fetch s w C).
      eexists _, _. split; [reflexivity|]. now apply moved_on_stays.
    + rewrite (handleNext_answered fetch s w w' episode resp C F).
      eexists _, _. split; [reflexivity|]. now apply moved_on_stays.
  - unfold DrivePage.handlePrevious.
    destruct (0 <? DrivePage.currentIndex s)%nat eqn:L.
    + apply Nat.ltb_lt in L. unfold DrivePage.in_queue in *.
      cbn [DrivePage.moveTo DrivePage.currentIndex DrivePage.episodes].
      split; [left; destruct Q as [Q|[_ Q]]; lia|].
      split; [reflexivity|]. intros; lia.
    + split; [exact Q|]. split; reflexivity.
  - assert (Q1 : DrivePage.in_queue (DrivePage.setIsPlaying false s))
      by exact Q.
    cbn [DrivePage.handleEnded fst snd].
    split; [reflexivity|]. split; [exact Q1|].
    split; [reflexivity|]. split; [reflexivity|]. split.
    + intros s' w' E.
      destruct (DrivePage.currentEpisode (DrivePage.setIsPlaying false s))
        as [episode|] eqn:C.
      * destruct (fetch (DrivePage.complete_request episode) w)
          as [[resp|e'] w''] eqn:F.
        -- rewrite (handleNext_answered fetch _ w w'' episode resp C F) in E.
           injection E as <- _.
           destruct (moved_on_stays (DrivePage.setIsPlaying false s) Q1)
             as (I & Ep & _).
           split; [exact I|]. split; [|exact Ep].
           cbn [DrivePage.setIsPlaying DrivePage.currentIndex
                DrivePage.episodes].
           destruct (DrivePage.currentIndex s
                     <? List.length (DrivePage.episodes s) - 1)%nat;
             reflexivity.
        -- rewrite (handleNext_failed fetch _ w w'' episode e' C F) in E.
           discriminate.
      * rewrite (handleNext_idle fetch _ w C) in E. injection E as <- _.
        destruct (moved_on_stays (DrivePage.setIsPlaying false s) Q1)
          as (I & Ep & _).
        split; [exact I|]. split; [|exact Ep].
        cbn [DrivePage.setIsPlaying DrivePage.currentIndex
             DrivePage.episodes].
        destruct (DrivePage.currentIndex s
                  <? List.length (DrivePage.episodes s) - 1)%nat;
          reflexivity.
    + intros episode e w' C F.
      now apply (handleNext_failed fetch _ w w' episode).
Qed.

(** On the last episode of the sample, a transport that is down rejects
    [handleNext]. *)
Lemma player_stays_in_queue_witness :
  let s := {| DrivePage.episodes :=
                map Store.rowToArtifact Sample.rows;
              DrivePage.currentIndex := 2; DrivePage.isPlaying := true;
              DrivePage.progress := 0%Z; DrivePage.audio := None |} in
  DrivePage.handleNext (fun _ => throw (ApiError "Failed to fetch")) s
    Sample.world
  = (Rejected (ApiError "Failed to fetch"), Sample.world).
Proof.
  cbv zeta.
  destruct (player_stays_in_queue
              (fun _ => throw (ApiError "Failed to fetch"))
              {| DrivePage.episodes := map Store.rowToArtifact Sample.rows;
                 DrivePage.currentIndex := 2; DrivePage.isPlaying := true;
                 DrivePage.progress := 0%Z; DrivePage.audio := None |}
              Sample.world)
    as (R & _).
  - left. simpl. lia.
  - apply R. eexists. split; reflexivity.
Defined.


